(** * Celery media processing platform: the pipeline, its store and its API

  A shallow embedding of [backend/app]: [config.py], [models.py],
  [storage.py], [tasks.py] and the two endpoints of [main.py] that the
  specification talks about ([upload_media] and [task_updates]).

  Conventions.
  - Python code that mutates the database, the file system or the broker is
    written in a state-and-exception monad [M] over a [World].  A raised
    exception keeps the effects performed before it, as in Python.
  - Task ids are kept in the text form [str(row.id)]; the table is keyed by
    that text, so [UUID(media_task_id)] is the identity on keys.  Text that
    is not the canonical form of a UUID is outside this key space: what is
    stated about an id that has no row, or about the rows of other ids, is
    stated for canonical text ([Props.canonical_uuid]).
  - Strings are byte strings.  [Py.lower], [Py.repr] and [Cors.strip] are
    Python's functions on ASCII text; what depends on them is stated for
    ASCII text ([Props.ascii_text]).
  - External collaborators are scripted by the world: every
    [subprocess.run] pops the next return code of [ffmpeg_rc], every
    [client.upload_file] pops the next entry of [s3_script]; an exhausted
    script means the collaborator succeeds.
  - [trace] is instrumentation only: it records task invocations, retries
    and database commits in the order they happen.  No definition reads it. *)

From Stdlib Require Import ZArith String Ascii Floats DecimalString Sorted.
From stdpp Require Import gmap strings list fin_maps.

Open Scope Z_scope.
Open Scope string_scope.

(* ===================================================================== *)
(** ** Python strings and [pathlib] *)
(* ===================================================================== *)

Module Py.

(** [str.lower] on ASCII text: the letters A-Z are mapped, every other
    byte is kept.  (Beyond ASCII Python maps more, e.g. the Kelvin sign to
    k.) *)
Definition lower_ascii (c : ascii) : ascii :=
  let n := nat_of_ascii c in
  if (Nat.leb 65 n && Nat.leb n 90)%bool then ascii_of_nat (n + 32) else c.

Fixpoint lower (s : string) : string :=
  match s with
  | EmptyString => EmptyString
  | String c rest => String (lower_ascii c) (lower rest)
  end.

(** [s.rfind(c)]: index of the last occurrence of [c]. *)
Fixpoint rfind (c : ascii) (s : string) : option nat :=
  match s with
  | EmptyString => None
  | String a rest =>
      match rfind c rest with
      | Some i => Some (S i)
      | None => if Ascii.eqb a c then Some O else None
      end
  end.

(** [s[i:]] and [s[:i]]. *)
Definition drop_str (i : nat) (s : string) : string :=
  String.substring i (String.length s - i) s.
Definition take_str (i : nat) (s : string) : string :=
  String.substring 0 i s.

(** [s.split(sep)] for a one-character separator. *)
Fixpoint split (sep : ascii) (s : string) : list string :=
  match s with
  | EmptyString => [EmptyString]
  | String c rest =>
      if Ascii.eqb c sep then EmptyString :: split sep rest
      else
        match split sep rest with
        | piece :: pieces => String c piece :: pieces
        | [] => [String c EmptyString]
        end
  end.

(** The components pathlib keeps when it parses a path: the pieces
    between "/" that are neither empty nor ".". *)
Definition path_parts (p : string) : list string :=
  List.filter (fun piece => negb (String.eqb piece "" || String.eqb piece "."))
    (split "/" p).

(** [Path(p).name]: the last component, [''] when there is none. *)
Definition path_name (p : string) : string := List.last (path_parts p) "".

(** The index pathlib uses to split a name into stem and suffix:
    [i = name.rfind('.')], kept when [0 < i < len(name) - 1]. *)
Definition suffix_index (name : string) : option nat :=
  match rfind "." name with
  | Some i =>
      if (Nat.ltb 0 i && Nat.ltb i (String.length name - 1))%bool
      then Some i else None
  | None => None
  end.

(** [Path(p).suffix] *)
Definition path_suffix (p : string) : string :=
  let name := path_name p in
  match suffix_index name with
  | Some i => drop_str i name
  | None => ""
  end.

(** [Path(p).stem] *)
Definition path_stem (p : string) : string :=
  let name := path_name p in
  match suffix_index name with
  | Some i => take_str i name
  | None => name
  end.

(** [Path(p).with_name(n)]: the last component replaced by [n]. *)
Definition path_with_name (p n : string) : string :=
  match rfind "/" p with
  | Some i => take_str (S i) p ++ n
  | None => n
  end.

(** [dir / name] for a relative [name]. *)
Definition path_join (dir name : string) : string := dir ++ "/" ++ name.

(** [repr(s)] for a string of ASCII text: single quotes, unless the text
    holds a single quote and no double quote; the quote and the backslash
    are escaped, and so are the control characters. *)
Definition hex_digit_of (n : nat) : ascii :=
  nth n (list_ascii_of_string "0123456789abcdef") "0"%char.

Definition repr_char (quote c : ascii) : string :=
  let n := nat_of_ascii c in
  let backslash := ascii_of_nat 92 in
  if (Ascii.eqb c quote || Ascii.eqb c backslash)%bool
  then String backslash (String c "")
  else if Nat.eqb n 9 then String backslash "t"
  else if Nat.eqb n 10 then String backslash "n"
  else if Nat.eqb n 13 then String backslash "r"
  else if (Nat.ltb n 32 || Nat.eqb n 127)%bool
  then String backslash
         (String "x" (String (hex_digit_of (n / 16)) (String (hex_digit_of (n mod 16)) "")))
  else String c "".

Fixpoint contains (c : ascii) (s : string) : bool :=
  match s with
  | EmptyString => false
  | String a rest => (Ascii.eqb a c || contains c rest)%bool
  end.

Fixpoint repr_body (quote : ascii) (s : string) : string :=
  match s with
  | EmptyString => EmptyString
  | String c rest => repr_char quote c ++ repr_body quote rest
  end.

Definition repr (s : string) : string :=
  let single := ascii_of_nat 39 in
  let double := ascii_of_nat 34 in
  let quote := if (contains single s && negb (contains double s))%bool
               then double else single in
  String quote (repr_body quote s ++ String quote "").

(** [str(n)] for an integer. *)
Definition str_of_int (n : Z) : string := NilZero.string_of_int (Z.to_int n).

(** [float(n)]: the nearest binary64 number. *)
Definition float_of_int (n : Z) : float :=
  SF2Prim (binary_normalize prec emax n 0 false).

(** [int(x)] on a float truncates toward zero; infinities and NaN raise
    ([None] here, turned into the exception by the caller). *)
Definition int_of_float (x : float) : option Z :=
  match Prim2SF x with
  | S754_zero _ => Some 0
  | S754_finite s m e =>
      let mag := if Z.leb 0 e then Z.shiftl (Z.pos m) e
                 else Z.shiftr (Z.pos m) (- e) in
      Some (if s then - mag else mag)
  | S754_infinity _ => None
  | S754_nan => None
  end.

Definition float_is_zero (x : float) : bool :=
  match Prim2SF x with
  | S754_zero _ => true
  | _ => false
  end.

End Py.

(* ===================================================================== *)
(** ** config.py *)
(* ===================================================================== *)

Module Config.

Record Settings := {
  media_root : string;
  max_active_tasks_per_user : Z;
  s3_enabled : bool;
  s3_bucket : string;
  s3_public_base_url : string
}.

(** The defaults of the [Settings] class. *)
Definition settings : Settings := {|
  media_root := "/tmp/media";
  max_active_tasks_per_user := 3;
  s3_enabled := true;
  s3_bucket := "media";
  s3_public_base_url := "http://localhost:9000"
|}.

Definition media_input_dir (cfg : Settings) : string :=
  Py.path_join (media_root cfg) "input".
Definition media_output_dir (cfg : Settings) : string :=
  Py.path_join (media_root cfg) "output".
Definition media_thumb_dir (cfg : Settings) : string :=
  Py.path_join (media_root cfg) "thumb".

End Config.

(* ===================================================================== *)
(** ** models.py *)
(* ===================================================================== *)

Module Models.

Record Variant := { v_label : string; v_url : string }.

(** The [outputs] JSON column: [{}] at creation, then
    [{"thumbnail": url, "variants": [{"label", "url"}, ...]}]. *)
Inductive Outputs :=
| EmptyOutputs
| MkOutputs (thumbnail : string) (variants : list Variant).

(** A row of [media_tasks] without its primary key (the key of the table
    map) and without the two timestamps, which the database server fills. *)
Record MediaTask := {
  user_id : string;
  original_filename : string;
  status : string;
  progress : Z;
  celery_task_id : option string;
  source_path : string;
  thumbnail_path : option string;
  outputs : Outputs;
  error_message : option string
}.

End Models.

(* ===================================================================== *)
(** ** The world the code runs in, and the monad of its effects *)
(* ===================================================================== *)

Module Runtime.
Import Models.

(** Exception classes that occur in the code or that its collaborators
    raise.  [exc_str] is [str(exc)]. *)
Inductive ExcClass :=
| ValueError
| KeyError
| ZeroDivisionError
| OverflowError
| OSError                    (* PIL could not open or decode the file *)
| TransientProcessingError   (* tasks.py *)
| BotoCoreError
| ClientError
| S3UploadFailedError        (* boto3: a transfer that S3 answered with an error *)
| RuntimeError               (* stands for any class the code does not name *)
| IntegrityError
| HTTPException (status_code : Z).

Record Exc := { exc_class : ExcClass; exc_str : string }.

Inductive Result (A : Type) :=
| Return (a : A)
| Raise (e : Exc).
Arguments Return {A} a.
Arguments Raise {A} e.

(** A file of the media directories.  [Upload] holds the bytes stored by
    [upload_media]: their length and, when PIL can decode them, the pixel
    size.  [Picture] is an image saved by PIL; [Artifact] is a file whose
    content the pipeline never reads back (the thumbnail, ffmpeg output). *)
Inductive File :=
| Upload (st_size : Z) (pixels : option (Z * Z))
| Picture (width height : Z)
| Artifact.

(** [path.stat().st_size]; the byte length of produced files is not
    tracked (no code reads it), they are only known to be non-empty. *)
Definition file_size (f : File) : Z :=
  match f with
  | Upload n _ => n
  | Picture _ _ => 1
  | Artifact => 1
  end.

(** The size PIL reports after [Image.open], when it can open the file. *)
Definition file_pixels (f : File) : option (Z * Z) :=
  match f with
  | Upload _ px => px
  | Picture w h => Some (w, h)
  | Artifact => None
  end.

(** What one call of [client.upload_file] does. *)
Inductive S3Result :=
| Stored
| S3Raises (e : Exc).

Record Item := { i_label : string; i_path : string }.
Record Uploaded := { u_label : string; u_url : string; u_path : string }.

(** The context dict handed from stage to stage; a missing key is [None]. *)
Record Ctx := {
  ctx_media_task_id : option string;
  ctx_input_path : option string;
  ctx_kind : option string;
  ctx_size_bytes : option Z;
  ctx_thumbnail_path : option string;
  ctx_converted : option (list Item);
  ctx_watermarked : option (list Item);
  ctx_uploaded : option (list Uploaded);
  ctx_thumbnail_url : option string
}.

Inductive Event :=
| EvInvoke (task : string) (retries : nat)
| EvRetry (task : string) (retries : nat) (countdown_max : Z)
| EvCommit (id : string) (row : MediaTask).

Record World := {
  db : gmap string MediaTask;          (* table media_tasks *)
  files : gmap string File;            (* the media directories *)
  ffmpeg_rc : list Z;                  (* return codes of the next subprocess.run calls *)
  s3_script : list S3Result;           (* outcomes of the next client.upload_file calls *)
  queue : list (string * Ctx);         (* chains sent to the broker: (id, args[0]) *)
  trace : list Event
}.

Definition set_db (d : gmap string MediaTask) (w : World) : World :=
  {| db := d; files := files w; ffmpeg_rc := ffmpeg_rc w;
     s3_script := s3_script w; queue := queue w; trace := trace w |}.
Definition set_files (f : gmap string File) (w : World) : World :=
  {| db := db w; files := f; ffmpeg_rc := ffmpeg_rc w;
     s3_script := s3_script w; queue := queue w; trace := trace w |}.
Definition set_ffmpeg_rc (l : list Z) (w : World) : World :=
  {| db := db w; files := files w; ffmpeg_rc := l;
     s3_script := s3_script w; queue := queue w; trace := trace w |}.
Definition set_s3_script (l : list S3Result) (w : World) : World :=
  {| db := db w; files := files w; ffmpeg_rc := ffmpeg_rc w;
     s3_script := l; queue := queue w; trace := trace w |}.
Definition set_queue (q : list (string * Ctx)) (w : World) : World :=
  {| db := db w; files := files w; ffmpeg_rc := ffmpeg_rc w;
     s3_script := s3_script w; queue := q; trace := trace w |}.
Definition log (e : Event) (w : World) : World :=
  {| db := db w; files := files w; ffmpeg_rc := ffmpeg_rc w;
     s3_script := s3_script w; queue := queue w; trace := trace w ++ [e] |}.

(** State and exceptions. *)
Definition M (A : Type) : Type := World -> Result A * World.

Definition ret {A} (a : A) : M A := fun w => (Return a, w).
Definition raise {A} (c : ExcClass) (msg : string) : M A :=
  fun w => (Raise {| exc_class := c; exc_str := msg |}, w).
Definition bind {A B} (m : M A) (k : A -> M B) : M B :=
  fun w =>
    match m w with
    | (Return a, w') => k a w'
    | (Raise e, w') => (Raise e, w')
    end.
(** A computation without effects. *)
Definition lift {A} (r : Result A) : M A := fun w => (r, w).
Definition modify (f : World -> World) : M unit := fun w => (Return tt, f w).
Definition gets {A} (f : World -> A) : M A := fun w => (Return (f w), w).

(** [try: m  except classes: handler] *)
Definition try_except {A} (m : M A) (caught : ExcClass -> bool) (handler : M A) : M A :=
  fun w =>
    match m w with
    | (Return a, w') => (Return a, w')
    | (Raise e, w') => if caught (exc_class e) then handler w' else (Raise e, w')
    end.

(** [d[key]]: [KeyError] when the key is missing. *)
Definition getitem {A} (field : option A) (key : string) : M A :=
  match field with
  | Some v => ret v
  | None => raise KeyError ("'" ++ key ++ "'")
  end.

(** [for x in xs: acc.append(body(x))] *)
Fixpoint for_each {A B} (body : A -> M B) (xs : list A) : M (list B) :=
  match xs with
  | [] => ret []
  | x :: rest =>
      bind (body x) (fun y => bind (for_each body rest) (fun ys => ret (y :: ys)))
  end.

(** [subprocess.run(cmd).returncode] *)
Definition subprocess_run (cmd : list string) : M Z :=
  fun w =>
    match ffmpeg_rc w with
    | [] => (Return 0, w)
    | rc :: rest => (Return rc, set_ffmpeg_rc rest w)
    end.

(** A file written by a tool or by PIL. *)
Definition write_file (path : string) (f : File) : M unit :=
  modify (fun w => set_files (<[path := f]> (files w)) w).

(** [Image.open(path)], as far as the code uses it: the pixel size.  A
    file that is not an image makes PIL raise [UnidentifiedImageError], a
    subclass of [OSError], whose text holds [repr] of the file name (here
    for a path that resolves to itself). *)
Definition image_open (path : string) : M (Z * Z) :=
  fun w =>
    match files w !! path with
    | Some f =>
        match file_pixels f with
        | Some px => (Return px, w)
        | None => raise OSError ("cannot identify image file " ++ Py.repr path) w
        end
    | None =>
        raise OSError ("[Errno 2] No such file or directory: " ++ Py.repr path) w
    end.

End Runtime.

Declare Scope py_scope.
Notation "'let*' x ':=' m 'in' k" := (Runtime.bind m (fun x => k))
(at level 10, x name, m at level 100, k at level 200) : py_scope.
Notation "m ';;' k" := (Runtime.bind m (fun _ => k))
(at level 100, k at level 200, right associativity) : py_scope.
Open Scope py_scope.

(* ===================================================================== *)
(** ** storage.py *)
(* ===================================================================== *)

Module Storage.
Import Runtime Config.

(** [client.upload_file(str(path), bucket, key)] *)
Definition client_upload_file (path bucket object_key : string) : M unit :=
  fun w =>
    match s3_script w with
    | [] => (Return tt, w)
    | Stored :: rest => (Return tt, set_s3_script rest w)
    | S3Raises e :: rest => (Raise e, set_s3_script rest w)
    end.

(** The classes of [except (BotoCoreError, ClientError)]. *)
Definition storage_error (c : ExcClass) : bool :=
  match c with
  | BotoCoreError | ClientError => true
  | _ => false
  end.

Definition public_url (cfg : Settings) (object_key : string) : string :=
  s3_public_base_url cfg ++ "/" ++ s3_bucket cfg ++ "/" ++ object_key.

Definition upload_file_to_storage (cfg : Settings) (path object_key : string) : M string :=
  if negb (s3_enabled cfg) then ret path
  else
    try_except
      (client_upload_file path (s3_bucket cfg) object_key ;;
       ret (public_url cfg object_key))
      storage_error
      (ret path).

End Storage.

(* ===================================================================== *)
(** ** tasks.py *)
(* ===================================================================== *)

Module Tasks.
Import Runtime Config Models Storage.

(** *** update_media_row

    [db.get(MediaTask, UUID(media_task_id))] is the lookup of the text in
    the table: for the canonical text of a UUID, the only text a stage is
    ever handed, [str(UUID(text))] is the text itself. *)

Definition update_media_row (media_task_id : string)
    (status : option string) (progress : option Z) (outputs : option Outputs)
    (error_message : option string) (thumbnail_path : option string) : M unit :=
  fun w =>
    match db w !! media_task_id with
    | None => (Return tt, w)
    | Some row =>
        let row' := {|
          user_id := Models.user_id row;
          original_filename := Models.original_filename row;
          status := match status with Some s => s | None => Models.status row end;
          progress := match progress with Some p => p | None => Models.progress row end;
          celery_task_id := Models.celery_task_id row;
          source_path := Models.source_path row;
          thumbnail_path :=
            match thumbnail_path with Some t => Some t | None => Models.thumbnail_path row end;
          outputs := match outputs with Some o => o | None => Models.outputs row end;
          error_message :=
            match error_message with Some m => Some m | None => Models.error_message row end
        |} in
        (Return tt, log (EvCommit media_task_id row') (set_db (<[media_task_id := row']> (db w)) w))
    end.

(** *** Context updates ([ctx[key] = value]) *)

Definition set_kind_size (kind : string) (size : Z) (c : Ctx) : Ctx :=
  {| ctx_media_task_id := ctx_media_task_id c; ctx_input_path := ctx_input_path c;
     ctx_kind := Some kind; ctx_size_bytes := Some size;
     ctx_thumbnail_path := ctx_thumbnail_path c; ctx_converted := ctx_converted c;
     ctx_watermarked := ctx_watermarked c; ctx_uploaded := ctx_uploaded c;
     ctx_thumbnail_url := ctx_thumbnail_url c |}.
Definition set_thumbnail_path (p : string) (c : Ctx) : Ctx :=
  {| ctx_media_task_id := ctx_media_task_id c; ctx_input_path := ctx_input_path c;
     ctx_kind := ctx_kind c; ctx_size_bytes := ctx_size_bytes c;
     ctx_thumbnail_path := Some p; ctx_converted := ctx_converted c;
     ctx_watermarked := ctx_watermarked c; ctx_uploaded := ctx_uploaded c;
     ctx_thumbnail_url := ctx_thumbnail_url c |}.
Definition set_converted (l : list Item) (c : Ctx) : Ctx :=
  {| ctx_media_task_id := ctx_media_task_id c; ctx_input_path := ctx_input_path c;
     ctx_kind := ctx_kind c; ctx_size_bytes := ctx_size_bytes c;
     ctx_thumbnail_path := ctx_thumbnail_path c; ctx_converted := Some l;
     ctx_watermarked := ctx_watermarked c; ctx_uploaded := ctx_uploaded c;
     ctx_thumbnail_url := ctx_thumbnail_url c |}.
Definition set_watermarked (l : list Item) (c : Ctx) : Ctx :=
  {| ctx_media_task_id := ctx_media_task_id c; ctx_input_path := ctx_input_path c;
     ctx_kind := ctx_kind c; ctx_size_bytes := ctx_size_bytes c;
     ctx_thumbnail_path := ctx_thumbnail_path c; ctx_converted := ctx_converted c;
     ctx_watermarked := Some l; ctx_uploaded := ctx_uploaded c;
     ctx_thumbnail_url := ctx_thumbnail_url c |}.
Definition set_uploaded (l : list Uploaded) (thumb_url : string) (c : Ctx) : Ctx :=
  {| ctx_media_task_id := ctx_media_task_id c; ctx_input_path := ctx_input_path c;
     ctx_kind := ctx_kind c; ctx_size_bytes := ctx_size_bytes c;
     ctx_thumbnail_path := ctx_thumbnail_path c; ctx_converted := ctx_converted c;
     ctx_watermarked := ctx_watermarked c; ctx_uploaded := Some l;
     ctx_thumbnail_url := Some thumb_url |}.

(** *** Stage 1: validate *)

Definition image_extensions : list string := [".jpg"; ".jpeg"; ".png"; ".webp"].
Definition video_extensions : list string := [".mp4"; ".mov"; ".mkv"; ".webm"].

Definition _file_kind (path : string) : M string :=
  let ext := Py.lower (Py.path_suffix path) in
  if existsb (String.eqb ext) image_extensions then ret "image"
  else if existsb (String.eqb ext) video_extensions then ret "video"
  else raise ValueError ("Unsupported media format: " ++ ext).

(** [_ensure_dirs] creates the three media directories; [files] tracks
    regular files only, so it changes nothing here.  The same holds for
    [self.update_state], which writes to the result backend. *)
Definition validate_media (cfg : Settings) (ctx : Ctx) : M Ctx :=
  let* input_path := getitem (ctx_input_path ctx) "input_path" in
  let* present := gets (fun w => bool_decide (is_Some (files w !! input_path))) in
  if negb present then raise ValueError "Uploaded source file does not exist"
  else
    let* kind := _file_kind input_path in
    let* size_bytes :=
      gets (fun w => match files w !! input_path with Some f => file_size f | None => 0 end) in
    if Z.eqb size_bytes 0 then raise ValueError "Uploaded file is empty"
    else
      let ctx := set_kind_size kind size_bytes ctx in
      let* media_task_id := getitem (ctx_media_task_id ctx) "media_task_id" in
      update_media_row media_task_id (Some "processing") (Some 10) None None None ;;
      ret ctx.

(** *** Stage 2: thumbnail *)

Definition generate_thumbnail (cfg : Settings) (ctx : Ctx) : M Ctx :=
  let* source := getitem (ctx_input_path ctx) "input_path" in
  let thumb_path := Py.path_join (media_thumb_dir cfg) (Py.path_stem source ++ "_thumb.jpg") in
  let* kind := getitem (ctx_kind ctx) "kind" in
  (if String.eqb kind "image" then
     (* img.thumbnail((320, 320)); img.convert("RGB").save(thumb_path, "JPEG") *)
     image_open source ;;
     write_file thumb_path Artifact
   else
     let* returncode :=
       subprocess_run ["ffmpeg"; "-y"; "-i"; source; "-ss"; "00:00:01";
                       "-frames:v"; "1"; thumb_path] in
     if negb (Z.eqb returncode 0)
     then raise TransientProcessingError "Failed to generate video thumbnail"
     else write_file thumb_path Artifact) ;;
  let ctx := set_thumbnail_path thumb_path ctx in
  let* media_task_id := getitem (ctx_media_task_id ctx) "media_task_id" in
  update_media_row media_task_id None (Some 25) None None (Some thumb_path) ;;
  ret ctx.

(** *** Stage 3: convert *)

Definition resolutions : list (string * Z) :=
  [("1080p", 1920); ("720p", 1280); ("480p", 854)].

(** [float(n)], which raises when [n] is beyond the range of a double. *)
Definition py_float (n : Z) : Result float :=
  let x := Py.float_of_int n in
  match Prim2SF x with
  | S754_infinity _ =>
      Raise {| exc_class := OverflowError; exc_str := "int too large to convert to float" |}
  | _ => Return x
  end.

(** [ratio = width / float(img.width); height = max(1, int(img.height * ratio))] *)
Definition scaled_height (img_width img_height width : Z) : Result Z :=
  match py_float img_width with
  | Raise e => Raise e
  | Return w_src =>
      if Py.float_is_zero w_src then
        Raise {| exc_class := ZeroDivisionError; exc_str := "float division by zero" |}
      else
        match py_float width with
        | Raise e => Raise e
        | Return w_dst =>
            let ratio := PrimFloat.div w_dst w_src in
            match py_float img_height with
            | Raise e => Raise e
            | Return h_src =>
                match Py.int_of_float (PrimFloat.mul h_src ratio) with
                | Some n => Return (Z.max 1 n)
                | None =>
                    Raise {| exc_class := OverflowError;
                             exc_str := "cannot convert float to integer" |}
                end
            end
        end
  end.

Definition convert_one (cfg : Settings) (ctx : Ctx) (source : string)
    (res : string * Z) : M Item :=
  let label := fst res in
  let width := snd res in
  let out_name := Py.path_stem source ++ "_" ++ label ++ Py.path_suffix source in
  let out_path := Py.path_join (media_output_dir cfg) out_name in
  let* kind := getitem (ctx_kind ctx) "kind" in
  (if String.eqb kind "image" then
     let* img := image_open source in
     let* height := lift (scaled_height (fst img) (snd img) width) in
     write_file out_path (Picture width height)
   else
     let* returncode :=
       subprocess_run ["ffmpeg"; "-y"; "-i"; source; "-vf";
                       "scale=" ++ Py.str_of_int width ++ ":-2"; "-c:a"; "copy"; out_path] in
     if negb (Z.eqb returncode 0)
     then raise TransientProcessingError ("Failed to convert " ++ label)
     else write_file out_path Artifact) ;;
  ret {| i_label := label; i_path := out_path |}.

Definition convert_resolutions (cfg : Settings) (ctx : Ctx) : M Ctx :=
  let* source := getitem (ctx_input_path ctx) "input_path" in
  let* converted := for_each (convert_one cfg ctx source) resolutions in
  let ctx := set_converted converted ctx in
  let* media_task_id := getitem (ctx_media_task_id ctx) "media_task_id" in
  update_media_row media_task_id None (Some 55) None None None ;;
  ret ctx.

(** *** Stage 4: watermark *)

Definition watermark_one (ctx : Ctx) (item : Item) : M Item :=
  let src := i_path item in
  let dst := Py.path_with_name src (Py.path_stem src ++ "_wm" ++ Py.path_suffix src) in
  let* kind := getitem (ctx_kind ctx) "kind" in
  (if String.eqb kind "image" then
     (* the text overlay is composited on an image of the same size *)
     let* img := image_open src in
     write_file dst (Picture (fst img) (snd img))
   else
     let* returncode :=
       subprocess_run ["ffmpeg"; "-y"; "-i"; src; "-vf";
         "drawtext=text='Celery Demo':x=20:y=20:fontcolor=white:fontsize=24:box=1:boxcolor=black@0.4";
         dst] in
     if negb (Z.eqb returncode 0)
     then raise TransientProcessingError "Failed to watermark video"
     else write_file dst Artifact) ;;
  ret {| i_label := i_label item; i_path := dst |}.

Definition apply_watermark (cfg : Settings) (ctx : Ctx) : M Ctx :=
  let* converted := getitem (ctx_converted ctx) "converted" in
  let* watermarked := for_each (watermark_one ctx) converted in
  let ctx := set_watermarked watermarked ctx in
  let* media_task_id := getitem (ctx_media_task_id ctx) "media_task_id" in
  update_media_row media_task_id None (Some 75) None None None ;;
  ret ctx.

(** *** Stage 5: publish *)

Definition upload_one (cfg : Settings) (media_task_id : string) (item : Item) : M Uploaded :=
  let path := i_path item in
  let object_key := media_task_id ++ "/" ++ Py.path_name path in
  let* url := upload_file_to_storage cfg path object_key in
  ret {| u_label := i_label item; u_url := url; u_path := path |}.

Definition upload_outputs (cfg : Settings) (ctx : Ctx) : M Ctx :=
  let* media_task_id := getitem (ctx_media_task_id ctx) "media_task_id" in
  let* watermarked := getitem (ctx_watermarked ctx) "watermarked" in
  let* uploaded := for_each (upload_one cfg media_task_id) watermarked in
  let* thumbnail_path := getitem (ctx_thumbnail_path ctx) "thumbnail_path" in
  let thumb_key := media_task_id ++ "/" ++ Py.path_name thumbnail_path in
  let* thumb_url := upload_file_to_storage cfg thumbnail_path thumb_key in
  let ctx := set_uploaded uploaded thumb_url ctx in
  update_media_row media_task_id None (Some 90) None None None ;;
  ret ctx.

(** *** Stage 6: finalize *)

Definition finalize_success (cfg : Settings) (ctx : Ctx) : M Outputs :=
  let* thumbnail_url := getitem (ctx_thumbnail_url ctx) "thumbnail_url" in
  let* uploaded := getitem (ctx_uploaded ctx) "uploaded" in
  let outputs :=
    MkOutputs thumbnail_url
      (map (fun x => {| v_label := u_label x; v_url := u_url x |}) uploaded) in
  let* media_task_id := getitem (ctx_media_task_id ctx) "media_task_id" in
  update_media_row media_task_id (Some "completed") (Some 100) (Some outputs) None None ;;
  ret outputs.

(** *** BaseMediaTask and the Celery worker

    [BaseMediaTask] sets [autoretry_for = (TransientProcessingError,)],
    [retry_backoff = True], [retry_backoff_max = 60], [retry_jitter = True]
    and [max_retries = 5].  Celery's behaviour for these attributes: an
    exception of a class in [autoretry_for] makes the task call
    [self.retry], which re-sends the same task with the same arguments and
    [request.retries + 1], unless that number exceeds [max_retries]; then,
    as for any other exception, the task fails and [on_failure] runs.  A
    failed task of a chain stops the chain. *)

Definition max_retries : nat := 5.
Definition retry_backoff_max : Z := 60.

Definition autoretry_for (c : ExcClass) : bool :=
  match c with
  | TransientProcessingError => true
  | _ => false
  end.

(** [get_exponential_backoff_interval(factor=1, retries, maximum=60)]
    before jitter; with [retry_jitter] the countdown is drawn from
    [0 .. backoff_countdown retries]. *)
Definition backoff_countdown (retries : nat) : Z :=
  Z.min retry_backoff_max (1 * 2 ^ Z.of_nat retries).

Record Task (R : Type) := {
  task_name : string;
  task_run : Ctx -> M R
}.
Arguments task_name {R} t.
Arguments task_run {R} t ctx.

Definition empty_ctx : Ctx :=
  {| ctx_media_task_id := None; ctx_input_path := None; ctx_kind := None;
     ctx_size_bytes := None; ctx_thumbnail_path := None; ctx_converted := None;
     ctx_watermarked := None; ctx_uploaded := None; ctx_thumbnail_url := None |}.

Definition on_failure (exc : Exc) (args : list Ctx) : M unit :=
  let ctx := match args with c :: _ => c | [] => empty_ctx end in
  match ctx_media_task_id ctx with
  | Some media_task_id =>
      if String.eqb media_task_id "" then ret tt
      else update_media_row media_task_id (Some "failed") None None (Some (exc_str exc)) None
  | None => ret tt
  end.

(** One delivery of task [t] with [request.retries = retries];
    [remaining] is [max_retries - retries].  The result [Raise e] is a
    failed task. *)
Fixpoint execute {R} (t : Task R) (remaining retries : nat) (ctx : Ctx) : M R :=
  fun w =>
    match task_run t ctx (log (EvInvoke (task_name t) retries) w) with
    | (Return r, w1) => (Return r, w1)
    | (Raise e, w1) =>
        if autoretry_for (exc_class e) then
          match remaining with
          | S k =>
              execute t k (S retries) ctx
                (log (EvRetry (task_name t) retries (backoff_countdown retries)) w1)
          | O => (Raise e, snd (on_failure e [ctx] w1))
          end
        else (Raise e, snd (on_failure e [ctx] w1))
    end.

Definition apply_task {R} (t : Task R) (ctx : Ctx) : M R :=
  execute t max_retries 0 ctx.

(** [chain(t1, ..., tn)]: each task receives the previous result. *)
Fixpoint chain (ts : list (Task Ctx)) (ctx : Ctx) : M Ctx :=
  match ts with
  | [] => ret ctx
  | t :: rest => let* ctx' := apply_task t ctx in chain rest ctx'
  end.

Definition validate_media_task cfg : Task Ctx :=
  {| task_name := "app.tasks.validate_media"; task_run := validate_media cfg |}.
Definition generate_thumbnail_task cfg : Task Ctx :=
  {| task_name := "app.tasks.generate_thumbnail"; task_run := generate_thumbnail cfg |}.
Definition convert_resolutions_task cfg : Task Ctx :=
  {| task_name := "app.tasks.convert_resolutions"; task_run := convert_resolutions cfg |}.
Definition apply_watermark_task cfg : Task Ctx :=
  {| task_name := "app.tasks.apply_watermark"; task_run := apply_watermark cfg |}.
Definition upload_outputs_task cfg : Task Ctx :=
  {| task_name := "app.tasks.upload_outputs"; task_run := upload_outputs cfg |}.
Definition finalize_success_task cfg : Task Outputs :=
  {| task_name := "app.tasks.finalize_success"; task_run := finalize_success cfg |}.

(** The chain built by [run_media_pipeline], as the worker runs it. *)
Definition pipeline_stages (cfg : Settings) : list (Task Ctx) :=
  [validate_media_task cfg; generate_thumbnail_task cfg; convert_resolutions_task cfg;
   apply_watermark_task cfg; upload_outputs_task cfg].

(** The stages [ts] followed by the final task of the chain. *)
Definition finish_chain (cfg : Settings) (ts : list (Task Ctx)) (ctx : Ctx) : M Outputs :=
  let* ctx' := chain ts ctx in
  apply_task (finalize_success_task cfg) ctx'.

Definition run_chain (cfg : Settings) (initial_ctx : Ctx) : M Outputs :=
  finish_chain cfg (pipeline_stages cfg) initial_ctx.

(** [run_media_pipeline]: the chain is sent to the broker with
    [args=[initial_ctx]]; [async_id] is the id of the [AsyncResult] that
    [apply_async] returns. *)
Definition initial_ctx (media_task_id input_path : string) : Ctx :=
  {| ctx_media_task_id := Some media_task_id; ctx_input_path := Some input_path;
     ctx_kind := None; ctx_size_bytes := None; ctx_thumbnail_path := None;
     ctx_converted := None; ctx_watermarked := None; ctx_uploaded := None;
     ctx_thumbnail_url := None |}.

Definition run_media_pipeline (media_task_id input_path async_id : string) : M string :=
  let initial_ctx := initial_ctx media_task_id input_path in
  modify (fun w => set_queue (queue w ++ [(async_id, initial_ctx)]) w) ;;
  ret async_id.

(** A worker takes the oldest chain from the broker and runs it; a failed
    chain has already been recorded by [on_failure]. *)
Definition worker (cfg : Settings) : M unit :=
  fun w =>
    match queue w with
    | [] => (Return tt, w)
    | (_, initial_ctx) :: rest =>
        (Return tt, snd (run_chain cfg initial_ctx (set_queue rest w)))
    end.

End Tasks.

(* ===================================================================== *)
(** ** main.py *)
(* ===================================================================== *)

Module Main.
Import Runtime Config Models Tasks.

(** *** POST /media/upload *)

Record UploadFile := {
  filename : option string;
  content_length : Z;                  (* len(await file.read()) *)
  content_pixels : option (Z * Z)      (* the image the bytes encode, if any *)
}.

Record UploadResponse := {
  r_task_id : string;
  r_celery_id : string;
  r_status : string
}.

Definition is_active (user : string) (row : MediaTask) : bool :=
  String.eqb (Models.user_id row) user
  && existsb (String.eqb (Models.status row)) ["queued"; "processing"].

(** [select count(id) where user_id = ... and status in (...)] *)
Definition active_count (user : string) (d : gmap string MediaTask) : Z :=
  Z.of_nat (size (filter (fun kv => is_active user (snd kv) = true) d)).

(** [new_id] is the [uuid4()] default of the primary key and [async_id]
    the id minted by [apply_async]; the row becomes visible to other
    sessions at [db.commit()], which is where the table changes here. *)
Definition upload_media (cfg : Settings) (file : UploadFile) (user : string)
    (new_id async_id : string) : M UploadResponse :=
  let* active := gets (fun w => active_count user (db w)) in
  if Z.leb (max_active_tasks_per_user cfg) active then
    raise (HTTPException 429)
      ("Task quota exceeded. Max active tasks per user: "
         ++ Py.str_of_int (max_active_tasks_per_user cfg))
  else
    let safe_name :=
      Py.path_name (match filename file with
                    | Some n => if String.eqb n "" then "upload.bin" else n
                    | None => "upload.bin"
                    end) in
    let* taken := gets (fun w => bool_decide (is_Some (db w !! new_id))) in
    if taken then raise IntegrityError "duplicate key value violates unique constraint"
    else
      let source_path := Py.path_join (media_input_dir cfg) (new_id ++ "_" ++ safe_name) in
      write_file source_path (Upload (content_length file) (content_pixels file)) ;;
      let* celery_id := run_media_pipeline new_id source_path async_id in
      let media_row := {|
        user_id := user;
        original_filename := safe_name;
        status := "queued";
        progress := 0;
        celery_task_id := Some celery_id;
        source_path := source_path;
        thumbnail_path := None;
        outputs := EmptyOutputs;
        error_message := None
      |} in
      modify (fun w => set_db (<[new_id := media_row]> (db w)) w) ;;
      ret {| r_task_id := new_id; r_celery_id := celery_id;
             r_status := Models.status media_row |}.

(** *** WebSocket /ws/tasks/{task_id} *)

(** What one iteration of the loop observes: the table, the result
    backend ([AsyncResult(id).state] and [.info] when it is a dict), and
    whether the socket still accepts a message ([send_json] raises
    [WebSocketDisconnect] otherwise). *)
Record Tick := {
  tick_db : gmap string MediaTask;
  tick_backend : string -> string * option string;
  tick_connected : bool
}.

Record Payload := {
  p_task_id : string;
  p_status : string;
  p_progress : Z;
  p_error_message : option string;
  p_outputs : Outputs;
  p_celery_state : option string;
  p_celery_meta : option string
}.

Inductive Message :=
| TaskNotFound                     (* {"error": "Task not found"} *)
| Snapshot (p : Payload).

Inductive Action :=
| Send (m : Message)               (* a message delivered by send_json *)
| Sleep (seconds : Z).             (* asyncio.sleep *)

Inductive Ending :=
| Finished                         (* break: the handler returns *)
| Disconnected                     (* except WebSocketDisconnect: return *)
| Polling.                         (* the loop is still running *)

Definition payload_of (task_id : string) (row : MediaTask) (t : Tick) : Payload :=
  let celery :=
    match Models.celery_task_id row with
    | Some cid =>
        if String.eqb cid "" then (None, None)
        else (Some (fst (tick_backend t cid)), snd (tick_backend t cid))
    | None => (None, None)
    end in
  {| p_task_id := task_id;
     p_status := Models.status row;
     p_progress := Models.progress row;
     p_error_message := Models.error_message row;
     p_outputs := Models.outputs row;
     p_celery_state := fst celery;
     p_celery_meta := snd celery |}.

Definition is_terminal (status : string) : bool :=
  existsb (String.eqb status) ["completed"; "failed"].

(** The [while True] loop, run over the observations of its successive
    iterations; [Polling] when the observations end before the loop does. *)
Fixpoint task_updates (task_id : string) (ticks : list Tick) : list Action * Ending :=
  match ticks with
  | [] => ([], Polling)
  | t :: rest =>
      match tick_db t !! task_id with
      | None =>
          if tick_connected t then ([Send TaskNotFound], Finished)
          else ([], Disconnected)
      | Some row =>
          if tick_connected t then
            let sent := Send (Snapshot (payload_of task_id row t)) in
            if is_terminal (Models.status row) then ([sent], Finished)
            else
              let (later, ending) := task_updates task_id rest in
              (sent :: Sleep 1 :: later, ending)
          else ([], Disconnected)
      end
  end.

End Main.

(* ===================================================================== *)
(** ** main.py: GET /media/tasks/{task_id} *)
(* ===================================================================== *)

Module Query.
Import Runtime Models.

(** schemas.py, [TaskResponse], without the two timestamps. *)
Record TaskResponse := {
  t_id : string;
  t_user_id : string;
  t_original_filename : string;
  t_status : string;
  t_progress : Z;
  t_celery_task_id : option string;
  t_outputs : Outputs;
  t_error_message : option string
}.

(** [TaskResponse.model_validate(row)] reads the attributes of the row. *)
Definition model_validate (task_id : string) (row : MediaTask) : TaskResponse :=
  {| t_id := task_id;
     t_user_id := Models.user_id row;
     t_original_filename := Models.original_filename row;
     t_status := Models.status row;
     t_progress := Models.progress row;
     t_celery_task_id := Models.celery_task_id row;
     t_outputs := Models.outputs row;
     t_error_message := Models.error_message row |}.

Definition get_task_status (task_id : string) : M TaskResponse :=
  fun w =>
    match db w !! task_id with
    | None => raise (HTTPException 404) "Task not found" w
    | Some row => (Return (model_validate task_id row), w)
    end.

End Query.

(* ===================================================================== *)
(** ** tasks.py: the periodic jobs *)
(* ===================================================================== *)

Module Maintenance.
Import Runtime Config Models.

(** Times are instants in microseconds, the resolution of [datetime]. *)
Definition hour : Z := 3600 * 1000000.

(** The default of [Settings.cleanup_max_age_hours]. *)
Definition cleanup_max_age_hours : Z := 72.

(** [path] is an entry of [root.glob("*")]: [root / name] for a name that
    is a single, non-empty component. *)
Definition is_child (root path : string) : bool :=
  String.eqb path (Py.path_join root (Py.path_name path))
  && negb (String.eqb (Py.path_name path) "").

(** The regular files that [root.glob("*")] yields; every entry of
    [files] is a regular file, and [root.mkdir] adds none. *)
Definition glob_files (root : string) (fs : gmap string File) : list string :=
  filter (fun p => is_child root p = true) (fst <$> map_to_list fs).

(** The body of the inner loop: [mtime p] is the modification instant of
    [p]; an old file is unlinked and counted. *)
Definition sweep_step (cutoff : Z) (mtime : string -> Z)
    (acc : Z * gmap string File) (path : string) : Z * gmap string File :=
  if Z.ltb (mtime path) cutoff then (fst acc + 1, delete path (snd acc)) else acc.

Definition sweep_dir (cutoff : Z) (mtime : string -> Z)
    (acc : Z * gmap string File) (root : string) : Z * gmap string File :=
  fold_left (sweep_step cutoff mtime) (glob_files root (snd acc)) acc.

(** Returns [cleaned_files] and the cutoff. *)
Definition cleanup_old_media (cfg : Settings) (max_age_hours now : Z)
    (mtime : string -> Z) : M (Z * Z) :=
  fun w =>
    let cutoff := now - max_age_hours * hour in
    let swept :=
      fold_left (sweep_dir cutoff mtime)
        [media_input_dir cfg; media_output_dir cfg; media_thumb_dir cfg]
        (0, files w) in
    (Return (fst swept, cutoff), set_files (snd swept) w).

(** [select status, count(id) ... where created_at >= yesterday group by
    status], then the dict of the rows; [created_at id] is the creation
    instant of the row [id].  Returns [window_start] and [counts]. *)
Definition count_row (yesterday : Z) (created_at : string -> Z)
    (counts : gmap string Z) (entry : string * MediaTask) : gmap string Z :=
  if Z.leb yesterday (created_at (fst entry))
  then <[Models.status (snd entry) := default 0 (counts !! Models.status (snd entry)) + 1]> counts
  else counts.

Definition generate_daily_report (now : Z) (created_at : string -> Z)
    : M (Z * gmap string Z) :=
  fun w =>
    let yesterday := now - 24 * hour in
    (Return (yesterday, fold_left (count_row yesterday created_at) (map_to_list (db w)) ∅), w).

End Maintenance.

(* ===================================================================== *)
(** ** config.py: cors_origins_list *)
(* ===================================================================== *)

Module Cors.

(** The ASCII characters for which [str.isspace] holds.  Python knows
    further white space beyond ASCII; what is proved about this module is
    stated for ASCII text. *)
Definition is_space (c : ascii) : bool :=
  let n := nat_of_ascii c in
  (Nat.leb 9 n && Nat.leb n 13) || (Nat.leb 28 n && Nat.leb n 32).

Fixpoint lstrip (s : string) : string :=
  match s with
  | EmptyString => EmptyString
  | String c rest => if is_space c then lstrip rest else s
  end.

Fixpoint rstrip (s : string) : string :=
  match s with
  | EmptyString => EmptyString
  | String c rest =>
      match rstrip rest with
      | EmptyString => if is_space c then EmptyString else String c EmptyString
      | kept => String c kept
      end
  end.

(** [s.strip()] *)
Definition strip (s : string) : string := rstrip (lstrip s).

(** The default of [Settings.cors_origins]. *)
Definition cors_origins : string := "http://localhost:5173".

(** [[item.strip() for item in cors_origins.split(",") if item.strip()]] *)
Definition cors_origins_list (cors_origins : string) : list string :=
  map strip (filter (fun item => strip item <> EmptyString) (Py.split "," cors_origins)).

End Cors.

(* ===================================================================== *)
(** ** Notions used to state the properties *)
(* ===================================================================== *)

Module Props.
Import Runtime Models Tasks.

(** The rows committed to the table, oldest first. *)
Definition commits (tr : list Event) : list (string * MediaTask) :=
  omap (fun e => match e with EvCommit id row => Some (id, row) | _ => None end) tr.

(** The progress values committed for one task. *)
Definition progress_commits (id : string) (tr : list Event) : list Z :=
  map (fun c => Models.progress (snd c))
      (filter (fun c => fst c = id) (commits tr)).

(** The task bodies started by the worker, with [request.retries]. *)
Definition invocations (tr : list Event) : list (string * nat) :=
  omap (fun e => match e with EvInvoke n r => Some (n, r) | _ => None end) tr.

(** The retries scheduled, with the bound of their countdown. *)
Definition retries_scheduled (tr : list Event) : list (nat * Z) :=
  omap (fun e => match e with EvRetry _ r c => Some (r, c) | _ => None end) tr.

(** Text made of ASCII characters only. *)
Fixpoint ascii_text (s : string) : bool :=
  match s with
  | EmptyString => true
  | String c rest => Nat.ltb (nat_of_ascii c) 128 && ascii_text rest
  end.

(** The canonical text of a UUID, the form of [str(row.id)]: lower-case
    hexadecimal digits in groups of 8, 4, 4, 4 and 12, with "-" between
    the groups.  [UUID(text)] parses such text, and [str] of the result is
    the text. *)
Definition hex_digit (c : ascii) : bool :=
  let n := nat_of_ascii c in
  (Nat.leb 48 n && Nat.leb n 57) || (Nat.leb 97 n && Nat.leb n 102).

Fixpoint hex_run (n : nat) (s : string) : option string :=
  match n with
  | O => Some s
  | S n' =>
      match s with
      | String c rest => if hex_digit c then hex_run n' rest else None
      | EmptyString => None
      end
  end.

Fixpoint hex_groups (groups : list nat) (s : string) : bool :=
  match groups with
  | [] => false
  | g :: later =>
      match hex_run g s, later with
      | Some EmptyString, [] => true
      | Some (String c rest), _ :: _ => Ascii.eqb c "-" && hex_groups later rest
      | _, _ => false
      end
  end.

Definition canonical_uuid (s : string) : bool := hex_groups [8; 4; 4; 4; 12]%nat s.

(** What [update_media_row] stores for a row that exists. *)
Definition updated_row (row : MediaTask)
    (status : option string) (progress : option Z) (outputs : option Outputs)
    (error_message thumbnail_path : option string) : MediaTask :=
  {| user_id := Models.user_id row;
     original_filename := Models.original_filename row;
     status := default (Models.status row) status;
     progress := default (Models.progress row) progress;
     celery_task_id := Models.celery_task_id row;
     source_path := Models.source_path row;
     thumbnail_path :=
       match thumbnail_path with Some t => Some t | None => Models.thumbnail_path row end;
     outputs := default (Models.outputs row) outputs;
     error_message :=
       match error_message with Some m => Some m | None => Models.error_message row end |}.

(** The task body raises [TransientProcessingError] on [n] deliveries in
    a row, the first with [request.retries = r] in world [w]; [w'] is the
    world in which the next delivery starts. *)
Inductive transient_failures {R} (t : Task R) (ctx : Ctx) :
    nat -> nat -> World -> World -> Prop :=
| tf_none r w : transient_failures t ctx r 0 w w
| tf_again r n w msg w1 w' :
    task_run t ctx (log (EvInvoke (task_name t) r) w)
      = (Raise {| exc_class := TransientProcessingError; exc_str := msg |}, w1) ->
    transient_failures t ctx (S r) n
      (log (EvRetry (task_name t) r (backoff_countdown r)) w1) w' ->
    transient_failures t ctx r (S n) w w'.

(** The same by computation: whether the next [n] deliveries all raise
    [TransientProcessingError], and the world they lead to. *)
Fixpoint all_transient {R} (t : Task R) (ctx : Ctx) (r n : nat) (w : World) : bool :=
  match n with
  | O => true
  | S k =>
      match task_run t ctx (log (EvInvoke (task_name t) r) w) with
      | (Raise e, w1) =>
          autoretry_for (exc_class e)
          && all_transient t ctx (S r) k
               (log (EvRetry (task_name t) r (backoff_countdown r)) w1)
      | (Return _, _) => false
      end
  end.

Fixpoint after_failures {R} (t : Task R) (ctx : Ctx) (r n : nat) (w : World) : World :=
  match n with
  | O => w
  | S k =>
      after_failures t ctx (S r) k
        (log (EvRetry (task_name t) r (backoff_countdown r))
           (snd (task_run t ctx (log (EvInvoke (task_name t) r) w))))
  end.

(** Rounding of [n / d] to the nearest integer, ties to even, as Python's
    [round] does ([d > 0]). *)
Definition round_div (n d : Z) : Z :=
  let q := n / d in
  let r := n mod d in
  if Z.ltb (2 * r) d then q
  else if Z.ltb d (2 * r) then q + 1
  else if Z.even q then q else q + 1.

(** The height the specification gives for a variant:
    [max(1, round(width * src_height / src_width))]. *)
Definition spec_out_height (src_width src_height width : Z) : Z :=
  Z.max 1 (round_div (width * src_height) src_width).

(** Where [convert_resolutions] writes the variant [label] of [source]. *)
Definition variant_path (cfg : Config.Settings) (source label : string) : string :=
  Py.path_join (Config.media_output_dir cfg)
    (Py.path_stem source ++ "_" ++ label ++ Py.path_suffix source).

(** The double-precision product [img.height * (width / float(img.width))]
    truncated toward zero, when it is a finite number. *)
Definition truncated_product (src_width src_height width : Z) : option Z :=
  Py.int_of_float
    (PrimFloat.mul (Py.float_of_int src_height)
       (PrimFloat.div (Py.float_of_int width) (Py.float_of_int src_width))).

(** An iteration of the status loop after which the loop goes on: the row
    is there, the socket takes the snapshot, the status is not terminal. *)
Definition live (task_id : string) (t : Main.Tick) : bool :=
  match Main.tick_db t !! task_id with
  | Some row => Main.tick_connected t && negb (Main.is_terminal (Models.status row))
  | None => false
  end.

(** What the loop does over iterations that are all [live]. *)
Definition polled (task_id : string) (ts : list Main.Tick) : list Main.Action :=
  flat_map
    (fun t =>
       match Main.tick_db t !! task_id with
       | Some row => [Main.Send (Main.Snapshot (Main.payload_of task_id row t)); Main.Sleep 1]
       | None => []
       end) ts.

(** The extension of [path] is in neither list of [_file_kind]. *)
Definition unsupported (path : string) : bool :=
  negb (existsb (String.eqb (Py.lower (Py.path_suffix path)))
          (image_extensions ++ video_extensions)).

(** [str(exc)] of the [ValueError] validate raises for an existing file. *)
Definition validation_reason (path : string) : string :=
  if unsupported path
  then "Unsupported media format: " ++ Py.lower (Py.path_suffix path)
  else "Uploaded file is empty".

(** A storage call that returns or fails with an error of the classes
    that [upload_file_to_storage] handles. *)
Definition benign (r : S3Result) : bool :=
  match r with
  | Stored => true
  | S3Raises e => Storage.storage_error (exc_class e)
  end.

(** A storage call that fails with such an error. *)
Definition outage (r : S3Result) : bool :=
  match r with
  | Stored => false
  | S3Raises e => Storage.storage_error (exc_class e)
  end.

(** The URL one storage call returns, given the outcomes still scripted:
    the public URL when S3 is enabled and the call goes through, the local
    path when the call fails or S3 is disabled. *)
Definition storage_url (cfg : Config.Settings) (path object_key : string)
    (script : list S3Result) : string :=
  if Config.s3_enabled cfg && negb (outage (hd Stored script))
  then Storage.public_url cfg object_key else path.

(** The outcomes left after one storage call. *)
Definition script_after (cfg : Config.Settings) (script : list S3Result) : list S3Result :=
  if Config.s3_enabled cfg then tail script else script.

(** The entries publish builds for the watermarked items. *)
Fixpoint published_items (cfg : Config.Settings) (id : string) (items : list Item)
    (script : list S3Result) : list Uploaded :=
  match items with
  | [] => []
  | it :: rest =>
      {| u_label := i_label it;
         u_url := storage_url cfg (i_path it) (id ++ "/" ++ Py.path_name (i_path it)) script;
         u_path := i_path it |}
      :: published_items cfg id rest (script_after cfg script)
  end.

(** [w'] has the table of [w] and no further commit. *)
Definition quiet (w w' : World) : Prop :=
  db w' = db w /\ commits (trace w') = commits (trace w).

(** A computation that never writes to the table. *)
Definition frame {A} (m : M A) : Prop := forall w, quiet w (snd (m w)).

(** What a stage with checkpoint [p] may do from a world [w0]: return a
    value that satisfies [Q] after a single write
    [update_media_row(id, status=st, progress=p, ...)] to the row of its
    own task, or raise without having written. *)
Definition stage_post {R} (p : Z) (st : option string) (ctx : Ctx) (Q : R -> Prop)
    (w0 : World) (res : Result R * World) : Prop :=
  match res with
  | (Return r, w') =>
      Q r
      /\ exists id out th w1,
           ctx_media_task_id ctx = Some id /\ quiet w0 w1
           /\ w' = snd (update_media_row id st (Some p) out None th w1)
  | (Raise _, w') => quiet w0 w'
  end.

(** A computation that behaves so from every world as quiet as [w0]. *)
Definition stage_from {R} (p : Z) (st : option string) (ctx : Ctx) (Q : R -> Prop)
    (w0 : World) (m : M R) : Prop :=
  forall w, quiet w0 w -> stage_post p st ctx Q w0 (m w).

(** A task of the chain with checkpoint [p]. *)
Definition checkpoint (p : Z) (st : option string) (t : Task Ctx) : Prop :=
  forall ctx w,
    stage_from p st ctx (fun c => ctx_media_task_id c = ctx_media_task_id ctx) w
      (task_run t ctx).

End Props.

(* ===================================================================== *)
(** ** Concrete worlds *)
(* ===================================================================== *)

Module Examples.
Import Runtime Config Models Storage Tasks Main.

Definition source : string := "/tmp/media/input/t1_cat.png".
Definition clip : string := "/tmp/media/input/t2_talk.mp4".

Definition row (user st : string) (pr : Z) (err : option string) : MediaTask :=
  {| user_id := user; original_filename := "cat.png"; status := st; progress := pr;
     celery_task_id := Some "job-1"; source_path := source; thumbnail_path := None;
     outputs := EmptyOutputs; error_message := err |}.

Definition world (d : gmap string MediaTask) (f : gmap string File)
    (rc : list Z) (s3 : list S3Result) : World :=
  {| db := d; files := f; ffmpeg_rc := rc; s3_script := s3; queue := []; trace := [] |}.

(** One queued task with a decodable 1000x500 image. *)
Definition w_image : World :=
  world {[ "t1" := row "alice" "queued" 0 None ]}
        {[ source := Upload 2048 (Some (1000, 500)) ]} [] [].

(** One queued task with a video. *)
Definition w_video (rc : list Z) : World :=
  world {[ "t2" := row "alice" "queued" 0 None ]}
        {[ clip := Upload 4096 None ]} rc [].

(** A finished task. *)
Definition w_completed : World :=
  world {[ "t1" := row "alice" "completed" 100 None ]} ∅ [] [].

(** A task that a duplicate delivery of a stage has marked failed. *)
Definition w_failed : World :=
  world {[ "t1" := row "alice" "failed" 25 (Some "Failed to convert 1080p") ]} ∅ [] [].

(** [alice] holds three active tasks, [bob] one finished task. *)
Definition w_busy : World :=
  world {[ "a1" := row "alice" "queued" 0 None;
           "a2" := row "alice" "processing" 25 None;
           "a3" := row "alice" "processing" 75 None;
           "b1" := row "bob" "completed" 100 None ]} ∅ [] [].

Definition photo : UploadFile :=
  {| filename := Some "holiday/cat.png"; content_length := 2048;
     content_pixels := Some (1000, 500) |}.

(** The context that reaches [finalize_success]. *)
Definition ctx_published : Ctx :=
  {| ctx_media_task_id := Some "t1"; ctx_input_path := Some source;
     ctx_kind := Some "image"; ctx_size_bytes := Some 2048;
     ctx_thumbnail_path := Some "/tmp/media/thumb/t1_cat_thumb.jpg";
     ctx_converted := Some []; ctx_watermarked := Some [];
     ctx_uploaded :=
       Some [ {| u_label := "1080p"; u_url := "http://localhost:9000/media/t1/t1_cat_1080p_wm.png";
                 u_path := "/tmp/media/output/t1_cat_1080p_wm.png" |} ];
     ctx_thumbnail_url := Some "http://localhost:9000/media/t1/t1_cat_thumb.jpg" |}.

(** The context after validate, for an image. *)
Definition ctx_image (id input : string) : Ctx :=
  set_kind_size "image" 2048 (initial_ctx id input).

(** A task whose source is 1000x501. *)
Definition w_odd : World :=
  world {[ "t1" := row "alice" "processing" 25 None ]}
        {[ source := Upload 2048 (Some (1000, 501)) ]} [] [].

(** Observations of the status loop. *)
Definition backend (cid : string) : string * option string := ("PENDING", None).
Definition tick (d : gmap string MediaTask) (connected : bool) : Tick :=
  {| tick_db := d; tick_backend := backend; tick_connected := connected |}.
Definition tick_queued : Tick := tick (db w_image) true.
Definition tick_completed : Tick := tick (db w_completed) true.
Definition tick_gone : Tick := tick (db w_image) false.

(** The context that reaches publish, and a storage that is down. *)
Definition ctx_watermarked : Ctx :=
  set_watermarked
    [ {| i_label := "1080p"; i_path := "/tmp/media/output/t1_cat_1080p_wm.png" |};
      {| i_label := "720p"; i_path := "/tmp/media/output/t1_cat_720p_wm.png" |};
      {| i_label := "480p"; i_path := "/tmp/media/output/t1_cat_480p_wm.png" |} ]
    (set_thumbnail_path "/tmp/media/thumb/t1_cat_thumb.jpg" (ctx_image "t1" source)).



(** An empty upload with an image extension. *)
Definition blank : string := "/tmp/media/input/t1_blank.png".
Definition w_blank : World :=
  world {[ "t1" := row "alice" "queued" 0 None ]} {[ blank := Upload 0 None ]} [] [].

(** The context after validate, for the video, and the stages that follow
    the thumbnail. *)
Definition ctx_video : Ctx := set_kind_size "video" 4096 (initial_ctx "t2" clip).
Definition after_thumbnail : list (Task Ctx) :=
  [convert_resolutions_task settings; apply_watermark_task settings;
   upload_outputs_task settings].

(** A text file uploaded by mistake, and a photo with an upper-case
    extension. *)
Definition notes : string := "/tmp/media/input/t1_notes.txt".
Definition w_notes : World :=
  world {[ "t1" := row "alice" "queued" 0 None ]} {[ notes := Upload 120 None ]} [] [].
Definition shout : string := "/tmp/media/input/t1_CAT.PNG".
Definition w_shout : World :=
  world {[ "t1" := row "alice" "queued" 0 None ]}
        {[ shout := Upload 2048 (Some (640, 480)) ]} [] [].

(** A storage client that fails with an exception of another class. *)
Definition w_broken_client : World :=
  world {[ "t1" := row "alice" "processing" 75 None ]} ∅ []
        [S3Raises {| exc_class := RuntimeError; exc_str := "boom" |}].

(** At-least-once delivery: the chain of the video task is in the broker
    twice, and the first six thumbnail extractions fail. *)
Definition w_duplicate : World :=
  {| db := {[ "t2" := row "alice" "queued" 0 None ]};
     files := {[ clip := Upload 4096 None ]};
     ffmpeg_rc := [1; 1; 1; 1; 1; 1];
     s3_script := [];
     queue := [("job-1", initial_ctx "t2" clip); ("job-1", initial_ctx "t2" clip)];
     trace := [] |}.

(** The text of a UUID that names no row of the worlds above. *)
Definition stray_id : string := "7c9e6679-7425-40de-944b-e07fc1f90ae7".


End Examples.

(* ===================================================================== *)
(** ** Further notions and worlds *)
(* ===================================================================== *)

Module Laws.
Import Runtime Models Tasks.

(** The checkpoints of the five stages before finalize. *)
Definition checkpoints : list Z := [10; 25; 55; 75; 90].

(** The task id [on_failure] reads from its arguments. *)
Definition failure_task_id (args : list Ctx) : option string :=
  match args with
  | c :: _ => ctx_media_task_id c
  | [] => None
  end.

(** The row [on_failure] stores. *)
Definition failed_row (row : MediaTask) (e : Exc) : MediaTask :=
  Props.updated_row row (Some "failed") None None (Some (exc_str e)) None.

(** The columns no task ever writes. *)
Definition same_identity (row row' : MediaTask) : Prop :=
  Models.user_id row' = Models.user_id row
  /\ Models.original_filename row' = Models.original_filename row
  /\ Models.celery_task_id row' = Models.celery_task_id row
  /\ Models.source_path row' = Models.source_path row.

(** The quota slot a row takes from [user]: 1 when it is the user's and
    queued or processing. *)
Definition slot (user : string) (row : MediaTask) : Z :=
  if Main.is_active user row then 1 else 0.

(** The kind [_file_kind] gives to a path, when it gives one. *)
Definition kind_of (path : string) : option string :=
  let ext := Py.lower (Py.path_suffix path) in
  if existsb (String.eqb ext) image_extensions then Some "image"
  else if existsb (String.eqb ext) video_extensions then Some "video"
  else None.

(** The collaborators are up: every ffmpeg call returns 0 and every
    storage call returns or fails with a storage error. *)
Definition ready (w : World) : Prop :=
  ffmpeg_rc w = [] /\ Forall (fun r => Props.benign r = true) (s3_script w).

(** A path that the sweep removes: a direct child of one of the three
    media directories, last modified before the cutoff. *)
Definition stale (cfg : Config.Settings) (cutoff : Z) (mtime : string -> Z)
    (path : string) : bool :=
  (Maintenance.is_child (Config.media_input_dir cfg) path
   || Maintenance.is_child (Config.media_output_dir cfg) path
   || Maintenance.is_child (Config.media_thumb_dir cfg) path)
  && Z.ltb (mtime path) cutoff.

(** The rows created at or after [since] whose status is [st]. *)
Definition recent_with_status (since : Z) (created_at : string -> Z) (st : string)
    (d : gmap string MediaTask) : gmap string MediaTask :=
  filter (fun kv => since <= created_at (fst kv) /\ Models.status (snd kv) = st) d.

(** [",".join(items)] *)
Fixpoint join_commas (items : list string) : string :=
  match items with
  | [] => EmptyString
  | item :: rest =>
      match rest with
      | [] => item
      | _ :: _ => item ++ "," ++ join_commas rest
      end
  end.

(** An origin in normal form: not empty, without surrounding white space
    and without a comma. *)
Definition clean_origin (item : string) : Prop :=
  item <> EmptyString /\ Cors.strip item = item /\ Py.rfind "," item = None.

End Laws.

Module Scenarios.
Import Runtime Config Models Storage Tasks Main.

(** A queued task under the id the database gave it, with its decodable
    1000x500 source. *)
Definition task_uuid : string := "3f2b8c1e-5a4d-4e6f-9b7a-0c1d2e3f4a5b".
Definition w_uuid : World :=
  Examples.world {[ task_uuid := Examples.row "alice" "queued" 0 None ]}
    {[ Examples.source := Upload 2048 (Some (1000, 500)) ]} [] [].

(** A context that lost its [kind] key. *)
Definition ctx_no_kind : Ctx := initial_ctx "t1" Examples.source.

(** A context without a task id. *)
Definition ctx_anonymous : Ctx :=
  {| ctx_media_task_id := None; ctx_input_path := Some Examples.source;
     ctx_kind := None; ctx_size_bytes := None; ctx_thumbnail_path := None;
     ctx_converted := None; ctx_watermarked := None; ctx_uploaded := None;
     ctx_thumbnail_url := None |}.

(** A text file that was given the extension of an image. *)
Definition fake : string := "/tmp/media/input/t1_fake.png".
Definition w_fake : World :=
  Examples.world {[ "t1" := Examples.row "alice" "queued" 0 None ]}
    {[ fake := Upload 120 None ]} [] [].

(** An upload whose client-side name tries to climb out of the input
    directory. *)
Definition sneaky : UploadFile :=
  {| filename := Some "../../etc/cron.d/job.png"; content_length := 64;
     content_pixels := None |}.

(** A deployment without object storage ([S3_ENABLED=false]). *)
Definition local_settings : Settings :=
  {| media_root := "/tmp/media"; max_active_tasks_per_user := 3; s3_enabled := false;
     s3_bucket := "media"; s3_public_base_url := "http://localhost:9000" |}.

(** A storage client that fails with an error that is not a storage
    error. *)
Definition bad_credentials : Exc :=
  {| exc_class := RuntimeError; exc_str := "Unable to locate credentials" |}.
Definition w_misconfigured : World :=
  Examples.world {[ "t1" := Examples.row "alice" "processing" 75 None ]}
    {[ Examples.source := Upload 2048 (Some (1000, 500)) ]} []
    [S3Raises bad_credentials].

(** A converted image on disk, and the task that owns it. *)
Definition converted_item : Item :=
  {| i_label := "720p"; i_path := "/tmp/media/output/t1_cat_720p.png" |}.
Definition w_converted : World :=
  Examples.world {[ "t1" := Examples.row "alice" "processing" 55 None ]}
    {[ Examples.source := Upload 2048 (Some (1000, 500));
       "/tmp/media/output/t1_cat_720p.png" := Picture 1440 720 ]} [] [].

(** The origins of a deployment with two front ends, as they are written
    in the environment. *)
Definition two_origins : list string :=
  ["http://localhost:5173"; "https://app.example.com"].
Definition padded_origins : string :=
  " http://localhost:5173 ,, https://app.example.com,".

End Scenarios.

Open Scope list_scope.

(* ===================================================================== *)
(** ** The task state store *)
(* ===================================================================== *)

Section Store.
Import Runtime Models Tasks Props.

(** The effect of [update_media_row] on a row that exists. *)
Lemma update_media_row_present id row st pr out err th w :
  db w !! id = Some row ->
  update_media_row id st pr out err th w
  = (Return tt,
     log (EvCommit id (updated_row row st pr out err th))
         (set_db (<[id := updated_row row st pr out err th]> (db w)) w)).
Proof.
  intros Hrow. unfold update_media_row. rewrite Hrow.
  destruct st, pr, out, err, th; reflexivity.
Qed.

Lemma update_media_row_lookup id row st pr out err th w :
  db w !! id = Some row ->
  db (snd (update_media_row id st pr out err th w)) !! id
  = Some (updated_row row st pr out err th).
Proof.
  intros Hrow. rewrite (update_media_row_present _ _ _ _ _ _ _ _ Hrow).
  simpl. apply lookup_insert_eq.
Qed.

(** C10: an update for the id of a task that has no row returns normally
    and changes nothing: the table, the files and every other part of the
    world are the same afterwards.  The id is the canonical text of a
    UUID, as every id the stages are handed is. *)
Theorem update_media_row_missing_row id st pr out err th w :
  canonical_uuid id = true ->
  db w !! id = None ->
  update_media_row id st pr out err th w = (Return tt, w).
Proof.
  intros _ Hnone. unfold update_media_row. now rewrite Hnone.
Qed.

Lemma update_media_row_missing_row_witness :
  update_media_row Examples.stray_id (Some "failed") (Some 10) None (Some "late") None
    Examples.w_completed
  = (Return tt, Examples.w_completed).
Proof.
  apply (update_media_row_missing_row Examples.stray_id); reflexivity.
Defined.

(** C1, as the specification states it, fails: a completed row at 100
    is put back to processing at 10 by a late write of the first stage. *)
Lemma terminal_row_is_overwritten :
  db Examples.w_completed !! "t1" = Some (Examples.row "alice" "completed" 100 None)
  /\ Main.is_terminal (status (Examples.row "alice" "completed" 100 None)) = true
  /\ db (snd (update_media_row "t1" (Some "processing") (Some 10) None None None
                Examples.w_completed)) !! "t1"
     = Some (Examples.row "alice" "processing" 10 None)
  /\ Examples.row "alice" "processing" 10 None
     <> Examples.row "alice" "completed" 100 None.
Proof.
  repeat split; try reflexivity. discriminate.
Qed.

(** C1, amended: on a row whose status is completed or failed,
    [update_media_row] still stores every field that is passed: the new
    status, progress, outputs, error message and thumbnail path replace
    the stored ones, a field passed as [None] keeps its value, and
    [user_id], [original_filename], [celery_task_id] and [source_path]
    keep theirs.  The row is left as it was exactly when every value that
    is passed equals the one already stored, which includes the call
    without any argument. *)
Theorem update_media_row_terminal id row st pr out err th w :
  db w !! id = Some row ->
  Main.is_terminal (status row) = true ->
  exists row',
    db (snd (update_media_row id st pr out err th w)) !! id = Some row'
    /\ status row' = default (status row) st
    /\ progress row' = default (progress row) pr
    /\ outputs row' = default (outputs row) out
    /\ error_message row' = (if err is Some m then Some m else error_message row)
    /\ thumbnail_path row' = (if th is Some t then Some t else thumbnail_path row)
    /\ user_id row' = user_id row
    /\ original_filename row' = original_filename row
    /\ celery_task_id row' = celery_task_id row
    /\ source_path row' = source_path row
    /\ (row' = row
        <-> (forall s, st = Some s -> s = status row)
            /\ (forall p, pr = Some p -> p = progress row)
            /\ (forall o, out = Some o -> o = outputs row)
            /\ (forall m, err = Some m -> error_message row = Some m)
            /\ (forall t, th = Some t -> thumbnail_path row = Some t)).
Proof.
  intros Hrow _. exists (updated_row row st pr out err th).
  split; [now apply update_media_row_lookup|].
  do 9 (split; [reflexivity|]).
  split.
  - intros Heq. split; [|split; [|split; [|split]]].
    + intros s ->. now apply (f_equal status) in Heq.
    + intros p ->. now apply (f_equal progress) in Heq.
    + intros o ->. now apply (f_equal outputs) in Heq.
    + intros m ->. now apply (f_equal error_message) in Heq.
    + intros t ->. now apply (f_equal thumbnail_path) in Heq.
  - intros (Hs & Hp & Ho & He & Ht). destruct row. unfold updated_row. cbn in *.
    f_equal.
    + destruct st as [s|]; [now rewrite (Hs s eq_refl)|reflexivity].
    + destruct pr as [p|]; [now rewrite (Hp p eq_refl)|reflexivity].
    + destruct th as [t|]; [now rewrite (Ht t eq_refl)|reflexivity].
    + destruct out as [o|]; [now rewrite (Ho o eq_refl)|reflexivity].
    + destruct err as [m|]; [now rewrite (He m eq_refl)|reflexivity].
Qed.

Lemma update_media_row_terminal_witness :
  exists row',
    db (snd (update_media_row "t1" (Some "processing") (Some 10) None None None
               Examples.w_completed)) !! "t1" = Some row'
    /\ status row' = "processing"
    /\ progress row' = 10
    /\ outputs row' = EmptyOutputs
    /\ error_message row' = None
    /\ thumbnail_path row' = None
    /\ user_id row' = "alice"
    /\ original_filename row' = "cat.png"
    /\ celery_task_id row' = Some "job-1"
    /\ source_path row' = Examples.source
    /\ (row' = Examples.row "alice" "completed" 100 None
        <-> (forall s, Some "processing" = Some s -> s = "completed")
            /\ (forall p, Some 10 = Some p -> p = 100)
            /\ (forall o, @None Outputs = Some o -> o = EmptyOutputs)
            /\ (forall m, @None string = Some m -> @None string = Some m)
            /\ (forall t, @None string = Some t -> @None string = Some t)).
Proof.
  apply (update_media_row_terminal "t1" (Examples.row "alice" "completed" 100 None)
           (Some "processing") (Some 10) None None None Examples.w_completed);
    reflexivity.
Defined.

End Store.

(* ===================================================================== *)
(** ** The final stage *)
(* ===================================================================== *)

Section Finalize.
Import Runtime Config Models Tasks Props.

(** What [finalize_success] returns and stores when the context carries
    the results of publish and the row exists. *)
Lemma finalize_success_row cfg ctx w id row thumb ups :
  ctx_thumbnail_url ctx = Some thumb ->
  ctx_uploaded ctx = Some ups ->
  ctx_media_task_id ctx = Some id ->
  db w !! id = Some row ->
  let out := MkOutputs thumb (map (fun x => {| v_label := u_label x; v_url := u_url x |}) ups) in
  let row' := updated_row row (Some "completed") (Some 100) (Some out) None None in
  finalize_success cfg ctx w
  = (Return out, log (EvCommit id row') (set_db (<[id := row']> (db w)) w)).
Proof.
  intros Hthumb Hups Hid Hrow out row'.
  unfold finalize_success, bind, getitem. rewrite Hthumb, Hups, Hid. cbn [ret].
  now rewrite (update_media_row_present _ _ _ _ _ _ _ _ Hrow).
Qed.

(** C7 at the failing input: finalize runs for a row that carries the
    error message of an earlier failure.  Status, progress and outputs
    are stored as the specification says, but the message is still
    there: [error_message=None] is read by [update_media_row] as "not
    passed". *)
Theorem finalize_success_keeps_error_message :
  exists out w',
    finalize_success settings Examples.ctx_published Examples.w_failed = (Return out, w')
    /\ (status <$> db w' !! "t1") = Some "completed"
    /\ (progress <$> db w' !! "t1") = Some 100
    /\ (outputs <$> db w' !! "t1") = Some out
    /\ (error_message <$> db w' !! "t1") = Some (Some "Failed to convert 1080p").
Proof.
  eexists _, _. split.
  - eapply (finalize_success_row settings Examples.ctx_published Examples.w_failed "t1");
      reflexivity.
  - cbn [db log set_db]. rewrite lookup_insert_eq. repeat split.
Qed.

End Finalize.

(* ===================================================================== *)
(** ** Admission *)
(* ===================================================================== *)

Section Admission.
Import Runtime Config Models Tasks Main Props.

(** C4: at or above the quota [upload_media] raises HTTP 429 and leaves
    the world as it was (no row, no file, no job); below it, for a fresh
    primary key, it stores exactly one new row, queued at progress 0 and
    carrying the job handle, sends one chain to the broker and returns
    the task id with the job handle.  The default quota is 3. *)
Theorem upload_media_quota cfg file user new_id async_id w :
  max_active_tasks_per_user settings = 3
  /\ (max_active_tasks_per_user cfg <= active_count user (db w) ->
      upload_media cfg file user new_id async_id w
      = (Raise {| exc_class := HTTPException 429;
                  exc_str := ("Task quota exceeded. Max active tasks per user: "
                               ++ Py.str_of_int (max_active_tasks_per_user cfg))%string |}, w))
  /\ (active_count user (db w) < max_active_tasks_per_user cfg ->
      db w !! new_id = None ->
      exists row w',
        upload_media cfg file user new_id async_id w
        = (Return {| r_task_id := new_id; r_celery_id := async_id; r_status := "queued" |}, w')
        /\ db w' = <[new_id := row]> (db w)
        /\ size (db w') = S (size (db w))
        /\ user_id row = user
        /\ status row = "queued"
        /\ progress row = 0
        /\ celery_task_id row = Some async_id
        /\ queue w' = queue w ++ [(async_id, initial_ctx new_id (source_path row))]
        /\ files w'
           = <[source_path row := Upload (content_length file) (content_pixels file)]> (files w)
        /\ trace w' = trace w).
Proof.
  split; [reflexivity|]. split.
  - intros Hquota. unfold upload_media, bind, gets.
    apply Z.leb_le in Hquota. now rewrite Hquota.
  - intros Hbelow Hfresh. unfold upload_media, bind, gets.
    apply Z.leb_gt in Hbelow. rewrite Hbelow.
    rewrite bool_decide_eq_false_2 by (rewrite Hfresh; apply is_Some_None).
    eexists _, _. split; [reflexivity|]. cbn.
    repeat split. now apply map_size_insert_None.
Qed.

Lemma upload_media_quota_witness :
  max_active_tasks_per_user settings = 3
  /\ upload_media settings Examples.photo "alice" "a4" "job-4" Examples.w_busy
     = (Raise {| exc_class := HTTPException 429;
                 exc_str := "Task quota exceeded. Max active tasks per user: 3" |},
        Examples.w_busy)
  /\ exists row w',
       upload_media settings Examples.photo "bob" "b2" "job-5" Examples.w_busy
       = (Return {| r_task_id := "b2"; r_celery_id := "job-5"; r_status := "queued" |}, w')
       /\ db w' = <["b2" := row]> (db Examples.w_busy)
       /\ size (db w') = S (size (db Examples.w_busy))
       /\ user_id row = "bob"
       /\ status row = "queued"
       /\ progress row = 0
       /\ celery_task_id row = Some "job-5"
       /\ queue w' = (queue Examples.w_busy
                        ++ [("job-5", initial_ctx "b2" (source_path row))])%list
       /\ files w' = <[source_path row := Upload 2048 (Some (1000, 500))]>
                       (files Examples.w_busy)
       /\ trace w' = trace Examples.w_busy.
Proof.
  pose proof (upload_media_quota settings Examples.photo "alice" "a4" "job-4" Examples.w_busy)
    as (Hdefault & Hfull & _).
  pose proof (upload_media_quota settings Examples.photo "bob" "b2" "job-5" Examples.w_busy)
    as (_ & _ & Hfree).
  split; [exact Hdefault|]. split.
  - apply Hfull. vm_compute. discriminate.
  - apply Hfree; [vm_compute; reflexivity | reflexivity].
Defined.

End Admission.

(* ===================================================================== *)
(** ** The status stream *)
(* ===================================================================== *)

Section StatusStream.
Import Runtime Models Main Props.

Lemma task_updates_live task_id t rest :
  live task_id t = true ->
  task_updates task_id (t :: rest)
  = (polled task_id [t] ++ fst (task_updates task_id rest),
     snd (task_updates task_id rest)).
Proof.
  unfold live, polled. cbn [task_updates flat_map].
  destruct (tick_db t !! task_id) as [row|]; [|discriminate].
  intros [Hconn Hterm%negb_true_iff]%andb_true_iff.
  rewrite Hconn, Hterm. now destruct (task_updates task_id rest).
Qed.

Lemma polled_cons task_id t ts :
  polled task_id (t :: ts) = polled task_id [t] ++ polled task_id ts.
Proof.
  unfold polled. cbn [flat_map]. now rewrite app_nil_r.
Qed.

Lemma task_updates_prefix task_id pre rest :
  Forall (fun t => live task_id t = true) pre ->
  task_updates task_id (pre ++ rest)
  = (polled task_id pre ++ fst (task_updates task_id rest),
     snd (task_updates task_id rest)).
Proof.
  induction 1 as [|t pre Hlive _ IH].
  - cbn [app polled flat_map]. now destruct (task_updates task_id rest).
  - change ((t :: pre) ++ rest) with (t :: (pre ++ rest)).
    rewrite (task_updates_live _ _ _ Hlive), IH.
    rewrite (polled_cons task_id t pre).
    cbn [fst snd]. now rewrite <- app_assoc.
Qed.

(** C9: when the id has no row, the subscriber receives exactly the
    not-found message and the handler returns.  Otherwise each iteration
    sends one snapshot and sleeps one second, until the first iteration
    that reads a completed or failed status (its snapshot is the last
    message) or finds the socket closed (nothing more is sent); the later
    observations [rest] play no part. *)
Theorem task_updates_stream task_id :
  (forall t rest,
      tick_db t !! task_id = None -> tick_connected t = true ->
      task_updates task_id (t :: rest) = ([Send TaskNotFound], Finished))
  /\ (forall pre t rest row,
        Forall (fun t => live task_id t = true) pre ->
        tick_db t !! task_id = Some row -> tick_connected t = true ->
        is_terminal (status row) = true ->
        task_updates task_id (pre ++ t :: rest)
        = (polled task_id pre ++ [Send (Snapshot (payload_of task_id row t))], Finished))
  /\ (forall pre t rest,
        Forall (fun t => live task_id t = true) pre ->
        tick_connected t = false ->
        task_updates task_id (pre ++ t :: rest) = (polled task_id pre, Disconnected)).
Proof.
  split; [|split].
  - intros t rest Hnone Hconn. cbn [task_updates]. now rewrite Hnone, Hconn.
  - intros pre t rest row Hpre Hrow Hconn Hterm.
    rewrite (task_updates_prefix _ _ _ Hpre). cbn [task_updates].
    now rewrite Hrow, Hconn, Hterm.
  - intros pre t rest Hpre Hconn.
    rewrite (task_updates_prefix _ _ _ Hpre). cbn [task_updates].
    rewrite Hconn. destruct (tick_db t !! task_id); cbn [fst snd]; now rewrite app_nil_r.
Qed.

Lemma task_updates_stream_witness :
  task_updates "t9" [Examples.tick_queued; Examples.tick_completed]
  = ([Send TaskNotFound], Finished)
  /\ task_updates "t1"
       [Examples.tick_queued; Examples.tick_queued; Examples.tick_completed;
        Examples.tick_queued]
     = (polled "t1" [Examples.tick_queued; Examples.tick_queued]
          ++ [Send (Snapshot (payload_of "t1" (Examples.row "alice" "completed" 100 None)
                                Examples.tick_completed))],
        Finished)
  /\ task_updates "t1"
       [Examples.tick_queued; Examples.tick_gone; Examples.tick_completed]
     = (polled "t1" [Examples.tick_queued], Disconnected).
Proof.
  destruct (task_updates_stream "t9") as (Hmissing & _ & _).
  destruct (task_updates_stream "t1") as (_ & Hterminal & Hclosed).
  split; [|split].
  - apply Hmissing; reflexivity.
  - apply (Hterminal [Examples.tick_queued; Examples.tick_queued] Examples.tick_completed
             [Examples.tick_queued]); try reflexivity.
    repeat constructor.
  - apply (Hclosed [Examples.tick_queued] Examples.tick_gone [Examples.tick_completed]);
      try reflexivity.
    repeat constructor.
Defined.

End StatusStream.

(* ===================================================================== *)
(** ** Resolution variants *)
(* ===================================================================== *)

Section Convert.
Import Runtime Config Models Tasks Props.

Lemma string_app_assoc (a b c : string) :
  ((a ++ b) ++ c)%string = (a ++ (b ++ c))%string.
Proof.
  induction a as [|x a IH]; [reflexivity|].
  change (String x ((a ++ b) ++ c) = String x (a ++ (b ++ c)))%string. now f_equal.
Qed.

Lemma path_join_inj dir a b : Py.path_join dir a = Py.path_join dir b -> a = b.
Proof.
  unfold Py.path_join. intros H.
  apply (inj (String.app dir)) in H. now injection H.
Qed.

(** The variants of one source have different paths. *)
Lemma variant_path_inj cfg source l1 l2 :
  variant_path cfg source l1 = variant_path cfg source l2 ->
  (l1 ++ Py.path_suffix source)%string = (l2 ++ Py.path_suffix source)%string.
Proof.
  unfold variant_path. intros H%path_join_inj.
  apply (inj (String.app (Py.path_stem source))) in H. now injection H.
Qed.

(** A file of the input directory is not a variant. *)
Lemma input_not_variant cfg name source label :
  Py.path_join (media_input_dir cfg) name <> variant_path cfg source label.
Proof.
  unfold variant_path, media_input_dir, media_output_dir, Py.path_join.
  rewrite !string_app_assoc. intros H.
  apply (inj (String.app (media_root cfg))) in H. discriminate H.
Qed.

Lemma convert_one_image cfg ctx source label width w f sw sh h :
  ctx_kind ctx = Some "image" ->
  files w !! source = Some f ->
  file_pixels f = Some (sw, sh) ->
  scaled_height sw sh width = Return h ->
  convert_one cfg ctx source (label, width) w
  = (Return {| i_label := label; i_path := variant_path cfg source label |},
     set_files (<[variant_path cfg source label := Picture width h]> (files w)) w).
Proof.
  intros Hkind Hfile Hpx Hh.
  unfold convert_one, bind, getitem, image_open, lift. rewrite Hkind.
  cbn [ret fst snd String.eqb Ascii.eqb Bool.eqb]. rewrite Hfile, Hpx.
  cbn [fst snd]. now rewrite Hh.
Qed.

(** The height is the truncated double-precision product, at least 1. *)
Lemma scaled_height_truncates sw sh width h :
  scaled_height sw sh width = Return h ->
  exists n, truncated_product sw sh width = Some n /\ h = Z.max 1 n.
Proof.
  unfold scaled_height, py_float, truncated_product. intros H.
  repeat case_match; simplify_eq; eauto.
Qed.

(** C6, as the specification states it, fails: for a 1000x501 image the
    480p variant is 427 pixels high (427.854 truncated), where rounding to
    the nearest integer gives 428. *)
Lemma convert_height_not_rounded :
  files (snd (convert_resolutions settings (Examples.ctx_image "t1" Examples.source)
                Examples.w_odd))
    !! variant_path settings Examples.source "480p" = Some (Picture 854 427)
  /\ spec_out_height 1000 501 854 = 428.
Proof.
  split; vm_compute; reflexivity.
Qed.

(** C6, amended: for every image of the input directory that PIL opens
    with size [sw] x [sh], and each target width 1920, 1280 and 854 for
    which the arithmetic gives a height, [convert_resolutions] writes a
    variant of that width whose height is
    [max(1, int(sh * (width / float(sw))))]: the double-precision product
    truncated toward zero, not rounded.  A 1000x500 source gives 960 at
    width 1920 and 427 at width 854. *)
Theorem convert_resolutions_image_heights cfg ctx w name f sw sh h1080 h720 h480 :
  let input := Py.path_join (media_input_dir cfg) name in
  ctx_input_path ctx = Some input ->
  ctx_kind ctx = Some "image" ->
  ctx_media_task_id ctx <> None ->
  files w !! input = Some f ->
  file_pixels f = Some (sw, sh) ->
  scaled_height sw sh 1920 = Return h1080 ->
  scaled_height sw sh 1280 = Return h720 ->
  scaled_height sw sh 854 = Return h480 ->
  (exists w',
      convert_resolutions cfg ctx w
      = (Return (set_converted
                   [ {| i_label := "1080p"; i_path := variant_path cfg input "1080p" |};
                     {| i_label := "720p"; i_path := variant_path cfg input "720p" |};
                     {| i_label := "480p"; i_path := variant_path cfg input "480p" |} ] ctx),
         w')
      /\ files w' !! variant_path cfg input "1080p" = Some (Picture 1920 h1080)
      /\ files w' !! variant_path cfg input "720p" = Some (Picture 1280 h720)
      /\ files w' !! variant_path cfg input "480p" = Some (Picture 854 h480))
  /\ (exists n1 n2 n3,
        truncated_product sw sh 1920 = Some n1 /\ h1080 = Z.max 1 n1
        /\ truncated_product sw sh 1280 = Some n2 /\ h720 = Z.max 1 n2
        /\ truncated_product sw sh 854 = Some n3 /\ h480 = Z.max 1 n3)
  /\ scaled_height 1000 500 1920 = Return 960
  /\ scaled_height 1000 500 854 = Return 427.
Proof.
  intros input Hinput Hkind Hid Hfile Hpx H1 H2 H3.
  assert (Hne : forall l, input <> variant_path cfg input l)
    by (intros l; apply input_not_variant).
  assert (H12 : variant_path cfg input "1080p" <> variant_path cfg input "720p")
    by (intros E%variant_path_inj; discriminate E).
  assert (H13 : variant_path cfg input "1080p" <> variant_path cfg input "480p")
    by (intros E%variant_path_inj; discriminate E).
  assert (H23 : variant_path cfg input "720p" <> variant_path cfg input "480p")
    by (intros E%variant_path_inj; discriminate E).
  split; [|split; [|split; vm_compute; reflexivity]].
  - destruct (ctx_media_task_id ctx) as [id|] eqn:Eid; [|congruence].
    unfold convert_resolutions, resolutions, bind. rewrite Hinput.
    cbn [getitem ret for_each]. unfold bind.
    rewrite (convert_one_image cfg ctx input "1080p" 1920 w f sw sh h1080) by assumption.
    erewrite (convert_one_image cfg ctx input "720p" 1280 _ f sw sh h720);
      [|assumption|cbn [files set_files]; rewrite lookup_insert_ne by auto; eassumption
       |assumption|assumption].
    erewrite (convert_one_image cfg ctx input "480p" 854 _ f sw sh h480);
      [|assumption
       |cbn [files set_files]; rewrite !lookup_insert_ne by auto; eassumption
       |assumption|assumption].
    cbn [ret set_converted ctx_media_task_id getitem]. rewrite Eid. cbn [getitem ret].
    match goal with
    | |- context [update_media_row ?i ?a ?b ?c ?d ?e ?w0] =>
        assert (Hf : files (snd (update_media_row i a b c d e w0)) = files w0)
          by (unfold update_media_row; destruct (db w0 !! i); reflexivity);
        assert (Hr : fst (update_media_row i a b c d e w0) = Return tt)
          by (unfold update_media_row; destruct (db w0 !! i); reflexivity);
        destruct (update_media_row i a b c d e w0) as [r w'] eqn:Eupd
    end.
    cbn [fst snd] in Hf, Hr. subst r.
    exists w'. split; [reflexivity|]. rewrite Hf. cbn [files set_files].
    split; [|split].
    + rewrite !lookup_insert_ne by auto. apply lookup_insert_eq.
    + rewrite lookup_insert_ne by auto. apply lookup_insert_eq.
    + apply lookup_insert_eq.
  - destruct (scaled_height_truncates _ _ _ _ H1) as (n1 & ? & ?).
    destruct (scaled_height_truncates _ _ _ _ H2) as (n2 & ? & ?).
    destruct (scaled_height_truncates _ _ _ _ H3) as (n3 & ? & ?).
    exists n1, n2, n3. auto 10.
Qed.

Lemma convert_resolutions_image_heights_witness :
  (exists w',
      convert_resolutions settings (Examples.ctx_image "t1" Examples.source) Examples.w_image
      = (Return (set_converted
                   [ {| i_label := "1080p";
                        i_path := variant_path settings Examples.source "1080p" |};
                     {| i_label := "720p";
                        i_path := variant_path settings Examples.source "720p" |};
                     {| i_label := "480p";
                        i_path := variant_path settings Examples.source "480p" |} ]
                   (Examples.ctx_image "t1" Examples.source)),
         w')
      /\ files w' !! variant_path settings Examples.source "1080p" = Some (Picture 1920 960)
      /\ files w' !! variant_path settings Examples.source "720p" = Some (Picture 1280 640)
      /\ files w' !! variant_path settings Examples.source "480p" = Some (Picture 854 427))
  /\ (exists n1 n2 n3,
        truncated_product 1000 500 1920 = Some n1 /\ 960 = Z.max 1 n1
        /\ truncated_product 1000 500 1280 = Some n2 /\ 640 = Z.max 1 n2
        /\ truncated_product 1000 500 854 = Some n3 /\ 427 = Z.max 1 n3)
  /\ scaled_height 1000 500 1920 = Return 960
  /\ scaled_height 1000 500 854 = Return 427.
Proof.
  apply (convert_resolutions_image_heights settings
           (Examples.ctx_image "t1" Examples.source) Examples.w_image "t1_cat.png"
           (Upload 2048 (Some (1000, 500))) 1000 500 960 640 427);
    try discriminate; vm_compute; reflexivity.
Defined.

End Convert.

(* ===================================================================== *)
(** ** Computations that leave the table alone *)
(* ===================================================================== *)

Import Runtime Config Models Storage Tasks Main Props.

Lemma quiet_refl w : quiet w w.
Proof. now split. Qed.

Lemma quiet_trans w1 w2 w3 : quiet w1 w2 -> quiet w2 w3 -> quiet w1 w3.
Proof. intros [H1 H2] [H3 H4]. split; congruence. Qed.

Lemma commits_app tr1 tr2 : commits (tr1 ++ tr2) = commits tr1 ++ commits tr2.
Proof. apply omap_app. Qed.

Lemma progress_commits_app id tr1 tr2 :
  progress_commits id (tr1 ++ tr2) = progress_commits id tr1 ++ progress_commits id tr2.
Proof. unfold progress_commits. now rewrite commits_app, filter_app, map_app. Qed.

Lemma progress_commits_commit id row :
  progress_commits id [EvCommit id row] = [progress row].
Proof.
  unfold progress_commits, commits. simpl.
  now rewrite filter_cons_True by reflexivity.
Qed.

Lemma invocations_app tr1 tr2 :
  invocations (tr1 ++ tr2) = invocations tr1 ++ invocations tr2.
Proof. apply omap_app. Qed.

Lemma retries_scheduled_app tr1 tr2 :
  retries_scheduled (tr1 ++ tr2) = retries_scheduled tr1 ++ retries_scheduled tr2.
Proof. apply omap_app. Qed.

Lemma quiet_log_invoke name r w : quiet w (log (EvInvoke name r) w).
Proof.
  split; [reflexivity|]. cbn [trace log]. rewrite commits_app. apply app_nil_r.
Qed.

Lemma quiet_log_retry name r c w : quiet w (log (EvRetry name r c) w).
Proof.
  split; [reflexivity|]. cbn [trace log]. rewrite commits_app. apply app_nil_r.
Qed.

Lemma frame_ret {A} (a : A) : frame (ret a).
Proof. intros w. apply quiet_refl. Qed.

Lemma frame_raise {A} c msg : frame (@raise A c msg).
Proof. intros w. apply quiet_refl. Qed.

Lemma frame_lift {A} (r : Result A) : frame (lift r).
Proof. intros w. apply quiet_refl. Qed.

Lemma frame_gets {A} (f : World -> A) : frame (gets f).
Proof. intros w. apply quiet_refl. Qed.

Lemma frame_getitem {A} (o : option A) key : frame (getitem o key).
Proof. destruct o; [apply frame_ret | apply frame_raise]. Qed.

Lemma frame_bind {A B} (m : M A) (k : A -> M B) :
  frame m -> (forall a, frame (k a)) -> frame (bind m k).
Proof.
  intros Hm Hk w. unfold bind. specialize (Hm w).
  destruct (m w) as [[a|e] w1]; cbn [snd] in *; [|exact Hm].
  eapply quiet_trans; [exact Hm | apply Hk].
Qed.

Lemma frame_if {A} (b : bool) (m1 m2 : M A) :
  frame m1 -> frame m2 -> frame (if b then m1 else m2).
Proof. now destruct b. Qed.

Lemma frame_try_except {A} (m : M A) caught handler :
  frame m -> frame handler -> frame (try_except m caught handler).
Proof.
  intros Hm Hh w. unfold try_except. specialize (Hm w).
  destruct (m w) as [[a|e] w1]; cbn [snd] in *; [exact Hm|].
  destruct (caught (exc_class e)); [|exact Hm].
  eapply quiet_trans; [exact Hm | apply Hh].
Qed.

Lemma frame_for_each {A B} (body : A -> M B) xs :
  (forall x, frame (body x)) -> frame (for_each body xs).
Proof.
  intros Hbody. induction xs as [|x xs IH]; cbn [for_each]; [apply frame_ret|].
  apply frame_bind; [apply Hbody|]. intros y.
  apply frame_bind; [exact IH|]. intros ys. apply frame_ret.
Qed.

Lemma frame_subprocess_run cmd : frame (subprocess_run cmd).
Proof. intros w. unfold subprocess_run. destruct (ffmpeg_rc w); now split. Qed.

Lemma frame_write_file path f : frame (write_file path f).
Proof. intros w. now split. Qed.

Lemma frame_image_open path : frame (image_open path).
Proof.
  intros w. unfold image_open.
  destruct (files w !! path) as [f|]; [destruct (file_pixels f)|]; now split.
Qed.

Lemma frame_client_upload_file path bucket key : frame (client_upload_file path bucket key).
Proof.
  intros w. unfold client_upload_file.
  destruct (s3_script w) as [|[|e] rest]; now split.
Qed.

Create HintDb frame.
#[global] Hint Resolve frame_ret frame_raise frame_lift frame_gets frame_getitem
  frame_subprocess_run frame_write_file frame_image_open frame_client_upload_file
  frame_if frame_try_except : frame.
#[global] Hint Extern 2 (frame (bind _ _)) => (apply frame_bind; [|intro]) : frame.

Lemma frame_upload_file_to_storage cfg path key :
  frame (upload_file_to_storage cfg path key).
Proof. unfold upload_file_to_storage. auto 10 with frame. Qed.

Lemma frame_file_kind path : frame (_file_kind path).
Proof. unfold _file_kind. auto 10 with frame. Qed.

#[global] Hint Resolve frame_upload_file_to_storage frame_file_kind : frame.

Lemma frame_convert_one cfg ctx source res : frame (convert_one cfg ctx source res).
Proof. unfold convert_one. auto 12 with frame. Qed.

Lemma frame_watermark_one ctx item : frame (watermark_one ctx item).
Proof. unfold watermark_one. auto 12 with frame. Qed.

Lemma frame_upload_one cfg id item : frame (upload_one cfg id item).
Proof. unfold upload_one. auto 10 with frame. Qed.

#[global] Hint Resolve frame_convert_one frame_watermark_one frame_upload_one
  frame_for_each : frame.

(* ===================================================================== *)
(** ** The worker: one delivery, retries, chains *)
(* ===================================================================== *)

Lemma update_media_row_returns id st pr out err th w :
  fst (update_media_row id st pr out err th w) = Return tt.
Proof. unfold update_media_row. now destruct (db w !! id). Qed.

Lemma update_media_row_eta id st pr out err th w :
  update_media_row id st pr out err th w
  = (Return tt, snd (update_media_row id st pr out err th w)).
Proof.
  pose proof (update_media_row_returns id st pr out err th w) as H.
  destruct (update_media_row id st pr out err th w) as [r w']. cbn [fst snd] in *.
  now subst r.
Qed.

(** A body that returns ends the delivery, whatever the retry budget. *)
Lemma execute_returns {R} (t : Task R) remaining retries ctx w v w' :
  task_run t ctx (log (EvInvoke (task_name t) retries) w) = (Return v, w') ->
  execute t remaining retries ctx w = (Return v, w').
Proof. intros H. destruct remaining; cbn [execute]; now rewrite H. Qed.

(** A body that raises a class outside [autoretry_for] fails the task at
    once. *)
Lemma execute_permanent {R} (t : Task R) remaining retries ctx w e w' :
  task_run t ctx (log (EvInvoke (task_name t) retries) w) = (Raise e, w') ->
  autoretry_for (exc_class e) = false ->
  execute t remaining retries ctx w = (Raise e, snd (on_failure e [ctx] w')).
Proof. intros H Hcls. destruct remaining; cbn [execute]; now rewrite H, Hcls. Qed.

(** A transient failure with retries left re-sends the task. *)
Lemma execute_retry {R} (t : Task R) remaining retries ctx w msg w' :
  task_run t ctx (log (EvInvoke (task_name t) retries) w)
  = (Raise {| exc_class := TransientProcessingError; exc_str := msg |}, w') ->
  execute t (S remaining) retries ctx w
  = execute t remaining (S retries) ctx
      (log (EvRetry (task_name t) retries (backoff_countdown retries)) w').
Proof. intros H. cbn [execute]. now rewrite H. Qed.

(* ===================================================================== *)
(** ** Publish *)
(* ===================================================================== *)

Section Publish.

Lemma set_s3_script_same w : set_s3_script (s3_script w) w = w.
Proof. now destruct w. Qed.

Lemma storage_call cfg path key w :
  Forall (fun r => benign r = true) (s3_script w) ->
  upload_file_to_storage cfg path key w
  = (Return (storage_url cfg path key (s3_script w)),
     set_s3_script (script_after cfg (s3_script w)) w).
Proof.
  intros Hb. unfold upload_file_to_storage, storage_url, script_after.
  destruct (s3_enabled cfg); cbn [negb andb]; [|now rewrite set_s3_script_same].
  unfold try_except, bind, client_upload_file.
  destruct (s3_script w) as [|[|e] rest] eqn:E; cbn [hd tail outage negb].
  - now rewrite <- E, set_s3_script_same.
  - reflexivity.
  - apply Forall_cons_1 in Hb as [Hb _]. cbn [benign] in Hb. now rewrite Hb.
Qed.

Lemma script_after_benign cfg script :
  Forall (fun r => benign r = true) script ->
  Forall (fun r => benign r = true) (script_after cfg script).
Proof.
  intros H. unfold script_after. destruct (s3_enabled cfg); [|exact H].
  destruct H; [constructor | assumption].
Qed.

Lemma upload_loop cfg id items w :
  Forall (fun r => benign r = true) (s3_script w) ->
  for_each (upload_one cfg id) items w
  = (Return (published_items cfg id items (s3_script w)),
     set_s3_script (Nat.iter (length items) (script_after cfg) (s3_script w)) w).
Proof.
  revert w. induction items as [|it items IH]; intros w Hb.
  - cbn. now rewrite set_s3_script_same.
  - cbn [for_each published_items length]. unfold bind at 1. unfold upload_one at 1.
    unfold bind at 1. rewrite (storage_call _ _ _ _ Hb). cbn [ret].
    unfold bind at 1. rewrite IH by (now apply script_after_benign).
    cbn [ret s3_script set_s3_script]. now rewrite Nat.iter_succ_r.
Qed.

Lemma iter_script_after_benign cfg n script :
  Forall (fun r => benign r = true) script ->
  Forall (fun r => benign r = true) (Nat.iter n (script_after cfg) script).
Proof.
  intros H. induction n as [|n IH]; [exact H|]. cbn [Nat.iter].
  now apply script_after_benign.
Qed.

(** The whole stage, for a context that carries the results of the
    earlier stages. *)
Lemma upload_outputs_benign cfg ctx id items thumb w :
  ctx_media_task_id ctx = Some id ->
  ctx_watermarked ctx = Some items ->
  ctx_thumbnail_path ctx = Some thumb ->
  Forall (fun r => benign r = true) (s3_script w) ->
  let left := Nat.iter (length items) (script_after cfg) (s3_script w) in
  upload_outputs cfg ctx w
  = (Return (set_uploaded (published_items cfg id items (s3_script w))
               (storage_url cfg thumb (id ++ "/" ++ Py.path_name thumb)%string left) ctx),
     snd (update_media_row id None (Some 90) None None None
            (set_s3_script (script_after cfg left) w))).
Proof.
  intros Hid Hitems Hthumb Hb left.
  unfold upload_outputs, bind, getitem. rewrite Hid, Hitems, Hthumb. cbn [ret].
  rewrite (upload_loop _ _ _ _ Hb).
  rewrite storage_call by (now apply iter_script_after_benign).
  cbn [s3_script set_s3_script].
  now rewrite update_media_row_eta.
Qed.










(** The handler of [upload_file_to_storage] names two classes: an
    exception of any other class leaves the function, and the stage. *)
Lemma other_exceptions_propagate :
  fst (upload_outputs settings Examples.ctx_watermarked Examples.w_broken_client)
  = Raise {| exc_class := RuntimeError; exc_str := "boom" |}.
Proof. vm_compute. reflexivity. Qed.

(** From upload to completion: the endpoint admits the photo, a worker
    runs the chain, and the row ends completed with three variants. *)
Lemma upload_then_worker_completes :
  let w1 := snd (upload_media settings Examples.photo "bob" "b2" "job-5" Examples.w_busy) in
  let w2 := snd (worker settings w1) in
  (status <$> db w1 !! "b2") = Some "queued"%string
  /\ (status <$> db w2 !! "b2") = Some "completed"%string
  /\ (progress <$> db w2 !! "b2") = Some 100
  /\ progress_commits "b2" (trace w2) = [10; 25; 55; 75; 90; 100]
  /\ queue w2 = [].
Proof. vm_compute. repeat split. Qed.

End Publish.

(* ===================================================================== *)
(** ** Validation failures *)
(* ===================================================================== *)

Section Validation.

(** [on_failure] for a context that names an existing row. *)
Lemma on_failure_present e ctx rest id row w :
  ctx_media_task_id ctx = Some id -> id <> ""%string -> db w !! id = Some row ->
  let failed := updated_row row (Some "failed") None None (Some (exc_str e)) None in
  on_failure e (ctx :: rest) w
  = (Return tt, log (EvCommit id failed) (set_db (<[id := failed]> (db w)) w)).
Proof.
  intros Hid Hne Hrow failed. unfold on_failure. rewrite Hid.
  apply String.eqb_neq in Hne. rewrite Hne.
  now apply update_media_row_present.
Qed.

Lemma validate_media_rejects cfg id path w f :
  files w !! path = Some f ->
  unsupported path = true \/ file_size f = 0 ->
  validate_media cfg (initial_ctx id path) w
  = (Raise {| exc_class := ValueError; exc_str := validation_reason path |}, w).
Proof.
  intros Hfile Hbad.
  unfold validate_media, bind, getitem, gets, validation_reason, unsupported in *.
  cbn [initial_ctx ctx_input_path ret]. rewrite Hfile.
  rewrite bool_decide_eq_true_2 by eauto. cbn [negb].
  unfold _file_kind. rewrite existsb_app in *.
  destruct (existsb _ image_extensions); cbn [orb negb ret] in *.
  - destruct Hbad as [?|Hzero]; [discriminate|]. cbv beta iota. now rewrite Hfile, Hzero.
  - destruct (existsb _ video_extensions); cbn [negb ret] in *; [|reflexivity].
    destruct Hbad as [?|Hzero]; [discriminate|]. cbv beta iota. now rewrite Hfile, Hzero.
Qed.

(** C2: for an input file that exists under an ASCII name, an extension
    outside the image and video lists (compared in lower case) or a size of
    zero makes validate raise [ValueError], which
    is not retried: the chain ends with the task failed after a single
    invocation of validate.  The row gets status failed and the reason as
    error message ("Unsupported media format: <ext>", or "Uploaded file is
    empty"), its progress is the one stored before, nothing else in the
    world changes, no retry is scheduled and no later stage runs. *)
Theorem validation_failure_is_permanent cfg id path w row f :
  id <> ""%string ->
  db w !! id = Some row ->
  ascii_text path = true ->
  files w !! path = Some f ->
  unsupported path = true \/ file_size f = 0 ->
  let reason := validation_reason path in
  let failed := updated_row row (Some "failed") None None (Some reason) None in
  exists w',
    run_chain cfg (initial_ctx id path) w
    = (Raise {| exc_class := ValueError; exc_str := reason |}, w')
    /\ autoretry_for ValueError = false
    /\ db w' = <[id := failed]> (db w)
    /\ status failed = "failed"%string
    /\ error_message failed = Some reason
    /\ progress failed = progress row
    /\ invocations (trace w') = invocations (trace w) ++ [("app.tasks.validate_media"%string, O)]
    /\ retries_scheduled (trace w') = retries_scheduled (trace w)
    /\ progress_commits id (trace w') = progress_commits id (trace w) ++ [progress row]
    /\ files w' = files w /\ queue w' = queue w
    /\ (unsupported path = true ->
        reason = ("Unsupported media format: " ++ Py.lower (Py.path_suffix path))%string)
    /\ (unsupported path = false -> reason = "Uploaded file is empty"%string).
Proof.
  intros Hne Hrow _ Hfile Hbad reason failed.
  unfold run_chain, finish_chain, pipeline_stages. cbn [chain].
  unfold bind, apply_task.
  erewrite execute_permanent; cycle 1.
  { cbn [task_run task_name validate_media_task].
    now apply (validate_media_rejects cfg id path _ f). }
  { reflexivity. }
  rewrite (on_failure_present _ _ _ id row); [|reflexivity|assumption|assumption].
  cbn [snd exc_str]. eexists. split; [reflexivity|].
  cbn [db files queue trace log set_db].
  rewrite <- !app_assoc, invocations_app, retries_scheduled_app, progress_commits_app.
  rewrite progress_commits_app, progress_commits_commit.
  repeat split.
  - apply app_nil_r.
  - unfold reason, validation_reason. now intros ->.
  - unfold reason, validation_reason. now intros ->.
Qed.

Lemma validation_failure_is_permanent_witness :
  let w := Examples.w_blank in
  let row := Examples.row "alice" "queued" 0 None in
  let reason := "Uploaded file is empty"%string in
  let failed := Examples.row "alice" "failed" 0 (Some reason) in
  exists w',
    run_chain settings (initial_ctx "t1" Examples.blank) w
    = (Raise {| exc_class := ValueError; exc_str := reason |}, w')
    /\ autoretry_for ValueError = false
    /\ db w' = <["t1"%string := failed]> (db w)
    /\ status failed = "failed"%string
    /\ error_message failed = Some reason
    /\ progress failed = progress row
    /\ invocations (trace w') = invocations (trace w) ++ [("app.tasks.validate_media"%string, O)]
    /\ retries_scheduled (trace w') = retries_scheduled (trace w)
    /\ progress_commits "t1" (trace w') = progress_commits "t1" (trace w) ++ [progress row]
    /\ files w' = files w /\ queue w' = queue w
    /\ (unsupported Examples.blank = true ->
        reason = ("Unsupported media format: " ++ Py.lower (Py.path_suffix Examples.blank))%string)
    /\ (unsupported Examples.blank = false -> reason = "Uploaded file is empty"%string).
Proof.
  intros w row reason failed.
  apply (validation_failure_is_permanent settings "t1" Examples.blank w row (Upload 0 None)).
  - discriminate.
  - reflexivity.
  - reflexivity.
  - reflexivity.
  - right. reflexivity.
Defined.

(** Two runs of validate: a [.txt] file is rejected with its extension in
    the message; an upper-case [.PNG] is accepted as an image. *)
Lemma text_file_is_rejected :
  let w' := snd (run_chain settings (initial_ctx "t1" Examples.notes) Examples.w_notes) in
  (status <$> db w' !! "t1") = Some "failed"%string
  /\ (error_message <$> db w' !! "t1") = Some (Some "Unsupported media format: .txt"%string)
  /\ (progress <$> db w' !! "t1") = Some 0
  /\ invocations (trace w') = [("app.tasks.validate_media"%string, O)].
Proof. vm_compute. repeat split. Qed.

Lemma upper_case_extension_is_accepted :
  let w' := snd (run_chain settings (initial_ctx "t1" Examples.shout) Examples.w_shout) in
  (status <$> db w' !! "t1") = Some "completed"%string
  /\ progress_commits "t1" (trace w') = [10; 25; 55; 75; 90; 100].
Proof. vm_compute. repeat split. Qed.

End Validation.

(* ===================================================================== *)
(** ** Transient failures *)
(* ===================================================================== *)

Section Retries.

(** After [n] transient failures within the budget, the delivery goes on
    with [n] retries fewer. *)
Lemma execute_after_failures {R} (t : Task R) ctx n r w w_n :
  transient_failures t ctx r n w w_n ->
  forall remaining, (n <= remaining)%nat ->
  execute t remaining r ctx w = execute t (remaining - n) (r + n) ctx w_n.
Proof.
  induction 1 as [r w|r n w msg w1 w' Hrun _ IH]; intros remaining Hle.
  - now rewrite Nat.sub_0_r, Nat.add_0_r.
  - destruct remaining as [|k]; [lia|].
    rewrite (execute_retry _ _ _ _ _ _ _ Hrun), IH by lia.
    now replace (r + S n)%nat with (S r + n)%nat by lia.
Qed.

Lemma finish_chain_cons cfg (t : Task Ctx) rest ctx w v w' :
  apply_task t ctx w = (Return v, w') ->
  finish_chain cfg (t :: rest) ctx w = finish_chain cfg rest v w'.
Proof.
  intros H. unfold finish_chain. cbn [chain]. unfold bind at 1 2. now rewrite H.
Qed.

Lemma finish_chain_fails cfg (t : Task Ctx) rest ctx w e w' :
  apply_task t ctx w = (Raise e, w') ->
  finish_chain cfg (t :: rest) ctx w = (Raise e, w').
Proof.
  intros H. unfold finish_chain. cbn [chain]. unfold bind at 1 2. now rewrite H.
Qed.

(** C3: [max_retries] is 5 and the countdown bound doubles from 1 up to
    the cap of 60.  A stage whose body raises [TransientProcessingError]
    on its first [n <= 5] deliveries (so also exactly 4) and returns on the
    next one is a successful task: the chain goes on with its result, as
    if it had never failed, and completes when the remaining stages do.  A
    stage whose body raises it six times in a row fails: the chain stops
    and the row is stored as failed with the message of the sixth
    failure. *)
Theorem transient_errors_are_retried cfg (t : Task Ctx) rest ctx w :
  max_retries = 5%nat
  /\ (forall r, backoff_countdown r = Z.min 60 (2 ^ Z.of_nat r))
  /\ map backoff_countdown (seq 0 7) = [1; 2; 4; 8; 16; 32; 60]
  /\ (forall n w_n v w',
        (n <= 5)%nat ->
        transient_failures t ctx 0 n w w_n ->
        task_run t ctx (log (EvInvoke (task_name t) n) w_n) = (Return v, w') ->
        apply_task t ctx w = (Return v, w')
        /\ finish_chain cfg (t :: rest) ctx w = finish_chain cfg rest v w')
  /\ (forall w5 msg w6 id row,
        transient_failures t ctx 0 5 w w5 ->
        task_run t ctx (log (EvInvoke (task_name t) 5) w5)
        = (Raise {| exc_class := TransientProcessingError; exc_str := msg |}, w6) ->
        ctx_media_task_id ctx = Some id -> id <> ""%string -> db w6 !! id = Some row ->
        let failed := updated_row row (Some "failed") None None (Some msg) None in
        exists w',
          finish_chain cfg (t :: rest) ctx w
          = (Raise {| exc_class := TransientProcessingError; exc_str := msg |}, w')
          /\ db w' = <[id := failed]> (db w6)
          /\ status failed = "failed"%string
          /\ error_message failed = Some msg
          /\ progress failed = progress row).
Proof.
  split; [reflexivity|]. split.
  { intros r. unfold backoff_countdown, retry_backoff_max. now rewrite Z.mul_1_l. }
  split; [reflexivity|]. split.
  - intros n w_n v w' Hn Hfail Hok.
    assert (Happ : apply_task t ctx w = (Return v, w')).
    { unfold apply_task, max_retries.
      rewrite (execute_after_failures _ _ _ _ _ _ Hfail) by exact Hn.
      now apply execute_returns. }
    split; [exact Happ | now apply finish_chain_cons].
  - intros w5 msg w6 id row Hfail Hlast Hid Hne Hrow failed.
    eexists. split.
    + apply finish_chain_fails. unfold apply_task, max_retries.
      rewrite (execute_after_failures _ _ _ _ _ _ Hfail) by lia.
      cbn [Nat.sub Nat.add execute]. rewrite Hlast. cbn [exc_class autoretry_for].
      rewrite (on_failure_present _ _ _ id row) by assumption. reflexivity.
    + cbn [snd db log set_db exc_str]. repeat split.
Qed.

Lemma result_pair_eta {A} (p : Result A * World) r : fst p = r -> p = (r, snd p).
Proof. destruct p. cbn. now intros ->. Qed.

Lemma transient_failures_computed {R} (t : Task R) ctx n r w :
  all_transient t ctx r n w = true ->
  transient_failures t ctx r n w (after_failures t ctx r n w).
Proof.
  revert r w. induction n as [|n IH]; intros r w Hall; cbn [after_failures].
  - constructor.
  - cbn [all_transient] in Hall.
    destruct (task_run t ctx (log (EvInvoke (task_name t) r) w)) as [[v|[cls msg]] w1] eqn:E;
      [discriminate|].
    apply andb_true_iff in Hall as [Hcls Hall]. cbn [exc_class snd] in *.
    destruct cls; try discriminate.
    eapply tf_again; [exact E | now apply IH].
Qed.

Lemma transient_errors_are_retried_witness :
  let t := generate_thumbnail_task settings in
  let ctx := Examples.ctx_video in
  let msg := "Failed to generate video thumbnail"%string in
  let w := Examples.w_video [1; 1; 1; 1] in
  let v := set_thumbnail_path "/tmp/media/thumb/t2_talk_thumb.jpg" ctx in
  let w' := snd (task_run t ctx (log (EvInvoke (task_name t) 4) (after_failures t ctx 0 4 w))) in
  let x := Examples.w_video [1; 1; 1; 1; 1; 1] in
  let x6 := snd (task_run t ctx (log (EvInvoke (task_name t) 5) (after_failures t ctx 0 5 x))) in
  (apply_task t ctx w = (Return v, w')
   /\ finish_chain settings (t :: Examples.after_thumbnail) ctx w
      = finish_chain settings Examples.after_thumbnail v w')
  /\ (exists x',
        finish_chain settings (t :: Examples.after_thumbnail) ctx x
        = (Raise {| exc_class := TransientProcessingError; exc_str := msg |}, x')
        /\ db x' = <["t2"%string := Examples.row "alice" "failed" 0 (Some msg)]> (db x6)).
Proof.
  intros t ctx msg w v w' x x6. split.
  - destruct (transient_errors_are_retried settings t Examples.after_thumbnail ctx w)
      as (_ & _ & _ & Hok & _).
    apply (Hok 4%nat (after_failures t ctx 0 4 w)); [lia | |].
    + apply transient_failures_computed. vm_compute. reflexivity.
    + unfold w'. apply result_pair_eta. vm_compute. reflexivity.
  - destruct (transient_errors_are_retried settings t Examples.after_thumbnail ctx x)
      as (_ & _ & _ & _ & Hfail).
    destruct (Hfail (after_failures t ctx 0 5 x) msg x6 "t2"%string
                (Examples.row "alice" "queued" 0 None))
      as (x' & Hrun & Hdb & _).
    + apply transient_failures_computed. vm_compute. reflexivity.
    + unfold x6. apply result_pair_eta. vm_compute. reflexivity.
    + reflexivity.
    + discriminate.
    + vm_compute. reflexivity.
    + exists x'. split; [exact Hrun | exact Hdb].
Defined.

(** The two runs of C3 on a video whose thumbnail extraction fails four,
    respectively six times: the first task completes, the second fails
    with the message of the last failure, after 5 retries. *)
Lemma four_failures_then_completed :
  let w' := snd (run_chain settings (initial_ctx "t2" Examples.clip)
                   (Examples.w_video [1; 1; 1; 1])) in
  (status <$> db w' !! "t2") = Some "completed"%string
  /\ (progress <$> db w' !! "t2") = Some 100
  /\ progress_commits "t2" (trace w') = [10; 25; 55; 75; 90; 100]
  /\ retries_scheduled (trace w') = [(0%nat, 1); (1%nat, 2); (2%nat, 4); (3%nat, 8)].
Proof. vm_compute. repeat split. Qed.

Lemma six_failures_then_failed :
  let w' := snd (run_chain settings (initial_ctx "t2" Examples.clip)
                   (Examples.w_video [1; 1; 1; 1; 1; 1])) in
  (status <$> db w' !! "t2") = Some "failed"%string
  /\ (error_message <$> db w' !! "t2") = Some (Some "Failed to generate video thumbnail"%string)
  /\ (progress <$> db w' !! "t2") = Some 10
  /\ retries_scheduled (trace w') = [(0%nat, 1); (1%nat, 2); (2%nat, 4); (3%nat, 8); (4%nat, 16)]
  /\ invocations (trace w')
     = [("app.tasks.validate_media"%string, 0); ("app.tasks.generate_thumbnail"%string, 0);
        ("app.tasks.generate_thumbnail"%string, 1); ("app.tasks.generate_thumbnail"%string, 2);
        ("app.tasks.generate_thumbnail"%string, 3); ("app.tasks.generate_thumbnail"%string, 4);
        ("app.tasks.generate_thumbnail"%string, 5)]%nat.
Proof. vm_compute. repeat split. Qed.

(** A chain delivered twice: the first delivery exhausts its retries and
    marks the task failed, the second one completes it.  The row ends
    completed at 100 and still carries the message of the failure. *)
Lemma duplicate_delivery_keeps_error_message :
  let w1 := snd (worker settings Examples.w_duplicate) in
  let w2 := snd (worker settings w1) in
  (status <$> db w1 !! "t2") = Some "failed"%string
  /\ (status <$> db w2 !! "t2") = Some "completed"%string
  /\ (progress <$> db w2 !! "t2") = Some 100
  /\ (error_message <$> db w2 !! "t2")
     = Some (Some "Failed to generate video thumbnail"%string)
  /\ progress_commits "t2" (trace w2) = [10; 10; 10; 25; 55; 75; 90; 100].
Proof. vm_compute. repeat split. Qed.

End Retries.

(* ===================================================================== *)
(** ** Checkpoints *)
(* ===================================================================== *)

Section Checkpoints.

Lemma stage_from_raise {R} p st ctx (Q : R -> Prop) w0 c msg :
  stage_from p st ctx Q w0 (raise c msg).
Proof. intros w Hq. exact Hq. Qed.

Lemma stage_from_bind {A R} p st ctx (Q : R -> Prop) w0 (m : M A) (k : A -> M R) :
  frame m ->
  (forall a, stage_from p st ctx Q w0 (k a)) ->
  stage_from p st ctx Q w0 (bind m k).
Proof.
  intros Hm Hk w Hq. unfold bind. specialize (Hm w).
  destruct (m w) as [[a|e] w1]; cbn [snd] in Hm.
  - apply Hk. eapply quiet_trans; eassumption.
  - cbn. eapply quiet_trans; eassumption.
Qed.

Lemma stage_from_getitem {A R} p st ctx (Q : R -> Prop) w0 (o : option A) key (k : A -> M R) :
  (forall a, o = Some a -> stage_from p st ctx Q w0 (k a)) ->
  stage_from p st ctx Q w0 (bind (getitem o key) k).
Proof.
  intros Hk. destruct o as [a|]; cbn [getitem].
  - intros w Hq. unfold bind, ret. now apply Hk.
  - intros w Hq. exact Hq.
Qed.

Lemma stage_from_if {R} p st ctx (Q : R -> Prop) w0 (b : bool) (m1 m2 : M R) :
  stage_from p st ctx Q w0 m1 -> stage_from p st ctx Q w0 m2 ->
  stage_from p st ctx Q w0 (if b then m1 else m2).
Proof. now destruct b. Qed.

Lemma stage_from_update {R} p st ctx (Q : R -> Prop) w0 id out th (r : R) :
  ctx_media_task_id ctx = Some id -> Q r ->
  stage_from p st ctx Q w0 (update_media_row id st (Some p) out None th ;; ret r).
Proof.
  intros Hid HQ w Hq. unfold bind. rewrite update_media_row_eta. cbn [ret stage_post].
  split; [exact HQ|]. now exists id, out, th, w.
Qed.

Ltac stage_steps :=
  repeat first
    [ apply stage_from_raise
    | apply stage_from_if
    | (apply stage_from_getitem; intros ? ?)
    | (apply stage_from_bind; [solve [auto 12 with frame] | intros ?]) ].

Lemma checkpoint_validate cfg : checkpoint 10 (Some "processing"%string) (validate_media_task cfg).
Proof.
  intros ctx w. cbn [task_run validate_media_task]. unfold validate_media.
  stage_steps. apply stage_from_update; [assumption | reflexivity].
Qed.

Lemma checkpoint_thumbnail cfg : checkpoint 25 None (generate_thumbnail_task cfg).
Proof.
  intros ctx w. cbn [task_run generate_thumbnail_task]. unfold generate_thumbnail.
  stage_steps. apply stage_from_update; [assumption | reflexivity].
Qed.

Lemma checkpoint_convert cfg : checkpoint 55 None (convert_resolutions_task cfg).
Proof.
  intros ctx w. cbn [task_run convert_resolutions_task]. unfold convert_resolutions.
  stage_steps. apply stage_from_update; [assumption | reflexivity].
Qed.

Lemma checkpoint_watermark cfg : checkpoint 75 None (apply_watermark_task cfg).
Proof.
  intros ctx w. cbn [task_run apply_watermark_task]. unfold apply_watermark.
  stage_steps. apply stage_from_update; [assumption | reflexivity].
Qed.

Lemma checkpoint_upload cfg : checkpoint 90 None (upload_outputs_task cfg).
Proof.
  intros ctx w. cbn [task_run upload_outputs_task]. unfold upload_outputs.
  stage_steps. apply stage_from_update; [assumption | reflexivity].
Qed.

Lemma checkpoint_finalize cfg ctx w :
  stage_from 100 (Some "completed"%string) ctx (fun _ : Outputs => True) w
    (finalize_success cfg ctx).
Proof.
  unfold finalize_success. stage_steps. apply stage_from_update; [assumption | exact I].
Qed.

(** A delivery that succeeds, however many retries it took, has written
    the checkpoint once. *)
Lemma execute_stage {R} (t : Task R) p st (Q : Ctx -> R -> Prop) :
  (forall ctx w, stage_from p st ctx (Q ctx) w (task_run t ctx)) ->
  forall remaining r ctx w0 w v w',
    quiet w0 w ->
    execute t remaining r ctx w = (Return v, w') ->
    stage_post p st ctx (Q ctx) w0 (Return v, w').
Proof.
  intros Hbody remaining. induction remaining as [|k IH]; intros r ctx w0 w v w' Hq;
    cbn [execute];
    pose proof (Hbody ctx w0 (log (EvInvoke (task_name t) r) w)
                  (quiet_trans _ _ _ Hq (quiet_log_invoke _ _ _))) as Hpost;
    destruct (task_run t ctx (log (EvInvoke (task_name t) r) w)) as [[a|e] w1];
    try (intros [= <- <-]; exact Hpost).
  - destruct (autoretry_for (exc_class e)); discriminate.
  - destruct (autoretry_for (exc_class e)); [|discriminate].
    apply IH. cbn [stage_post] in Hpost.
    eapply quiet_trans; [exact Hpost | apply quiet_log_retry].
Qed.

Lemma progress_commits_quiet id w w' :
  quiet w w' -> progress_commits id (trace w') = progress_commits id (trace w).
Proof. intros [_ Hc]. unfold progress_commits. now rewrite Hc. Qed.

(** The write of a successful stage, seen on the row and on the log. *)
Lemma stage_post_effect {R} p st ctx (Q : R -> Prop) w0 v w' id row :
  stage_post p st ctx Q w0 (Return v, w') ->
  ctx_media_task_id ctx = Some id ->
  db w0 !! id = Some row ->
  Q v
  /\ exists row',
       db w' !! id = Some row'
       /\ progress row' = p
       /\ status row' = default (status row) st
       /\ progress_commits id (trace w') = progress_commits id (trace w0) ++ [p].
Proof.
  intros (HQ & id' & out & th & w1 & Hid' & Hq & ->) Hid Hrow.
  assert (id' = id) as -> by congruence.
  split; [exact HQ|].
  assert (Hrow1 : db w1 !! id = Some row) by (destruct Hq as [-> _]; exact Hrow).
  rewrite (update_media_row_present _ _ _ _ _ _ _ _ Hrow1). cbn [snd db trace log set_db].
  eexists. split; [apply lookup_insert_eq|]. repeat split.
  rewrite progress_commits_app, progress_commits_commit.
  now rewrite (progress_commits_quiet _ _ _ Hq).
Qed.

(** A chain of checkpointing stages that returns has written their
    checkpoints in order. *)
Lemma chain_checkpoints ps ts :
  Forall2 (fun p t => exists st, checkpoint p st t) ps ts ->
  forall ctx w c' w' id row,
    chain ts ctx w = (Return c', w') ->
    ctx_media_task_id ctx = Some id ->
    db w !! id = Some row ->
    ctx_media_task_id c' = Some id
    /\ is_Some (db w' !! id)
    /\ progress_commits id (trace w') = progress_commits id (trace w) ++ ps.
Proof.
  induction 1 as [|p t ps ts [st Hcp] _ IH]; intros ctx w c' w' id row Hrun Hid Hrow.
  - cbn in Hrun. injection Hrun as <- <-. rewrite app_nil_r. eauto.
  - cbn [chain] in Hrun. unfold bind, apply_task in Hrun.
    destruct (execute t max_retries 0 ctx w) as [[v|e] w1] eqn:Hexec; [|discriminate].
    apply (execute_stage t p st _ Hcp _ _ _ w w _ _ (quiet_refl w)) in Hexec.
    destruct (stage_post_effect _ _ _ _ _ _ _ id row Hexec Hid Hrow)
      as (Hv & row1 & Hrow1 & _ & _ & Hlog).
    destruct (IH v w1 c' w' id row1 Hrun ltac:(congruence) Hrow1) as (Hc' & Hsome & Hlog').
    repeat split; [exact Hc' | exact Hsome |].
    rewrite Hlog', Hlog, <- app_assoc. reflexivity.
Qed.

Lemma pipeline_checkpoints cfg :
  Forall2 (fun p t => exists st, checkpoint p st t) [10; 25; 55; 75; 90] (pipeline_stages cfg).
Proof.
  unfold pipeline_stages.
  repeat constructor;
    eauto using checkpoint_validate, checkpoint_thumbnail, checkpoint_convert,
      checkpoint_watermark, checkpoint_upload.
Qed.

(** C8: a run of the chain that completes has committed the progress
    values 10, 25, 55, 75, 90 and 100 for its task, in this order and
    nothing else, whatever retries happened on the way; the sequence is
    strictly increasing and the row ends completed at 100. *)
Theorem completed_run_checkpoints cfg ctx w out w' id row :
  run_chain cfg ctx w = (Return out, w') ->
  ctx_media_task_id ctx = Some id ->
  db w !! id = Some row ->
  progress_commits id (trace w') = progress_commits id (trace w) ++ [10; 25; 55; 75; 90; 100]
  /\ StronglySorted Z.lt [10; 25; 55; 75; 90; 100]
  /\ (status <$> db w' !! id) = Some "completed"%string
  /\ (progress <$> db w' !! id) = Some 100.
Proof.
  intros Hrun Hid Hrow. unfold run_chain, finish_chain, bind in Hrun.
  destruct (chain (pipeline_stages cfg) ctx w) as [[c|e] w1] eqn:Hchain; [|discriminate].
  destruct (chain_checkpoints _ _ (pipeline_checkpoints cfg) _ _ _ _ id row Hchain Hid Hrow)
    as (Hc & [row1 Hrow1] & Hlog).
  unfold apply_task in Hrun.
  apply (execute_stage (finalize_success_task cfg) 100 (Some "completed"%string)
           (fun _ _ => True) (checkpoint_finalize cfg) _ _ _ w1 w1 _ _ (quiet_refl w1))
    in Hrun.
  destruct (stage_post_effect _ _ _ _ _ _ _ id row1 Hrun Hc Hrow1)
    as (_ & row2 & Hrow2 & Hp & Hst & Hlog2).
  split; [|split; [|split]].
  - rewrite Hlog2, Hlog, <- app_assoc. reflexivity.
  - repeat constructor.
  - rewrite Hrow2. cbn. now rewrite Hst.
  - rewrite Hrow2. cbn. now rewrite Hp.
Qed.

Lemma completed_run_checkpoints_witness :
  let w := Examples.w_image in
  let w' := snd (run_chain settings (initial_ctx "t1" Examples.source) w) in
  progress_commits "t1" (trace w') = progress_commits "t1" (trace w) ++ [10; 25; 55; 75; 90; 100]
  /\ StronglySorted Z.lt [10; 25; 55; 75; 90; 100]
  /\ (status <$> db w' !! "t1") = Some "completed"%string
  /\ (progress <$> db w' !! "t1") = Some 100.
Proof.
  intros w w'.
  apply (completed_run_checkpoints settings (initial_ctx "t1" Examples.source) w
           (MkOutputs "http://localhost:9000/media/t1/t1_cat_thumb.jpg"
              [ {| v_label := "1080p";
                   v_url := "http://localhost:9000/media/t1/t1_cat_1080p_wm.png" |};
                {| v_label := "720p";
                   v_url := "http://localhost:9000/media/t1/t1_cat_720p_wm.png" |};
                {| v_label := "480p";
                   v_url := "http://localhost:9000/media/t1/t1_cat_480p_wm.png" |} ])
           w' "t1"%string (Examples.row "alice" "queued" 0 None)).
  - unfold w'. apply result_pair_eta. vm_compute. reflexivity.
  - reflexivity.
  - reflexivity.
Defined.

End Checkpoints.

(* ===================================================================== *)
(** ** More on the store *)
(* ===================================================================== *)

Section StoreLaws.
Import Laws.

Lemma updated_row_twice row st pr out err th :
  updated_row (updated_row row st pr out err th) st pr out err th
  = updated_row row st pr out err th.
Proof. destruct st, pr, out, err, th; reflexivity. Qed.

(** X1: [update_media_row] is idempotent on the table: replaying the same
    update leaves the table as the first application left it. *)
Theorem update_media_row_idempotent id st pr out err th w :
  db (snd (update_media_row id st pr out err th
             (snd (update_media_row id st pr out err th w))))
  = db (snd (update_media_row id st pr out err th w)).
Proof.
  destruct (db w !! id) as [row|] eqn:Hrow.
  - rewrite (update_media_row_present _ _ _ _ _ _ _ _ Hrow). cbn [snd].
    erewrite update_media_row_present by (cbn [db log set_db]; apply lookup_insert_eq).
    cbn [snd db log set_db]. now rewrite updated_row_twice, insert_insert_eq.
  - unfold update_media_row at 2. rewrite Hrow. cbn [snd].
    unfold update_media_row. now rewrite Hrow.
Qed.

(** X2: [update_media_row], given the canonical text of a UUID, never
    creates or deletes a row and touches no row but the one of that id;
    files, broker queue and the scripts of the collaborators are left
    alone. *)
Theorem update_media_row_touches_one_row id st pr out err th w :
  canonical_uuid id = true ->
  let w' := snd (update_media_row id st pr out err th w) in
  dom (db w') = dom (db w)
  /\ (forall id', id' <> id -> db w' !! id' = db w !! id')
  /\ files w' = files w /\ queue w' = queue w
  /\ ffmpeg_rc w' = ffmpeg_rc w /\ s3_script w' = s3_script w.
Proof.
  intros _ w'. subst w'. destruct (db w !! id) as [row|] eqn:Hrow.
  - rewrite (update_media_row_present _ _ _ _ _ _ _ _ Hrow). cbn.
    repeat split.
    + apply dom_insert_lookup_L. eauto.
    + intros id' Hne. now apply lookup_insert_ne.
  - unfold update_media_row. rewrite Hrow. cbn. repeat split.
Qed.

Lemma update_media_row_touches_one_row_witness :
  let w := Scenarios.w_uuid in
  let w' := snd (update_media_row Scenarios.task_uuid (Some "processing"%string) (Some 10)
                   None None None w) in
  dom (db w') = dom (db w)
  /\ (forall id', id' <> Scenarios.task_uuid -> db w' !! id' = db w !! id')
  /\ files w' = files w /\ queue w' = queue w
  /\ ffmpeg_rc w' = ffmpeg_rc w /\ s3_script w' = s3_script w.
Proof.
  intros w.
  apply (update_media_row_touches_one_row Scenarios.task_uuid (Some "processing"%string)
           (Some 10) None None None w).
  reflexivity.
Defined.

(** X3: without a task to blame, [on_failure] writes nothing: no
    arguments, a context without [media_task_id], or an empty id leave
    the world as it was. *)
Theorem on_failure_without_task e args w :
  failure_task_id args = None \/ failure_task_id args = Some ""%string ->
  on_failure e args w = (Return tt, w).
Proof.
  unfold failure_task_id, on_failure.
  destruct args as [|c rest]; intros [Hid|Hid]; try reflexivity; try discriminate;
    rewrite Hid; reflexivity.
Qed.

Lemma on_failure_without_task_witness :
  on_failure {| exc_class := KeyError; exc_str := "'media_task_id'" |}
    [Scenarios.ctx_anonymous] Examples.w_image
  = (Return tt, Examples.w_image).
Proof.
  apply (on_failure_without_task _ [Scenarios.ctx_anonymous]). left. reflexivity.
Defined.

End StoreLaws.

(* ===================================================================== *)
(** ** How a run ends *)
(* ===================================================================== *)

Section Outcomes.
Import Laws.

Lemma autoretry_for_false c : c <> TransientProcessingError -> autoretry_for c = false.
Proof. destruct c; intros H; try reflexivity. congruence. Qed.

(** X4: an exception of any class but [TransientProcessingError], raised
    by any stage on its first delivery, fails the task at once: the chain
    stops with that exception, the only write is the one of
    [on_failure] (status failed, [str(exc)] as message, the other columns
    kept), and neither a retry nor a later stage follows. *)
Theorem permanent_failure_stops_chain cfg (t : Task Ctx) rest ctx w e w1 id row :
  task_run t ctx (log (EvInvoke (task_name t) 0) w) = (Raise e, w1) ->
  exc_class e <> TransientProcessingError ->
  ctx_media_task_id ctx = Some id -> id <> ""%string ->
  db w1 !! id = Some row ->
  finish_chain cfg (t :: rest) ctx w
  = (Raise e, log (EvCommit id (failed_row row e))
                (set_db (<[id := failed_row row e]> (db w1)) w1))
  /\ status (failed_row row e) = "failed"%string
  /\ error_message (failed_row row e) = Some (exc_str e)
  /\ progress (failed_row row e) = progress row
  /\ outputs (failed_row row e) = outputs row.
Proof.
  intros Hrun Hcls Hid Hne Hrow. split; [|repeat split].
  apply finish_chain_fails. unfold apply_task.
  rewrite (execute_permanent _ _ _ _ _ _ _ Hrun (autoretry_for_false _ Hcls)).
  now rewrite (on_failure_present _ _ _ id row).
Qed.

Lemma permanent_failure_stops_chain_witness :
  let t := generate_thumbnail_task settings in
  let e := {| exc_class := KeyError; exc_str := "'kind'" |} in
  let w1 := log (EvInvoke (task_name t) 0) Examples.w_image in
  let row := Examples.row "alice" "queued" 0 None in
  finish_chain settings (t :: Examples.after_thumbnail) Scenarios.ctx_no_kind Examples.w_image
  = (Raise e, log (EvCommit "t1" (failed_row row e))
                (set_db (<["t1"%string := failed_row row e]> (db w1)) w1))
  /\ status (failed_row row e) = "failed"%string
  /\ error_message (failed_row row e) = Some (exc_str e)
  /\ progress (failed_row row e) = progress row
  /\ outputs (failed_row row e) = outputs row.
Proof.
  intros t e w1 row.
  apply (permanent_failure_stops_chain settings t Examples.after_thumbnail
           Scenarios.ctx_no_kind Examples.w_image e w1 "t1"%string row).
  - reflexivity.
  - discriminate.
  - reflexivity.
  - discriminate.
  - reflexivity.
Defined.

(** A delivery that fails, after whatever retries, has written nothing
    but the record of the failure. *)
Lemma execute_failure {R} (t : Task R) p st (Q : Ctx -> R -> Prop) :
  (forall ctx w, stage_from p st ctx (Q ctx) w (task_run t ctx)) ->
  forall remaining r ctx w0 w e w',
    quiet w0 w ->
    execute t remaining r ctx w = (Raise e, w') ->
    exists w1, quiet w0 w1 /\ w' = snd (on_failure e [ctx] w1).
Proof.
  intros Hbody remaining. induction remaining as [|k IH]; intros r ctx w0 w e w' Hq;
    cbn [execute];
    pose proof (Hbody ctx w0 (log (EvInvoke (task_name t) r) w)
                  (quiet_trans _ _ _ Hq (quiet_log_invoke _ _ _))) as Hpost;
    destruct (task_run t ctx (log (EvInvoke (task_name t) r) w)) as [[a|e1] w1];
    try discriminate; cbn [stage_post] in Hpost.
  - destruct (autoretry_for (exc_class e1)); intros [= <- <-]; eauto.
  - destruct (autoretry_for (exc_class e1)).
    + apply IH. eapply quiet_trans; [exact Hpost | apply quiet_log_retry].
    + intros [= <- <-]. eauto.
Qed.

(** The write of a successful stage, as an equation on the table. *)
Lemma stage_post_db {R} p st ctx (Q : R -> Prop) w0 v w' id row :
  stage_post p st ctx Q w0 (Return v, w') ->
  ctx_media_task_id ctx = Some id ->
  db w0 !! id = Some row ->
  Q v
  /\ exists row',
       db w' = <[id := row']> (db w0)
       /\ same_identity row row'
       /\ progress row' = p
       /\ progress_commits id (trace w') = progress_commits id (trace w0) ++ [p].
Proof.
  intros (HQ & id' & out & th & w1 & Hid' & Hq & ->) Hid Hrow.
  assert (id' = id) as -> by congruence.
  split; [exact HQ|].
  assert (Hrow1 : db w1 !! id = Some row) by (destruct Hq as [-> _]; exact Hrow).
  rewrite (update_media_row_present _ _ _ _ _ _ _ _ Hrow1). cbn [snd db trace log set_db].
  eexists. split; [destruct Hq as [-> _]; reflexivity|].
  split; [repeat split|]. split; [reflexivity|].
  rewrite progress_commits_app, progress_commits_commit.
  now rewrite (progress_commits_quiet _ _ _ Hq).
Qed.

Lemma same_identity_refl row : same_identity row row.
Proof. repeat split. Qed.

Lemma same_identity_trans r1 r2 r3 :
  same_identity r1 r2 -> same_identity r2 r3 -> same_identity r1 r3.
Proof. unfold same_identity. intuition congruence. Qed.

(** The write of [on_failure], as an equation on the table. *)
Lemma failure_db e ctx w0 w1 id row :
  quiet w0 w1 ->
  ctx_media_task_id ctx = Some id -> id <> ""%string ->
  db w0 !! id = Some row ->
  db (snd (on_failure e [ctx] w1)) = <[id := failed_row row e]> (db w0)
  /\ progress_commits id (trace (snd (on_failure e [ctx] w1)))
     = progress_commits id (trace w0) ++ [progress row].
Proof.
  intros Hq Hid Hne Hrow.
  assert (Hrow1 : db w1 !! id = Some row) by (destruct Hq as [-> _]; exact Hrow).
  rewrite (on_failure_present _ _ _ id row) by assumption.
  cbn [snd db trace log set_db]. split; [destruct Hq as [-> _]; reflexivity|].
  rewrite progress_commits_app, progress_commits_commit.
  now rewrite (progress_commits_quiet _ _ _ Hq).
Qed.

Lemma last_cons_default {A} (x d : A) l : List.last (x :: l) d = List.last l x.
Proof.
  revert x d. induction l as [|y l IH]; intros x d; [reflexivity|].
  change (List.last (x :: y :: l) d) with (List.last (y :: l) d). rewrite IH.
  symmetry. apply IH.
Qed.

(** How a chain of checkpointing stages ends: either every stage wrote
    its checkpoint, or the first [k] did and the failure was recorded on
    top of the last of them. *)
Lemma chain_outcome ps ts :
  Forall2 (fun p t => exists st, checkpoint p st t) ps ts ->
  forall ctx w id row,
    ctx_media_task_id ctx = Some id -> id <> ""%string ->
    db w !! id = Some row ->
    match chain ts ctx w with
    | (Return c', w') =>
        ctx_media_task_id c' = Some id
        /\ exists row',
             db w' = <[id := row']> (db w)
             /\ same_identity row row'
             /\ progress row' = List.last ps (progress row)
             /\ progress_commits id (trace w') = progress_commits id (trace w) ++ ps
    | (Raise e, w') =>
        exists k row',
          (k < length ps)%nat
          /\ db w' = <[id := row']> (db w)
          /\ same_identity row row'
          /\ status row' = "failed"%string
          /\ error_message row' = Some (exc_str e)
          /\ progress row' = List.last (take k ps) (progress row)
          /\ progress_commits id (trace w')
             = progress_commits id (trace w) ++ take k ps ++ [progress row']
    end.
Proof.
  induction 1 as [|p t ps ts [st Hcp] _ IH]; intros ctx w id row Hid Hne Hrow.
  - cbn. split; [exact Hid|]. exists row. rewrite app_nil_r.
    rewrite insert_id by exact Hrow. auto using same_identity_refl.
  - cbn [chain]. unfold bind, apply_task.
    destruct (execute t max_retries 0 ctx w) as [[v|e] w1] eqn:Hexec.
    + apply (execute_stage t p st _ Hcp _ _ _ w w _ _ (quiet_refl w)) in Hexec.
      destruct (stage_post_db _ _ _ _ _ _ _ id row Hexec Hid Hrow)
        as (Hv & row1 & Hdb1 & Hsame1 & Hp1 & Hlog1).
      assert (Hrow1 : db w1 !! id = Some row1) by (rewrite Hdb1; apply lookup_insert_eq).
      specialize (IH v w1 id row1 ltac:(congruence) Hne Hrow1).
      destruct (chain ts v w1) as [[c'|e] w'].
      * destruct IH as (Hc' & row' & Hdb & Hsame & Hp & Hlog). split; [exact Hc'|].
        exists row'. rewrite Hdb, Hdb1, insert_insert_eq, Hlog, Hlog1, Hp, Hp1.
        rewrite last_cons_default, <- app_assoc.
        eauto using same_identity_trans.
      * destruct IH as (k & row' & Hk & Hdb & Hsame & Hst & Hmsg & Hp & Hlog).
        exists (S k), row'. cbn [length take].
        rewrite Hdb, Hdb1, insert_insert_eq, Hlog, Hlog1, Hp, Hp1.
        rewrite last_cons_default, <- app_assoc.
        split; [lia|]. split; [reflexivity|].
        split; [eauto using same_identity_trans|]. auto.
    + destruct (execute_failure t p st _ Hcp _ _ _ w w _ _ (quiet_refl w) Hexec)
        as (w1' & Hq & ->).
      destruct (failure_db e ctx w w1' id row Hq Hid Hne Hrow) as (Hdb & Hlog).
      exists O, (failed_row row e). cbn [length take List.last app].
      split; [lia|]. split; [exact Hdb|]. split; [repeat split|].
      repeat split. exact Hlog.
Qed.

(** A delivery that returns has run its body to the end once, from a
    world without further writes. *)
Lemma execute_returned {R} (t : Task R) p st (Q : Ctx -> R -> Prop) :
  (forall ctx w, stage_from p st ctx (Q ctx) w (task_run t ctx)) ->
  forall remaining r ctx w0 w v w',
    quiet w0 w ->
    execute t remaining r ctx w = (Return v, w') ->
    exists w1, quiet w0 w1 /\ task_run t ctx w1 = (Return v, w').
Proof.
  intros Hbody remaining. induction remaining as [|k IH]; intros r ctx w0 w v w' Hq;
    cbn [execute];
    pose proof (quiet_trans _ _ _ Hq (quiet_log_invoke (task_name t) r w)) as Hq1;
    pose proof (Hbody ctx w0 _ Hq1) as Hpost;
    destruct (task_run t ctx (log (EvInvoke (task_name t) r) w)) as [[a|e1] w1] eqn:Hrun;
    try (intros [= <- <-]; eauto); cbn [stage_post] in Hpost.
  - destruct (autoretry_for (exc_class e1)); discriminate.
  - destruct (autoretry_for (exc_class e1)); [|discriminate].
    apply IH. eapply quiet_trans; [exact Hpost | apply quiet_log_retry].
Qed.

Lemma finalize_success_inv cfg ctx w out w' :
  finalize_success cfg ctx w = (Return out, w') ->
  exists id,
    ctx_media_task_id ctx = Some id
    /\ w' = snd (update_media_row id (Some "completed"%string) (Some 100) (Some out)
                   None None w).
Proof.
  unfold finalize_success, bind, getitem.
  destruct (ctx_thumbnail_url ctx); [|discriminate].
  destruct (ctx_uploaded ctx); [|discriminate].
  destruct (ctx_media_task_id ctx) as [id|]; [|discriminate].
  cbn [ret]. rewrite update_media_row_eta. intros [= <- <-]. eauto.
Qed.

(** How a run of the whole chain ends. *)
Lemma run_chain_outcome cfg ctx w id row :
  ctx_media_task_id ctx = Some id -> id <> ""%string ->
  db w !! id = Some row ->
  match run_chain cfg ctx w with
  | (Return out, w') =>
      exists row',
        db w' = <[id := row']> (db w)
        /\ same_identity row row'
        /\ status row' = "completed"%string /\ progress row' = 100 /\ outputs row' = out
        /\ progress_commits id (trace w')
           = progress_commits id (trace w) ++ checkpoints ++ [100]
  | (Raise e, w') =>
      exists k row',
        (k <= length checkpoints)%nat
        /\ db w' = <[id := row']> (db w)
        /\ same_identity row row'
        /\ status row' = "failed"%string
        /\ error_message row' = Some (exc_str e)
        /\ progress row' = List.last (take k checkpoints) (progress row)
        /\ progress_commits id (trace w')
           = progress_commits id (trace w) ++ take k checkpoints ++ [progress row']
  end.
Proof.
  intros Hid Hne Hrow. unfold run_chain, finish_chain, bind.
  pose proof (chain_outcome _ _ (pipeline_checkpoints cfg) ctx w id row Hid Hne Hrow) as Hch.
  destruct (chain (pipeline_stages cfg) ctx w) as [[c|e] w1].
  - destruct Hch as (Hc & row1 & Hdb1 & Hsame1 & Hp1 & Hlog1).
    assert (Hrow1 : db w1 !! id = Some row1) by (rewrite Hdb1; apply lookup_insert_eq).
    unfold apply_task.
    destruct (execute (finalize_success_task cfg) max_retries 0 c w1) as [[out|e] w'] eqn:Hexec.
    + destruct (execute_returned (finalize_success_task cfg) 100 (Some "completed"%string)
                  (fun _ _ => True) (checkpoint_finalize cfg) _ _ _ w1 w1 _ _
                  (quiet_refl w1) Hexec) as (w2 & Hq & Hrun).
      destruct (finalize_success_inv cfg _ _ _ _ Hrun) as (id' & Hid' & ->).
      assert (id' = id) as -> by congruence.
      assert (Hrow2 : db w2 !! id = Some row1) by (destruct Hq as [-> _]; exact Hrow1).
      rewrite (update_media_row_present _ _ _ _ _ _ _ _ Hrow2).
      cbn [snd db trace log set_db]. eexists.
      split; [destruct Hq as [-> _]; now rewrite Hdb1, insert_insert_eq|].
      split; [exact Hsame1|].
      do 3 (split; [reflexivity|]).
      rewrite progress_commits_app, progress_commits_commit.
      rewrite (progress_commits_quiet _ _ _ Hq), Hlog1, <- app_assoc. reflexivity.
    + destruct (execute_failure (finalize_success_task cfg) 100 (Some "completed"%string)
                  (fun _ _ => True) (checkpoint_finalize cfg) _ _ _ w1 w1 _ _
                  (quiet_refl w1) Hexec) as (w2 & Hq & ->).
      destruct (failure_db e c w1 w2 id row1 Hq Hc Hne Hrow1) as (Hdb & Hlog).
      exists 5%nat, (failed_row row1 e). rewrite Hdb, Hdb1, insert_insert_eq, Hlog, Hlog1.
      cbn [length checkpoints]. rewrite <- app_assoc.
      split; [lia|]. split; [reflexivity|]. split; [exact Hsame1|].
      repeat split. exact Hp1.
  - destruct Hch as (k & row' & Hk & Hdb & Hsame & Hst & Hmsg & Hp & Hlog).
    exists k, row'. split; [|auto 10].
    change (length checkpoints) with 5%nat. cbn [length] in Hk. lia.
Qed.

(** X5: once its chain has run, a task is never left queued or
    processing: the row is completed at 100 with the outputs the chain
    returned, or failed with [str(exc)] of the exception that stopped the
    chain. *)
Theorem run_ends_terminal cfg ctx w id row res w' :
  run_chain cfg ctx w = (res, w') ->
  ctx_media_task_id ctx = Some id -> id <> ""%string ->
  db w !! id = Some row ->
  exists row',
    db w' !! id = Some row'
    /\ match res with
       | Return out =>
           status row' = "completed"%string /\ progress row' = 100 /\ outputs row' = out
       | Raise e =>
           status row' = "failed"%string /\ error_message row' = Some (exc_str e)
       end.
Proof.
  intros Hrun Hid Hne Hrow.
  pose proof (run_chain_outcome cfg ctx w id row Hid Hne Hrow) as H. rewrite Hrun in H.
  destruct res as [out|e].
  - destruct H as (row' & -> & _ & Hst & Hp & Hout & _). exists row'.
    split; [apply lookup_insert_eq | auto].
  - destruct H as (k & row' & _ & -> & _ & Hst & Hmsg & _). exists row'.
    split; [apply lookup_insert_eq | auto].
Qed.

Lemma run_ends_terminal_witness :
  let ctx := initial_ctx "t2" Examples.clip in
  let w := Examples.w_video [1; 1; 1; 1; 1; 1] in
  let e := {| exc_class := TransientProcessingError;
              exc_str := "Failed to generate video thumbnail" |} in
  exists row',
    db (snd (run_chain settings ctx w)) !! "t2" = Some row'
    /\ status row' = "failed"%string /\ error_message row' = Some (exc_str e).
Proof.
  intros ctx w e.
  apply (run_ends_terminal settings ctx w "t2"%string (Examples.row "alice" "queued" 0 None)
           (Raise e) (snd (run_chain settings ctx w))).
  - apply result_pair_eta. vm_compute. reflexivity.
  - reflexivity.
  - discriminate.
  - reflexivity.
Defined.

Lemma run_chain_row cfg ctx w id row :
  ctx_media_task_id ctx = Some id -> id <> ""%string ->
  db w !! id = Some row ->
  exists row',
    db (snd (run_chain cfg ctx w)) = <[id := row']> (db w)
    /\ same_identity row row'
    /\ Main.is_terminal (status row') = true.
Proof.
  intros Hid Hne Hrow.
  pose proof (run_chain_outcome cfg ctx w id row Hid Hne Hrow) as H.
  destruct (run_chain cfg ctx w) as [[out|e] w'].
  - destruct H as (row' & Hdb & Hsame & Hst & _). exists row'. now rewrite Hst.
  - destruct H as (k & row' & _ & Hdb & Hsame & Hst & _). exists row'. now rewrite Hst.
Qed.

(** X6: a run changes no row but the one of its task: every other row
    is as before, no row appears or disappears, and in its own row the
    columns [user_id], [original_filename], [celery_task_id] and
    [source_path] keep their values. *)
Theorem run_touches_one_row cfg ctx w id row :
  ctx_media_task_id ctx = Some id -> id <> ""%string ->
  db w !! id = Some row ->
  let w' := snd (run_chain cfg ctx w) in
  dom (db w') = dom (db w)
  /\ (forall id', id' <> id -> db w' !! id' = db w !! id')
  /\ exists row', db w' !! id = Some row' /\ same_identity row row'.
Proof.
  intros Hid Hne Hrow w'. subst w'.
  destruct (run_chain_row cfg ctx w id row Hid Hne Hrow) as (row' & -> & Hsame & _).
  split; [|split].
  - apply dom_insert_lookup_L. eauto.
  - intros id' Hne'. now apply lookup_insert_ne.
  - exists row'. split; [apply lookup_insert_eq | exact Hsame].
Qed.

Lemma run_touches_one_row_witness :
  let w' := snd (run_chain settings (initial_ctx "a1" Examples.source) Examples.w_busy) in
  dom (db w') = dom (db Examples.w_busy)
  /\ (forall id', id' <> "a1"%string -> db w' !! id' = db Examples.w_busy !! id')
  /\ exists row',
       db w' !! "a1" = Some row' /\ same_identity (Examples.row "alice" "queued" 0 None) row'.
Proof.
  apply (run_touches_one_row settings (initial_ctx "a1" Examples.source) Examples.w_busy
           "a1"%string (Examples.row "alice" "queued" 0 None)).
  - reflexivity.
  - discriminate.
  - reflexivity.
Defined.



Lemma update_media_row_absent id st pr out err th w :
  db w !! id = None -> update_media_row id st pr out err th w = (Return tt, w).
Proof. intros H. unfold update_media_row. now rewrite H. Qed.

Lemma on_failure_absent e ctx id w :
  ctx_media_task_id ctx = Some id -> db w !! id = None ->
  on_failure e [ctx] w = (Return tt, w).
Proof.
  intros Hid Hnone. unfold on_failure. rewrite Hid.
  destruct (String.eqb id ""); [reflexivity | now apply update_media_row_absent].
Qed.

Lemma execute_without_row {R} (t : Task R) p st (Q : Ctx -> R -> Prop) :
  (forall ctx w, stage_from p st ctx (Q ctx) w (task_run t ctx)) ->
  forall ctx w id,
    ctx_media_task_id ctx = Some id -> db w !! id = None ->
    quiet w (snd (apply_task t ctx w))
    /\ forall v, fst (apply_task t ctx w) = Return v -> Q ctx v.
Proof.
  intros Hbody ctx w id Hid Hnone. unfold apply_task.
  destruct (execute t max_retries 0 ctx w) as [[v|e] w'] eqn:Hexec; cbn [fst snd].
  - apply (execute_stage t p st _ Hbody _ _ _ w w _ _ (quiet_refl w)) in Hexec.
    destruct Hexec as (HQ & id' & out & th & w1 & Hid' & Hq & ->).
    assert (id' = id) as -> by congruence.
    rewrite update_media_row_absent by (destruct Hq as [-> _]; exact Hnone).
    split; [exact Hq|]. now intros ? [= <-].
  - destruct (execute_failure t p st _ Hbody _ _ _ w w _ _ (quiet_refl w) Hexec)
      as (w1 & Hq & ->).
    rewrite (on_failure_absent e ctx id) by (try destruct Hq as [-> _]; assumption).
    split; [exact Hq | discriminate].
Qed.

Lemma chain_without_row ps ts :
  Forall2 (fun p t => exists st, checkpoint p st t) ps ts ->
  forall ctx w id,
    ctx_media_task_id ctx = Some id -> db w !! id = None ->
    quiet w (snd (chain ts ctx w))
    /\ forall c, fst (chain ts ctx w) = Return c -> ctx_media_task_id c = Some id.
Proof.
  induction 1 as [|p t ps ts [st Hcp] _ IH]; intros ctx w id Hid Hnone.
  - cbn. split; [apply quiet_refl|]. now intros ? [= <-].
  - cbn [chain]. unfold bind.
    destruct (execute_without_row t p st _ Hcp ctx w id Hid Hnone) as (Hq & Hv).
    destruct (apply_task t ctx w) as [[v|e] w1]; cbn [fst snd] in *; [|split; [exact Hq|discriminate]].
    specialize (Hv v eq_refl).
    destruct (IH v w1 id ltac:(congruence) ltac:(destruct Hq as [-> _]; exact Hnone))
      as (Hq' & Hc).
    split; [eapply quiet_trans; eassumption | exact Hc].
Qed.

(** X8: the chain of a task that has no row, its id the canonical text
    of a UUID, leaves the table alone: no row is created or changed and no
    commit happens, whether the chain completes or fails. *)
Theorem run_without_row_records_nothing cfg ctx w id :
  canonical_uuid id = true ->
  ctx_media_task_id ctx = Some id ->
  db w !! id = None ->
  let w' := snd (run_chain cfg ctx w) in
  db w' = db w /\ commits (trace w') = commits (trace w).
Proof.
  intros _ Hid Hnone w'. subst w'. unfold run_chain, finish_chain, bind.
  destruct (chain_without_row _ _ (pipeline_checkpoints cfg) ctx w id Hid Hnone) as (Hq & Hc).
  destruct (chain (pipeline_stages cfg) ctx w) as [[c|e] w1]; cbn [fst snd] in *;
    [|exact Hq].
  specialize (Hc c eq_refl).
  destruct (execute_without_row (finalize_success_task cfg) 100 (Some "completed"%string)
              (fun _ _ => True) (checkpoint_finalize cfg) c w1 id Hc
              ltac:(destruct Hq as [-> _]; exact Hnone)) as (Hq' & _).
  destruct (apply_task (finalize_success_task cfg) c w1) as [r w2]; cbn [snd] in *.
  destruct r; eapply quiet_trans; eassumption.
Qed.

Lemma run_without_row_records_nothing_witness :
  let w := Examples.w_image in
  let w' := snd (run_chain settings (initial_ctx Examples.stray_id Examples.source) w) in
  db w' = db w /\ commits (trace w') = commits (trace w).
Proof.
  apply (run_without_row_records_nothing settings
           (initial_ctx Examples.stray_id Examples.source) Examples.w_image
           Examples.stray_id); reflexivity.
Defined.

(** The chain of the witness completes, although it records nothing. *)
Lemma unrecorded_run_completes :
  exists out,
    fst (run_chain settings (initial_ctx Examples.stray_id Examples.source) Examples.w_image)
    = Return out.
Proof. eexists. vm_compute. reflexivity. Qed.

End Outcomes.

(* ===================================================================== *)
(** ** The quota *)
(* ===================================================================== *)

Section Quota.
Import Laws.

Lemma active_count_insert_fresh user id x (d : gmap string MediaTask) :
  d !! id = None ->
  active_count user (<[id := x]> d) = active_count user d + slot user x.
Proof.
  intros Hnone. unfold active_count, slot. rewrite map_filter_insert. cbn [snd].
  destruct (is_active user x) eqn:Hact.
  - rewrite decide_True by reflexivity.
    rewrite map_size_insert_None by (apply map_lookup_filter_None_2; auto). lia.
  - rewrite decide_False by discriminate.
    rewrite delete_id by exact Hnone. lia.
Qed.

Lemma active_count_replace user id row x (d : gmap string MediaTask) :
  d !! id = Some row ->
  active_count user (<[id := x]> d) = active_count user d - slot user row + slot user x.
Proof.
  intros Hrow. rewrite <- (insert_delete_eq d).
  rewrite active_count_insert_fresh by apply lookup_delete_eq.
  rewrite <- (insert_delete_id d id row Hrow) at 2.
  rewrite active_count_insert_fresh by apply lookup_delete_eq. lia.
Qed.

Lemma slot_terminal user row : is_terminal (status row) = true -> slot user row = 0.
Proof.
  unfold slot, is_active, is_terminal. cbn [existsb]. intros H.
  destruct (String.eqb (user_id row) user); [|reflexivity]. cbn [andb].
  rewrite !orb_false_r in *.
  apply orb_true_iff in H as [H|H]; apply String.eqb_eq in H; rewrite H; reflexivity.
Qed.

(** X9: a chain that has run, completed or failed, gives the quota slot
    of its task back: every user's count of active tasks is the one
    before the run, less the slot the row held. *)
Theorem finished_run_frees_slot cfg ctx w id row user :
  ctx_media_task_id ctx = Some id -> id <> ""%string ->
  db w !! id = Some row ->
  active_count user (db (snd (run_chain cfg ctx w)))
  = active_count user (db w) - slot user row.
Proof.
  intros Hid Hne Hrow.
  destruct (run_chain_row cfg ctx w id row Hid Hne Hrow) as (row' & -> & _ & Hterm).
  rewrite (active_count_replace user id row row' _ Hrow).
  rewrite (slot_terminal user row' Hterm). lia.
Qed.

Lemma finished_run_frees_slot_witness :
  active_count "alice"
    (db (snd (run_chain settings (initial_ctx "a1" Examples.source) Examples.w_busy)))
  = active_count "alice" (db Examples.w_busy)
    - slot "alice" (Examples.row "alice" "queued" 0 None).
Proof.
  apply (finished_run_frees_slot settings (initial_ctx "a1" Examples.source) Examples.w_busy
           "a1"%string (Examples.row "alice" "queued" 0 None) "alice"%string).
  - reflexivity.
  - discriminate.
  - reflexivity.
Defined.

(** X10: admission keeps the quota: if no user holds more active tasks
    than the limit, none does after [upload_media], whatever its outcome;
    an accepted upload takes exactly one slot of its user and none of
    anybody else. *)
Theorem upload_media_keeps_quota cfg file user new_id async_id w :
  (forall u, active_count u (db w) <= max_active_tasks_per_user cfg) ->
  let res := upload_media cfg file user new_id async_id w in
  (forall u, active_count u (db (snd res)) <= max_active_tasks_per_user cfg)
  /\ (forall r, fst res = Return r ->
      forall u, active_count u (db (snd res))
                = active_count u (db w) + (if String.eqb user u then 1 else 0)).
Proof.
  intros Hinv res. subst res. unfold upload_media, bind, gets.
  destruct (Z.leb (max_active_tasks_per_user cfg) (active_count user (db w))) eqn:Hq.
  - cbn. split; [exact Hinv | discriminate].
  - destruct (db w !! new_id) as [taken|] eqn:Hnew.
    + rewrite bool_decide_eq_true_2 by eauto. cbn. split; [exact Hinv | discriminate].
    + rewrite bool_decide_eq_false_2 by (apply is_Some_None). cbn.
      apply Z.leb_gt in Hq.
      match goal with
      | |- context [<[new_id := ?row]> (db w)] =>
          assert (Hcount : forall u,
                     active_count u (<[new_id := row]> (db w))
                     = active_count u (db w) + (if String.eqb user u then 1 else 0))
      end.
      { intros u. rewrite active_count_insert_fresh by exact Hnew.
        unfold slot, is_active. cbn. now destruct (String.eqb user u). }
      split; [|intros _ _; exact (fun u => Hcount u)].
      intros u. rewrite Hcount. specialize (Hinv u).
      destruct (String.eqb user u) eqn:Hu; [|lia].
      apply String.eqb_eq in Hu. subst u. lia.
Qed.

Lemma active_count_le_size user (d : gmap string MediaTask) :
  active_count user d <= Z.of_nat (size d).
Proof.
  unfold active_count. apply inj_le, map_subseteq_size, map_filter_subseteq.
Qed.

Lemma upload_media_keeps_quota_witness :
  let res := upload_media settings Examples.photo "bob" "b2" "job-5" Examples.w_image in
  (forall u, active_count u (db (snd res)) <= max_active_tasks_per_user settings)
  /\ (forall r, fst res = Return r ->
      forall u, active_count u (db (snd res))
                = active_count u (db Examples.w_image) + (if String.eqb "bob" u then 1 else 0)).
Proof.
  apply (upload_media_keeps_quota settings Examples.photo "bob" "b2" "job-5" Examples.w_image).
  intros u. etransitivity; [apply active_count_le_size|]. vm_compute. discriminate.
Defined.

End Quota.

(* ===================================================================== *)
(** ** Validate *)
(* ===================================================================== *)

Section ValidateLaws.
Import Laws.

Lemma file_kind_spec path w :
  _file_kind path w
  = (match kind_of path with
     | Some kind => Return kind
     | None =>
         Raise {| exc_class := ValueError;
                  exc_str := ("Unsupported media format: "
                                ++ Py.lower (Py.path_suffix path))%string |}
     end, w).
Proof.
  unfold _file_kind, kind_of.
  destruct (existsb _ image_extensions); [reflexivity|].
  destruct (existsb _ video_extensions); reflexivity.
Qed.

Lemma kind_of_cases path kind :
  kind_of path = Some kind -> kind = "image"%string \/ kind = "video"%string.
Proof.
  unfold kind_of. destruct (existsb _ image_extensions); [intros [= <-]; auto|].
  destruct (existsb _ video_extensions); [intros [= <-]; auto | discriminate].
Qed.

(** X11: what validate guarantees to the later stages.  For an input
    path in ASCII and a task id that is the canonical text of a UUID: when
    validate returns, the input file exists and is not empty, the context
    is the incoming one with [kind] set to "image" or "video" (by the
    lower-cased extension) and [size_bytes] to the length of the file, and
    the only write is status processing at progress 10 for the task of
    the context. *)
Theorem validate_media_accepts cfg ctx w ctx' w' path id :
  ctx_input_path ctx = Some path ->
  ascii_text path = true ->
  ctx_media_task_id ctx = Some id ->
  canonical_uuid id = true ->
  validate_media cfg ctx w = (Return ctx', w') ->
  exists f kind,
    files w !! path = Some f
    /\ file_size f <> 0
    /\ kind_of path = Some kind
    /\ (kind = "image"%string \/ kind = "video"%string)
    /\ ctx' = set_kind_size kind (file_size f) ctx
    /\ w' = snd (update_media_row id (Some "processing"%string) (Some 10) None None None w).
Proof.
  intros Hpath _ Hid _.
  unfold validate_media, bind, getitem, gets. rewrite Hpath. cbn [ret].
  destruct (files w !! path) as [f|] eqn:Hfile;
    [rewrite bool_decide_eq_true_2 by eauto
    |rewrite bool_decide_eq_false_2 by apply is_Some_None; discriminate].
  cbn [negb]. rewrite file_kind_spec.
  destruct (kind_of path) as [kind|] eqn:Hkind; [|discriminate].
  rewrite Hfile. destruct (Z.eqb (file_size f) 0) eqn:Hsize; [discriminate|].
  cbn [set_kind_size ctx_media_task_id]. rewrite Hid. cbn [ret].
  rewrite update_media_row_eta. intros [= <- <-].
  exists f, kind. apply Z.eqb_neq in Hsize.
  repeat split; try assumption; try reflexivity. eapply kind_of_cases; eassumption.
Qed.

Lemma validate_media_accepts_witness :
  let ctx := initial_ctx Scenarios.task_uuid Examples.source in
  let w := Scenarios.w_uuid in
  exists f kind,
    files w !! Examples.source = Some f
    /\ file_size f <> 0
    /\ kind_of Examples.source = Some kind
    /\ (kind = "image"%string \/ kind = "video"%string)
    /\ set_kind_size "image" 2048 ctx = set_kind_size kind (file_size f) ctx
    /\ snd (validate_media settings ctx w)
       = snd (update_media_row Scenarios.task_uuid (Some "processing"%string) (Some 10)
                None None None w).
Proof.
  intros ctx w.
  apply (validate_media_accepts settings ctx w (set_kind_size "image" 2048 ctx)
           (snd (validate_media settings ctx w)) Examples.source Scenarios.task_uuid);
    [reflexivity | reflexivity | reflexivity | reflexivity |].
  apply result_pair_eta. vm_compute. reflexivity.
Defined.

(** X12: a source file that is not there is reported before anything
    else is looked at, whatever its extension: validate raises
    [ValueError("Uploaded source file does not exist")] and writes
    nothing. *)
Theorem validate_media_missing_file cfg ctx w path :
  ctx_input_path ctx = Some path ->
  files w !! path = None ->
  validate_media cfg ctx w
  = (Raise {| exc_class := ValueError; exc_str := "Uploaded source file does not exist" |}, w).
Proof.
  intros Hpath Hnone. unfold validate_media, bind, getitem, gets. rewrite Hpath.
  cbn [ret]. rewrite Hnone. now rewrite bool_decide_eq_false_2 by apply is_Some_None.
Qed.

Lemma validate_media_missing_file_witness :
  validate_media settings (initial_ctx "t1" Examples.notes) Examples.w_image
  = (Raise {| exc_class := ValueError; exc_str := "Uploaded source file does not exist" |},
     Examples.w_image).
Proof.
  apply (validate_media_missing_file settings _ _ Examples.notes); reflexivity.
Defined.

End ValidateLaws.

(* ===================================================================== *)
(** ** Runs that go through, and images that do not open *)
(* ===================================================================== *)

Section Runs.
Import Laws.

Lemma ready_log e w : ready (log e w) <-> ready w.
Proof. reflexivity. Qed.

Lemma update_media_row_tools id st pr out err th w :
  ffmpeg_rc (snd (update_media_row id st pr out err th w)) = ffmpeg_rc w
  /\ s3_script (snd (update_media_row id st pr out err th w)) = s3_script w
  /\ files (snd (update_media_row id st pr out err th w)) = files w.
Proof. unfold update_media_row. destruct (db w !! id); repeat split. Qed.

Lemma ready_update id st pr out err th w :
  ready w -> ready (snd (update_media_row id st pr out err th w)).
Proof.
  unfold ready. destruct (update_media_row_tools id st pr out err th w) as (-> & -> & _).
  auto.
Qed.

Lemma validate_media_ok cfg ctx w path f id kind :
  ctx_input_path ctx = Some path ->
  ctx_media_task_id ctx = Some id ->
  files w !! path = Some f ->
  kind_of path = Some kind ->
  file_size f <> 0 ->
  validate_media cfg ctx w
  = (Return (set_kind_size kind (file_size f) ctx),
     snd (update_media_row id (Some "processing"%string) (Some 10) None None None w)).
Proof.
  intros Hpath Hid Hfile Hkind Hsize.
  unfold validate_media, bind, getitem, gets. rewrite Hpath. cbn [ret].
  rewrite Hfile, bool_decide_eq_true_2 by eauto. cbn [negb].
  rewrite file_kind_spec, Hkind, Hfile.
  apply Z.eqb_neq in Hsize. rewrite Hsize.
  cbn [set_kind_size ctx_media_task_id]. rewrite Hid. cbn [ret].
  now rewrite update_media_row_eta.
Qed.

Lemma subprocess_run_ok cmd w : ffmpeg_rc w = [] -> subprocess_run cmd w = (Return 0, w).
Proof. intros H. unfold subprocess_run. now rewrite H. Qed.

Lemma generate_thumbnail_video cfg ctx w source id :
  ctx_input_path ctx = Some source ->
  ctx_kind ctx = Some "video"%string ->
  ctx_media_task_id ctx = Some id ->
  ffmpeg_rc w = [] ->
  let thumb :=
    Py.path_join (media_thumb_dir cfg) (Py.path_stem source ++ "_thumb.jpg")%string in
  generate_thumbnail cfg ctx w
  = (Return (set_thumbnail_path thumb ctx),
     snd (update_media_row id None (Some 25) None None (Some thumb)
            (set_files (<[thumb := Artifact]> (files w)) w))).
Proof.
  intros Hsrc Hkind Hid Hrc thumb.
  unfold generate_thumbnail, bind, getitem. rewrite Hsrc, Hkind. cbn [ret].
  change (String.eqb "video" "image") with false. cbv beta iota.
  rewrite subprocess_run_ok by exact Hrc.
  change (negb (Z.eqb 0 0)) with false. cbv beta iota.
  unfold write_file, modify. cbn [set_thumbnail_path ctx_media_task_id]. rewrite Hid.
  cbn [ret]. now rewrite update_media_row_eta.
Qed.

Lemma convert_one_video cfg ctx source label width w :
  ctx_kind ctx = Some "video"%string ->
  ffmpeg_rc w = [] ->
  convert_one cfg ctx source (label, width) w
  = (Return {| i_label := label; i_path := variant_path cfg source label |},
     set_files (<[variant_path cfg source label := Artifact]> (files w)) w).
Proof.
  intros Hkind Hrc. unfold convert_one, bind, getitem. rewrite Hkind. cbn [ret fst snd].
  change (String.eqb "video" "image") with false. cbv beta iota.
  rewrite subprocess_run_ok by exact Hrc.
  change (negb (Z.eqb 0 0)) with false. reflexivity.
Qed.

Lemma convert_resolutions_video cfg ctx w source id :
  ctx_input_path ctx = Some source ->
  ctx_kind ctx = Some "video"%string ->
  ctx_media_task_id ctx = Some id ->
  ready w ->
  exists items w',
    convert_resolutions cfg ctx w = (Return (set_converted items ctx), w')
    /\ map i_label items = ["1080p"; "720p"; "480p"]%string
    /\ ready w'.
Proof.
  intros Hsrc Hkind Hid [Hrc Hs3].
  unfold convert_resolutions, resolutions, bind. rewrite Hsrc. cbn [getitem ret for_each].
  unfold bind.
  rewrite !convert_one_video by (try exact Hkind; exact Hrc).
  cbn [ret set_converted ctx_media_task_id]. rewrite Hid. cbn [getitem ret].
  rewrite update_media_row_eta. eexists _, _. split; [reflexivity|].
  split; [reflexivity|]. apply ready_update. split; [exact Hrc | exact Hs3].
Qed.

Lemma watermark_video ctx items : forall w,
  ctx_kind ctx = Some "video"%string ->
  ready w ->
  exists marked w',
    for_each (watermark_one ctx) items w = (Return marked, w')
    /\ map i_label marked = map i_label items
    /\ ready w'.
Proof.
  induction items as [|item items IH]; intros w Hkind Hready.
  - exists [], w. split; [reflexivity|]. split; [reflexivity | exact Hready].
  - cbn [for_each]. unfold bind at 1. unfold watermark_one at 1.
    unfold bind, getitem. rewrite Hkind. cbn [ret].
    change (String.eqb "video" "image") with false. cbv beta iota.
    rewrite subprocess_run_ok by apply Hready.
    change (negb (Z.eqb 0 0)) with false. cbv beta iota.
    unfold write_file, modify, ret. cbv beta iota.
    match goal with
    | |- context [for_each (watermark_one ctx) items ?w1] =>
        destruct (IH w1 Hkind Hready) as (marked & w' & -> & Hlabels & Hready')
    end.
    eexists _, _. split; [reflexivity|]. split; [|exact Hready'].
    cbn [map i_label]. now rewrite Hlabels.
Qed.

Lemma apply_watermark_video cfg ctx w items id :
  ctx_converted ctx = Some items ->
  ctx_kind ctx = Some "video"%string ->
  ctx_media_task_id ctx = Some id ->
  ready w ->
  exists marked w',
    apply_watermark cfg ctx w = (Return (set_watermarked marked ctx), w')
    /\ map i_label marked = map i_label items
    /\ ready w'.
Proof.
  intros Hitems Hkind Hid Hready.
  unfold apply_watermark, bind, getitem. rewrite Hitems. cbn [ret].
  destruct (watermark_video ctx items w Hkind Hready) as (marked & w1 & -> & Hlabels & Hready1).
  cbn [set_watermarked ctx_media_task_id]. rewrite Hid. cbn [ret].
  rewrite update_media_row_eta. eexists _, _. split; [reflexivity|].
  split; [exact Hlabels | now apply ready_update].
Qed.

Lemma published_items_labels cfg id items script :
  map u_label (published_items cfg id items script) = map i_label items.
Proof.
  revert script. induction items as [|it items IH]; intros script; [reflexivity|].
  cbn [published_items map u_label]. now rewrite IH.
Qed.

Lemma finalize_success_returns cfg ctx w thumb ups id :
  ctx_thumbnail_url ctx = Some thumb ->
  ctx_uploaded ctx = Some ups ->
  ctx_media_task_id ctx = Some id ->
  let out := MkOutputs thumb (map (fun x => {| v_label := u_label x; v_url := u_url x |}) ups) in
  finalize_success cfg ctx w
  = (Return out,
     snd (update_media_row id (Some "completed"%string) (Some 100) (Some out) None None w)).
Proof.
  intros Hthumb Hups Hid out. unfold finalize_success, bind, getitem.
  rewrite Hthumb, Hups, Hid. cbn [ret]. now rewrite update_media_row_eta.
Qed.

Lemma finish_chain_nil cfg ctx w :
  finish_chain cfg [] ctx w = apply_task (finalize_success_task cfg) ctx w.
Proof. reflexivity. Qed.

Lemma video_extension_is_not_image path :
  existsb (String.eqb (Py.lower (Py.path_suffix path))) video_extensions = true ->
  kind_of path = Some "video"%string.
Proof.
  unfold kind_of, video_extensions. cbn [existsb]. intros H. rewrite !orb_true_iff in H.
  destruct H as [H|[H|[H|[H|H]]]]; try discriminate;
    rewrite H; apply String.eqb_eq in H; rewrite H; reflexivity.
Qed.

(** X13: a video goes through.  For every non-empty file with a video
    extension whose task has a row, if every ffmpeg call returns 0 and the
    storage only fails with the errors it is allowed to, the chain
    returns outputs with the three variants 1080p, 720p and 480p in this
    order, and the row ends completed at 100 with these outputs. *)
Theorem video_run_completes cfg id path w row f :
  id <> ""%string ->
  db w !! id = Some row ->
  files w !! path = Some f ->
  file_size f <> 0 ->
  existsb (String.eqb (Py.lower (Py.path_suffix path))) video_extensions = true ->
  ffmpeg_rc w = [] ->
  Forall (fun r => benign r = true) (s3_script w) ->
  exists thumb variants w',
    run_chain cfg (initial_ctx id path) w = (Return (MkOutputs thumb variants), w')
    /\ map v_label variants = ["1080p"; "720p"; "480p"]%string
    /\ (status <$> db w' !! id) = Some "completed"%string
    /\ (progress <$> db w' !! id) = Some 100
    /\ (outputs <$> db w' !! id) = Some (MkOutputs thumb variants).
Proof.
  intros Hne Hrow Hfile Hsize Hext Hrc Hs3.
  assert (Hrun : exists thumb variants w',
             run_chain cfg (initial_ctx id path) w = (Return (MkOutputs thumb variants), w')
             /\ map v_label variants = ["1080p"; "720p"; "480p"]%string).
  { unfold run_chain, pipeline_stages.
    (* validate *)
    erewrite finish_chain_cons; cycle 1.
    { apply execute_returns.
      apply (validate_media_ok cfg _ _ path f id "video"); auto using video_extension_is_not_image. }
    set (w1 := snd (update_media_row id _ _ _ _ _ (log _ w))).
    assert (Hready1 : ready w1) by (apply ready_update; split; assumption).
    (* thumbnail *)
    erewrite finish_chain_cons; cycle 1.
    { apply execute_returns.
      apply (generate_thumbnail_video cfg _ _ path id); try reflexivity. apply Hready1. }
    set (c2 := set_thumbnail_path _ _).
    set (w2 := snd (update_media_row id None (Some 25) _ _ _ _)).
    assert (Hready2 : ready w2) by (apply ready_update; exact Hready1).
    (* convert *)
    destruct (convert_resolutions_video cfg c2 (log (EvInvoke "app.tasks.convert_resolutions" 0) w2)
                path id eq_refl eq_refl eq_refl Hready2) as (items & w3 & Hconv & Hlab3 & Hready3).
    erewrite finish_chain_cons by (apply execute_returns; exact Hconv).
    (* watermark *)
    destruct (apply_watermark_video cfg (set_converted items c2)
                (log (EvInvoke "app.tasks.apply_watermark" 0) w3) items id
                eq_refl eq_refl eq_refl Hready3) as (marked & w4 & Hwm & Hlab4 & Hready4).
    erewrite finish_chain_cons by (apply execute_returns; exact Hwm).
    (* publish *)
    erewrite finish_chain_cons; cycle 1.
    { apply execute_returns.
      apply (upload_outputs_benign cfg _ id marked); try reflexivity. apply Hready4. }
    (* finalize *)
    rewrite finish_chain_nil. unfold apply_task.
    erewrite execute_returns; cycle 1.
    { eapply (finalize_success_returns cfg); reflexivity. }
    eexists _, _, _. split; [reflexivity|].
    rewrite map_map. cbn [v_label]. rewrite published_items_labels. congruence. }
  destruct Hrun as (thumb & variants & w' & Hrun & Hlabels).
  exists thumb, variants, w'. split; [exact Hrun|]. split; [exact Hlabels|].
  pose proof (run_chain_outcome cfg (initial_ctx id path) w id row eq_refl Hne Hrow) as H.
  rewrite Hrun in H. destruct H as (row' & -> & _ & Hst & Hp & Hout & _).
  rewrite lookup_insert_eq. cbn. now rewrite Hst, Hp, Hout.
Qed.

Lemma video_run_completes_witness :
  exists thumb variants w',
    run_chain settings (initial_ctx "t2" Examples.clip) (Examples.w_video [])
    = (Return (MkOutputs thumb variants), w')
    /\ map v_label variants = ["1080p"; "720p"; "480p"]%string
    /\ (status <$> db w' !! "t2") = Some "completed"%string
    /\ (progress <$> db w' !! "t2") = Some 100
    /\ (outputs <$> db w' !! "t2") = Some (MkOutputs thumb variants).
Proof.
  apply (video_run_completes settings "t2" Examples.clip (Examples.w_video [])
           (Examples.row "alice" "queued" 0 None) (Upload 4096 None)).
  - discriminate.
  - reflexivity.
  - reflexivity.
  - discriminate.
  - reflexivity.
  - reflexivity.
  - constructor.
Defined.

Lemma generate_thumbnail_undecodable cfg ctx w source f :
  ctx_input_path ctx = Some source ->
  ctx_kind ctx = Some "image"%string ->
  files w !! source = Some f ->
  file_pixels f = None ->
  generate_thumbnail cfg ctx w
  = (Raise {| exc_class := OSError;
              exc_str := ("cannot identify image file " ++ Py.repr source)%string |}, w).
Proof.
  intros Hsrc Hkind Hfile Hpx.
  unfold generate_thumbnail, bind, getitem. rewrite Hsrc, Hkind. cbn [ret].
  change (String.eqb "image" "image") with true. cbv beta iota.
  unfold image_open. now rewrite Hfile, Hpx.
Qed.

(** X14: validation looks at the name and the length only.  A non-empty
    file with an image extension that PIL cannot decode passes validate
    (progress 10) and fails the task at the thumbnail stage: the [OSError]
    that PIL raises is not retried, the row ends failed at progress 10
    with [str] of that error as its message, and no later stage runs. *)
Theorem undecodable_image_fails_at_thumbnail cfg id path w row f :
  id <> ""%string ->
  db w !! id = Some row ->
  files w !! path = Some f ->
  file_size f <> 0 ->
  kind_of path = Some "image"%string ->
  file_pixels f = None ->
  exists w' row' msg,
    run_chain cfg (initial_ctx id path) w
    = (Raise {| exc_class := OSError; exc_str := msg |}, w')
    /\ autoretry_for OSError = false
    /\ db w' = <[id := row']> (db w)
    /\ status row' = "failed"%string
    /\ progress row' = 10
    /\ error_message row' = Some msg
    /\ invocations (trace w')
       = invocations (trace w)
           ++ [("app.tasks.validate_media"%string, O); ("app.tasks.generate_thumbnail"%string, O)]
    /\ retries_scheduled (trace w') = retries_scheduled (trace w).
Proof.
  intros Hne Hrow Hfile Hsize Hkind Hpx.
  unfold run_chain, pipeline_stages.
  erewrite finish_chain_cons; cycle 1.
  { apply execute_returns.
    apply (validate_media_ok cfg _ _ path f id "image"); auto. }
  cbn [task_name validate_media_task].
  rewrite (update_media_row_present id row) by exact Hrow. cbn [snd].
  erewrite finish_chain_fails; cycle 1.
  { unfold apply_task. apply execute_permanent.
    - apply (generate_thumbnail_undecodable cfg _ _ path f); try reflexivity; assumption.
    - reflexivity. }
  erewrite on_failure_present;
    [|reflexivity|exact Hne|cbn [db log set_db]; apply lookup_insert_eq].
  cbn [snd]. eexists _, _, _. split; [reflexivity|]. split; [reflexivity|].
  cbn [db trace log set_db]. rewrite insert_insert_eq.
  split; [reflexivity|]. do 3 (split; [reflexivity|]).
  rewrite <- !app_assoc, invocations_app, retries_scheduled_app.
  split; [reflexivity | apply app_nil_r].
Qed.

Lemma undecodable_image_fails_at_thumbnail_witness :
  exists w' row' msg,
    run_chain settings (initial_ctx "t1" Scenarios.fake) Scenarios.w_fake
    = (Raise {| exc_class := OSError; exc_str := msg |}, w')
    /\ autoretry_for OSError = false
    /\ db w' = <["t1"%string := row']> (db Scenarios.w_fake)
    /\ status row' = "failed"%string
    /\ progress row' = 10
    /\ error_message row' = Some msg
    /\ invocations (trace w')
       = invocations (trace Scenarios.w_fake)
           ++ [("app.tasks.validate_media"%string, O); ("app.tasks.generate_thumbnail"%string, O)]
    /\ retries_scheduled (trace w') = retries_scheduled (trace Scenarios.w_fake).
Proof.
  apply (undecodable_image_fails_at_thumbnail settings "t1" Scenarios.fake Scenarios.w_fake
           (Examples.row "alice" "queued" 0 None) (Upload 120 None)).
  - discriminate.
  - reflexivity.
  - reflexivity.
  - discriminate.
  - reflexivity.
  - reflexivity.
Defined.

End Runs.

(* ===================================================================== *)
(** ** Paths *)
(* ===================================================================== *)

Section Paths.
Import Py.

Lemma string_length_app (a b : string) :
  String.length (a ++ b)%string = (String.length a + String.length b)%nat.
Proof.
  induction a as [|c a IH]; [reflexivity|].
  change (String c a ++ b)%string with (String c (a ++ b)%string).
  cbn [String.length]. now rewrite IH.
Qed.

Lemma string_app_inv_head (a b c : string) : (a ++ b)%string = (a ++ c)%string -> b = c.
Proof.
  induction a as [|x a IH]; [exact (fun H => H)|].
  change (String x a ++ b)%string with (String x (a ++ b)%string).
  change (String x a ++ c)%string with (String x (a ++ c)%string).
  intros [= H]. now apply IH.
Qed.

Lemma substring_all (s : string) : String.substring 0 (String.length s) s = s.
Proof.
  induction s as [|c s IH]; [reflexivity|]. cbn. now rewrite IH.
Qed.

Lemma drop_str_0 (s : string) : drop_str 0 s = s.
Proof.
  unfold drop_str. rewrite Nat.sub_0_r. apply substring_all.
Qed.

Lemma drop_str_S i c (s : string) : drop_str (S i) (String c s) = drop_str i s.
Proof. reflexivity. Qed.

Lemma take_drop i (s : string) : (take_str i s ++ drop_str i s)%string = s.
Proof.
  revert i. induction s as [|c s IH]; intros [|i]; try reflexivity.
  - rewrite drop_str_0. reflexivity.
  - rewrite drop_str_S. unfold take_str. cbn [String.substring].
    change (String c (String.substring 0 i s) ++ drop_str i s)%string
      with (String c (take_str i s ++ drop_str i s)%string).
    now rewrite IH.
Qed.

Lemma rfind_app c (a b : string) :
  rfind c (a ++ b)%string
  = match rfind c b with
    | Some i => Some (String.length a + i)%nat
    | None => rfind c a
    end.
Proof.
  induction a as [|x a IH].
  - change (EmptyString ++ b)%string with b. now destruct (rfind c b).
  - change (String x a ++ b)%string with (String x (a ++ b)%string).
    cbn [rfind String.length]. rewrite IH.
    destruct (rfind c b); [reflexivity|]. reflexivity.
Qed.

Lemma rfind_drop c (s : string) i : rfind c s = Some i -> rfind c (drop_str (S i) s) = None.
Proof.
  revert i. induction s as [|a s IH]; intros i; [discriminate|].
  cbn [rfind]. rewrite drop_str_S.
  destruct (rfind c s) as [j|] eqn:Hj.
  - intros [= <-]. now apply IH.
  - destruct (Ascii.eqb a c); [|discriminate].
    intros [= <-]. now rewrite drop_str_0.
Qed.

Lemma rfind_split c (s : string) i :
  rfind c s = Some i -> s = (take_str i s ++ String c (drop_str (S i) s))%string.
Proof.
  revert i. induction s as [|a s IH]; intros i; [discriminate|].
  cbn [rfind]. destruct (rfind c s) as [j|] eqn:Hj.
  - intros [= <-]. rewrite drop_str_S. unfold take_str. cbn [String.substring].
    change (String a (String.substring 0 j s) ++ String c (drop_str (S j) s))%string
      with (String a (take_str j s ++ String c (drop_str (S j) s))%string).
    now rewrite <- IH.
  - destruct (Ascii.eqb a c) eqn:Hc; [|discriminate].
    intros [= <-]. apply Ascii.eqb_eq in Hc. subst a.
    rewrite drop_str_S, drop_str_0. reflexivity.
Qed.

Lemma rfind_cons_none c a r :
  rfind c (String a r) = None <-> Ascii.eqb a c = false /\ rfind c r = None.
Proof.
  cbn [rfind]. destruct (rfind c r), (Ascii.eqb a c); split;
    try discriminate; try (intros [? ?]; discriminate); auto.
Qed.

Lemma split_nonempty sep s : split sep s <> [].
Proof.
  destruct s as [|c r]; cbn [split]; [discriminate|].
  destruct (Ascii.eqb c sep); [discriminate|]. destruct (split sep r); discriminate.
Qed.

Lemma split_no_sep sep s : Forall (fun p => rfind sep p = None) (split sep s).
Proof.
  induction s as [|c r IH]; [repeat constructor|].
  cbn [split]. destruct (Ascii.eqb c sep) eqn:Hc; [constructor; [reflexivity | exact IH]|].
  destruct (split sep r) as [|p ps].
  - repeat constructor. now apply rfind_cons_none.
  - apply Forall_cons_1 in IH as [Hp Hps]. constructor; [|exact Hps].
    now apply rfind_cons_none.
Qed.

Lemma split_clean sep a : rfind sep a = None -> split sep a = [a].
Proof.
  induction a as [|c r IH]; [reflexivity|].
  intros H. apply rfind_cons_none in H as [Hc Hr].
  cbn [split]. now rewrite Hc, IH.
Qed.

Lemma split_app_sep sep a b :
  split sep (a ++ String sep b)%string = split sep a ++ split sep b.
Proof.
  induction a as [|c r IH].
  - change (EmptyString ++ String sep b)%string with (String sep b).
    cbn [split]. now rewrite Ascii.eqb_refl.
  - change (String c r ++ String sep b)%string with (String c (r ++ String sep b)%string).
    cbn [split]. rewrite IH. destruct (Ascii.eqb c sep); [reflexivity|].
    pose proof (split_nonempty sep r) as Hne.
    destruct (split sep r) as [|p ps]; [congruence | reflexivity].
Qed.

Lemma split_app sep a b :
  rfind sep a = None -> split sep (a ++ String sep b)%string = a :: split sep b.
Proof.
  intros Ha. now rewrite split_app_sep, (split_clean sep a Ha).
Qed.

Lemma last_Forall {A} (P : A -> Prop) (l : list A) d :
  Forall P l -> P d -> P (List.last l d).
Proof.
  intros Hl Hd. induction Hl as [|x l Hx Hl IH]; [exact Hd|].
  destruct l; [exact Hx | exact IH].
Qed.

Lemma Forall_list_filter {A} (P : A -> Prop) (keep : A -> bool) (l : list A) :
  Forall P l -> Forall P (List.filter keep l).
Proof.
  induction 1 as [|x l Hx _ IH]; [constructor|].
  cbn [List.filter]. destruct (keep x); [constructor; assumption | exact IH].
Qed.

(** The final component of a path holds no separator. *)
Lemma path_name_no_separator p : rfind "/" (path_name p) = None.
Proof.
  unfold path_name, path_parts.
  apply last_Forall; [|reflexivity]. apply Forall_list_filter, split_no_sep.
Qed.

Lemma path_parts_plain name :
  rfind "/" name = None -> name <> ""%string -> name <> "."%string ->
  path_parts name = [name].
Proof.
  intros Hsep Hempty Hdot. unfold path_parts. rewrite (split_clean _ _ Hsep).
  cbn [List.filter]. apply String.eqb_neq in Hempty, Hdot. now rewrite Hempty, Hdot.
Qed.

(** The name of [dir / name] is [name], for a single component. *)
Lemma path_name_join dir name :
  rfind "/" name = None -> name <> ""%string -> name <> "."%string ->
  path_name (path_join dir name) = name.
Proof.
  intros Hsep Hempty Hdot. unfold path_name, path_join.
  change ("/" ++ name)%string with (String "/" name).
  unfold path_parts at 1. rewrite split_app_sep, List.filter_app.
  fold (path_parts name). rewrite (path_parts_plain name) by assumption.
  apply List.last_last.
Qed.

(** The text after the last "/" is the name, unless it is empty or ".". *)
Lemma path_name_tail p :
  let tail := match rfind "/" p with
              | Some i => drop_str (S i) p
              | None => p
              end in
  tail = ""%string \/ tail = "."%string \/ path_name p = tail.
Proof.
  cbv zeta. destruct (rfind "/" p) as [i|] eqn:Hfind.
  - destruct (String.eqb_spec (drop_str (S i) p) ""); [now left|].
    destruct (String.eqb_spec (drop_str (S i) p) "."); [now right; left|].
    right; right.
    transitivity (path_name (path_join (take_str i p) (drop_str (S i) p))).
    + f_equal. now apply rfind_split.
    + apply path_name_join; [now apply rfind_drop | assumption | assumption].
  - destruct (String.eqb_spec p ""); [now left|].
    destruct (String.eqb_spec p "."); [now right; left|].
    right; right. unfold path_name. now rewrite path_parts_plain.
Qed.

Lemma stem_suffix p : (path_stem p ++ path_suffix p)%string = path_name p.
Proof.
  unfold path_stem, path_suffix. cbv zeta.
  destruct (suffix_index (path_name p)) as [i|].
  - apply take_drop.
  - generalize (path_name p). intros s. induction s as [|c s IH]; [reflexivity|].
    change (String c s ++ "")%string with (String c (s ++ "")%string). now rewrite IH.
Qed.

Lemma path_with_name_ne p n :
  (2 <= String.length n)%nat -> n <> path_name p -> path_with_name p n <> p.
Proof.
  intros Hlen Hne. pose proof (path_name_tail p) as Htail. cbv zeta in Htail.
  unfold path_with_name. destruct (rfind "/" p) as [i|].
  - intros Heq.
    assert (Hn : n = drop_str (S i) p).
    { apply (string_app_inv_head (take_str (S i) p)). now rewrite take_drop. }
    rewrite <- Hn in Htail. destruct Htail as [Heq'| [Heq'|Hname]];
      [rewrite Heq' in Hlen; cbn in Hlen; lia | rewrite Heq' in Hlen; cbn in Hlen; lia
      | congruence].
  - intros Heq. subst p. destruct Htail as [Heq| [Heq|Hname]];
      [rewrite Heq in Hlen; cbn in Hlen; lia | rewrite Heq in Hlen; cbn in Hlen; lia |].
    now apply Hne.
Qed.

Lemma marked_name_differs stem mark suffix :
  mark <> ""%string -> (stem ++ mark ++ suffix)%string <> (stem ++ suffix)%string.
Proof.
  intros Hmark Heq. apply string_app_inv_head in Heq.
  apply (f_equal String.length) in Heq. rewrite string_length_app in Heq.
  destruct mark; [congruence|]. cbn [String.length] in Heq. lia.
Qed.

End Paths.

(* ===================================================================== *)
(** ** Intake and status *)
(* ===================================================================== *)

Section Intake.
Import Query.

Lemma upload_media_accepted cfg file user new_id async_id w resp w' :
  upload_media cfg file user new_id async_id w = (Return resp, w') ->
  let safe_name :=
    Py.path_name (match filename file with
                  | Some n => if String.eqb n "" then "upload.bin"%string else n
                  | None => "upload.bin"%string
                  end) in
  let placed := Py.path_join (media_input_dir cfg) (new_id ++ "_" ++ safe_name)%string in
  db w !! new_id = None
  /\ resp = {| r_task_id := new_id; r_celery_id := async_id; r_status := "queued" |}
  /\ files w' = <[placed := Upload (content_length file) (content_pixels file)]> (files w)
  /\ queue w' = queue w ++ [(async_id, initial_ctx new_id placed)]
  /\ db w' = <[new_id := {| user_id := user; original_filename := safe_name;
                            status := "queued"; progress := 0;
                            celery_task_id := Some async_id; source_path := placed;
                            thumbnail_path := None; outputs := EmptyOutputs;
                            error_message := None |}]> (db w).
Proof.
  unfold upload_media, bind, gets.
  destruct (Z.leb (max_active_tasks_per_user cfg) (active_count user (db w)));
    [discriminate|].
  destruct (db w !! new_id) as [taken|] eqn:Hnew.
  - rewrite bool_decide_eq_true_2 by eauto. discriminate.
  - rewrite bool_decide_eq_false_2 by (apply is_Some_None).
    cbn -[Py.path_name Py.path_join]. intros [= <- <-].
    cbn -[Py.path_name Py.path_join]. repeat split; reflexivity.
Qed.

(** X15: where an accepted upload lands.  The stored name is the last
    path component of the client's file name, "upload.bin" standing in for
    a missing or empty one: for a client name [dir/base] with a single
    component [base] it is [base], for a client name without "/" it is
    that name, and it never holds a "/".  The bytes are written to
    [<input dir>/<id>_<stored name>], the row records that name and that
    path, and the chain is queued on that path.  When the id holds no "/"
    (a UUID does not), the file is a direct child of the input directory
    whatever the client sent. *)
Theorem upload_media_places_file cfg file user new_id async_id w resp w' :
  upload_media cfg file user new_id async_id w = (Return resp, w') ->
  let client_name :=
    match filename file with
    | Some n => if String.eqb n "" then "upload.bin"%string else n
    | None => "upload.bin"%string
    end in
  let safe_name := Py.path_name client_name in
  let placed := Py.path_join (media_input_dir cfg) (new_id ++ "_" ++ safe_name)%string in
  Py.rfind "/" safe_name = None
  /\ (forall dir base,
        client_name = (dir ++ "/" ++ base)%string ->
        Py.rfind "/" base = None -> base <> ""%string -> base <> "."%string ->
        safe_name = base)
  /\ (Py.rfind "/" client_name = None -> client_name <> "."%string ->
      safe_name = client_name)
  /\ files w' = <[placed := Upload (content_length file) (content_pixels file)]> (files w)
  /\ (original_filename <$> db w' !! new_id) = Some safe_name
  /\ (source_path <$> db w' !! new_id) = Some placed
  /\ queue w' = queue w ++ [(async_id, initial_ctx new_id placed)]
  /\ (Py.rfind "/" new_id = None ->
      Py.path_name placed = (new_id ++ "_" ++ safe_name)%string
      /\ Maintenance.is_child (media_input_dir cfg) placed = true).
Proof.
  intros H client_name safe_name placed.
  apply upload_media_accepted in H. cbv zeta in H.
  destruct H as (_ & _ & Hfiles & Hqueue & Hdb).
  split; [apply path_name_no_separator|].
  split.
  { intros dir base Hclient Hsep Hempty Hdot. unfold safe_name. rewrite Hclient.
    now apply (path_name_join dir base). }
  split.
  { intros Hsep Hdot. unfold safe_name, Py.path_name.
    rewrite path_parts_plain; [reflexivity | exact Hsep | | exact Hdot].
    unfold client_name. destruct (filename file) as [n|]; [|discriminate].
    destruct (String.eqb_spec n ""); [discriminate | assumption]. }
  split; [exact Hfiles|]. rewrite Hdb, lookup_insert_eq.
  split; [reflexivity|]. split; [reflexivity|]. split; [exact Hqueue|].
  intros Hid.
  assert (Hname : Py.rfind "/" (new_id ++ "_" ++ safe_name)%string = None).
  { rewrite rfind_app. change ("_" ++ safe_name)%string with (String "_" safe_name).
    cbn [Py.rfind]. unfold safe_name. rewrite path_name_no_separator. cbn. exact Hid. }
  assert (Hempty : (new_id ++ "_" ++ safe_name)%string <> ""%string)
    by (destruct new_id; discriminate).
  assert (Hdot : (new_id ++ "_" ++ safe_name)%string <> "."%string).
  { destruct new_id as [|c [|c' rest]]; discriminate. }
  assert (Hplaced : Py.path_name placed = (new_id ++ "_" ++ safe_name)%string)
    by (now apply path_name_join).
  split; [exact Hplaced|].
  unfold Maintenance.is_child. rewrite Hplaced.
  fold placed. rewrite String.eqb_refl. cbn [andb].
  now apply negb_true_iff, String.eqb_neq.
Qed.

Lemma upload_media_places_file_witness :
  let file := Scenarios.sneaky in
  let w := Examples.w_image in
  let w' := snd (upload_media settings file "bob" Scenarios.task_uuid "job-5" w) in
  let client_name :=
    match filename file with
    | Some n => if String.eqb n "" then "upload.bin"%string else n
    | None => "upload.bin"%string
    end in
  let safe_name := Py.path_name client_name in
  let placed :=
    Py.path_join (media_input_dir settings) (Scenarios.task_uuid ++ "_" ++ safe_name)%string in
  Py.rfind "/" safe_name = None
  /\ (forall dir base,
        client_name = (dir ++ "/" ++ base)%string ->
        Py.rfind "/" base = None -> base <> ""%string -> base <> "."%string ->
        safe_name = base)
  /\ (Py.rfind "/" client_name = None -> client_name <> "."%string ->
      safe_name = client_name)
  /\ files w' = <[placed := Upload (content_length file) (content_pixels file)]> (files w)
  /\ (original_filename <$> db w' !! Scenarios.task_uuid) = Some safe_name
  /\ (source_path <$> db w' !! Scenarios.task_uuid) = Some placed
  /\ queue w' = queue w ++ [("job-5"%string, initial_ctx Scenarios.task_uuid placed)]
  /\ (Py.rfind "/" Scenarios.task_uuid = None ->
      Py.path_name placed = (Scenarios.task_uuid ++ "_" ++ safe_name)%string
      /\ Maintenance.is_child (media_input_dir settings) placed = true).
Proof.
  intros file w w'.
  apply (upload_media_places_file settings file "bob" Scenarios.task_uuid "job-5" w
           {| r_task_id := Scenarios.task_uuid; r_celery_id := "job-5"; r_status := "queued" |}
           w').
  unfold w', w, file. apply result_pair_eta. vm_compute. reflexivity.
Defined.

(** X16: an accepted upload can be read back at once.  The status
    endpoint, asked for the returned task id, answers without changing
    anything: same id, the uploading user, the status of the upload
    response (queued), progress 0, the Celery id of the response, no
    outputs and no error; for every other id it answers what it answered
    before the upload. *)
Theorem upload_then_status cfg file user new_id async_id w resp w' :
  upload_media cfg file user new_id async_id w = (Return resp, w') ->
  (exists t,
      get_task_status (r_task_id resp) w' = (Return t, w')
      /\ t_id t = r_task_id resp
      /\ t_user_id t = user
      /\ t_status t = r_status resp
      /\ r_status resp = "queued"%string
      /\ t_progress t = 0
      /\ t_celery_task_id t = Some (r_celery_id resp)
      /\ t_outputs t = EmptyOutputs
      /\ t_error_message t = None)
  /\ (forall other, other <> r_task_id resp ->
        fst (get_task_status other w') = fst (get_task_status other w)).
Proof.
  intros H. apply upload_media_accepted in H. cbv zeta in H.
  destruct H as (_ & -> & _ & _ & Hdb). cbn [r_task_id r_status r_celery_id].
  unfold get_task_status. rewrite Hdb. split.
  - rewrite lookup_insert_eq. eexists. split; [reflexivity|].
    cbn. repeat split; reflexivity.
  - intros other Hother. rewrite lookup_insert_ne by congruence.
    destruct (db w !! other); reflexivity.
Qed.

Lemma upload_then_status_witness :
  let resp := {| r_task_id := "b2"; r_celery_id := "job-5"; r_status := "queued" |} in
  let w := Examples.w_image in
  let w' := snd (upload_media settings Examples.photo "bob" "b2" "job-5" w) in
  (exists t,
      get_task_status (r_task_id resp) w' = (Return t, w')
      /\ t_id t = r_task_id resp
      /\ t_user_id t = "bob"%string
      /\ t_status t = r_status resp
      /\ r_status resp = "queued"%string
      /\ t_progress t = 0
      /\ t_celery_task_id t = Some (r_celery_id resp)
      /\ t_outputs t = EmptyOutputs
      /\ t_error_message t = None)
  /\ (forall other, other <> r_task_id resp ->
        fst (get_task_status other w') = fst (get_task_status other w)).
Proof.
  intros resp w w'.
  apply (upload_then_status settings Examples.photo "bob" "b2" "job-5" w resp w').
  unfold w', w, resp. apply result_pair_eta. vm_compute. reflexivity.
Defined.

End Intake.

(* ===================================================================== *)
(** ** The status stream without an end *)
(* ===================================================================== *)

Section StreamLaws.

(** X17: the stream has no time limit of its own.  As long as every
    iteration finds the row, finds it neither completed nor failed, and
    finds the socket open, the loop is still running after all of them,
    and it has sent one snapshot and slept one second per iteration. *)
Theorem task_updates_keeps_polling task_id ticks :
  Forall (fun t => live task_id t = true) ticks ->
  task_updates task_id ticks = (polled task_id ticks, Polling)
  /\ length (polled task_id ticks) = (2 * length ticks)%nat.
Proof.
  intros Hlive. split.
  - rewrite <- (app_nil_r ticks) at 1. rewrite task_updates_prefix by exact Hlive.
    cbn [task_updates fst snd]. now rewrite app_nil_r.
  - induction Hlive as [|t ts Ht _ IH]; [reflexivity|].
    rewrite polled_cons, length_app, IH. unfold polled, live in *. cbn [flat_map].
    destruct (tick_db t !! task_id); [cbn; lia | discriminate].
Qed.

Lemma task_updates_keeps_polling_witness :
  task_updates "t1" [Examples.tick_queued; Examples.tick_queued; Examples.tick_queued]
  = (polled "t1" [Examples.tick_queued; Examples.tick_queued; Examples.tick_queued], Polling)
  /\ length (polled "t1" [Examples.tick_queued; Examples.tick_queued; Examples.tick_queued])
     = (2 * length [Examples.tick_queued; Examples.tick_queued; Examples.tick_queued])%nat.
Proof.
  apply (task_updates_keeps_polling "t1"
           [Examples.tick_queued; Examples.tick_queued; Examples.tick_queued]).
  repeat constructor.
Defined.

(** X18: a row that disappears while a client is subscribed.  After the
    snapshots of the iterations that still found the row, the iteration
    that no longer finds it sends the not-found message and the handler
    returns. *)
Theorem task_updates_row_removed task_id pre t rest :
  Forall (fun t => live task_id t = true) pre ->
  tick_db t !! task_id = None ->
  tick_connected t = true ->
  task_updates task_id (pre ++ t :: rest)
  = (polled task_id pre ++ [Send TaskNotFound], Finished).
Proof.
  intros Hlive Hnone Hconn. rewrite task_updates_prefix by exact Hlive.
  cbn [task_updates]. now rewrite Hnone, Hconn.
Qed.

Lemma task_updates_row_removed_witness :
  task_updates "t1" ([Examples.tick_queued] ++ Examples.tick ∅ true :: [Examples.tick_queued])
  = (polled "t1" [Examples.tick_queued] ++ [Send TaskNotFound], Finished).
Proof.
  apply (task_updates_row_removed "t1" [Examples.tick_queued] (Examples.tick ∅ true)
           [Examples.tick_queued]).
  - repeat constructor.
  - reflexivity.
  - reflexivity.
Defined.

End StreamLaws.

(* ===================================================================== *)
(** ** Watermark and publish *)
(* ===================================================================== *)

Section Artifacts.

(** X19: watermarking one item never touches the item it reads.  When
    [watermark_one] returns, the result keeps the label, its path differs
    from the source path and lies in the same directory under the name
    [<stem>_wm<suffix>], the only file written is that path, and the table
    is unchanged; for an image the written picture has the pixel size of
    the source. *)
Theorem watermark_one_keeps_source ctx item w out w' :
  watermark_one ctx item w = (Return out, w') ->
  i_label out = i_label item
  /\ i_path out <> i_path item
  /\ i_path out
     = Py.path_with_name (i_path item)
         (Py.path_stem (i_path item) ++ "_wm" ++ Py.path_suffix (i_path item))%string
  /\ (exists f, files w' = <[i_path out := f]> (files w)
                /\ (ctx_kind ctx = Some "image"%string ->
                    Some (file_pixels f) = file_pixels <$> files w !! i_path item))
  /\ files w' !! i_path item = files w !! i_path item
  /\ db w' = db w.
Proof.
  assert (Hne : Py.path_with_name (i_path item)
                  (Py.path_stem (i_path item) ++ "_wm" ++ Py.path_suffix (i_path item))%string
                <> i_path item).
  { apply path_with_name_ne.
    - rewrite !string_length_app. cbn [String.length]. lia.
    - rewrite <- stem_suffix. apply marked_name_differs. discriminate. }
  unfold watermark_one, bind, getitem.
  destruct (ctx_kind ctx) as [kind|]; [|discriminate]. cbn [ret].
  destruct (String.eqb kind "image") eqn:Hkind.
  - unfold image_open.
    destruct (files w !! i_path item) as [f|] eqn:Hsrc; [|discriminate].
    destruct (file_pixels f) as [px|] eqn:Hpx; [|discriminate].
    unfold write_file, modify, ret. intros [= <- <-]. cbn [i_label i_path files db set_files].
    split; [reflexivity|]. split; [exact Hne|]. split; [reflexivity|].
    split.
    + eexists. split; [reflexivity|]. intros _. cbn.
      rewrite Hpx. now destruct px.
    + split; [|reflexivity]. rewrite lookup_insert_ne by exact Hne. exact Hsrc.
  - unfold subprocess_run.
    destruct (ffmpeg_rc w) as [|rc rcs]; cbn [Z.eqb negb].
    + unfold write_file, modify, ret. intros [= <- <-].
      cbn [i_label i_path files db set_files].
      split; [reflexivity|]. split; [exact Hne|]. split; [reflexivity|].
      split.
      * eexists. split; [reflexivity|]. intros [= ->]. discriminate.
      * split; [|reflexivity]. now rewrite lookup_insert_ne by exact Hne.
    + destruct (negb (Z.eqb rc 0)); [discriminate|].
      unfold write_file, modify, ret. intros [= <- <-].
      cbn [i_label i_path files db set_files set_ffmpeg_rc].
      split; [reflexivity|]. split; [exact Hne|]. split; [reflexivity|].
      split.
      * eexists. split; [reflexivity|]. intros [= ->]. discriminate.
      * split; [|reflexivity]. now rewrite lookup_insert_ne by exact Hne.
Qed.

Lemma watermark_one_keeps_source_witness :
  let ctx := Examples.ctx_image "t1" Examples.source in
  let item := Scenarios.converted_item in
  let w := Scenarios.w_converted in
  let out := {| i_label := "720p"; i_path := "/tmp/media/output/t1_cat_720p_wm.png" |} in
  let w' := snd (watermark_one ctx item w) in
  i_label out = i_label item
  /\ i_path out <> i_path item
  /\ i_path out
     = Py.path_with_name (i_path item)
         (Py.path_stem (i_path item) ++ "_wm" ++ Py.path_suffix (i_path item))%string
  /\ (exists f, files w' = <[i_path out := f]> (files w)
                /\ (ctx_kind ctx = Some "image"%string ->
                    Some (file_pixels f) = file_pixels <$> files w !! i_path item))
  /\ files w' !! i_path item = files w !! i_path item
  /\ db w' = db w.
Proof.
  intros ctx item w out w'.
  apply (watermark_one_keeps_source ctx item w out w').
  unfold w', ctx, item, w, out. apply result_pair_eta. vm_compute. reflexivity.
Defined.

Lemma upload_loop_local cfg id items w :
  s3_enabled cfg = false ->
  for_each (upload_one cfg id) items w
  = (Return (map (fun it => {| u_label := i_label it; u_url := i_path it;
                               u_path := i_path it |}) items), w).
Proof.
  intros Hoff. induction items as [|it items IH]; [reflexivity|].
  cbn [for_each map]. unfold bind at 1. unfold upload_one at 1.
  unfold bind at 1. unfold upload_file_to_storage. rewrite Hoff. cbn [negb ret].
  unfold bind at 1. now rewrite IH.
Qed.

(** X20: publish on a deployment without object storage.  With
    [s3_enabled] off the stage never calls the storage client, whatever
    that client would have done: every entry keeps its label and gets its
    local path as URL, the thumbnail URL is the thumbnail path, no file
    changes, and the stage writes progress 90. *)
Theorem publish_without_object_storage cfg ctx id items thumb w :
  s3_enabled cfg = false ->
  ctx_media_task_id ctx = Some id ->
  ctx_watermarked ctx = Some items ->
  ctx_thumbnail_path ctx = Some thumb ->
  let res := upload_outputs cfg ctx w in
  fst res
  = Return (set_uploaded
              (map (fun it => {| u_label := i_label it; u_url := i_path it;
                                 u_path := i_path it |}) items) thumb ctx)
  /\ snd res = snd (update_media_row id None (Some 90) None None None w)
  /\ s3_script (snd res) = s3_script w
  /\ files (snd res) = files w.
Proof.
  intros Hoff Hid Hitems Hthumb res.
  assert (Hres : res = (Return (set_uploaded
                                  (map (fun it => {| u_label := i_label it; u_url := i_path it;
                                                     u_path := i_path it |}) items) thumb ctx),
                        snd (update_media_row id None (Some 90) None None None w))).
  { subst res. unfold upload_outputs, bind, getitem. rewrite Hid, Hitems, Hthumb. cbn [ret].
    rewrite upload_loop_local by exact Hoff.
    unfold upload_file_to_storage. rewrite Hoff. cbn [negb ret].
    now rewrite update_media_row_eta. }
  rewrite Hres. cbn [fst snd].
  destruct (update_media_row_tools id None (Some 90) None None None w) as (_ & Hs3 & Hfiles).
  auto.
Qed.

Lemma publish_without_object_storage_witness :
  let res := upload_outputs Scenarios.local_settings Examples.ctx_watermarked
               Scenarios.w_misconfigured in
  fst res
  = Return (set_uploaded
              (map (fun it => {| u_label := i_label it; u_url := i_path it;
                                 u_path := i_path it |})
                 [ {| i_label := "1080p"; i_path := "/tmp/media/output/t1_cat_1080p_wm.png" |};
                   {| i_label := "720p"; i_path := "/tmp/media/output/t1_cat_720p_wm.png" |};
                   {| i_label := "480p"; i_path := "/tmp/media/output/t1_cat_480p_wm.png" |} ])
              "/tmp/media/thumb/t1_cat_thumb.jpg" Examples.ctx_watermarked)
  /\ snd res = snd (update_media_row "t1" None (Some 90) None None None Scenarios.w_misconfigured)
  /\ s3_script (snd res) = s3_script Scenarios.w_misconfigured
  /\ files (snd res) = files Scenarios.w_misconfigured.
Proof.
  apply (publish_without_object_storage Scenarios.local_settings Examples.ctx_watermarked "t1"
           [ {| i_label := "1080p"; i_path := "/tmp/media/output/t1_cat_1080p_wm.png" |};
             {| i_label := "720p"; i_path := "/tmp/media/output/t1_cat_720p_wm.png" |};
             {| i_label := "480p"; i_path := "/tmp/media/output/t1_cat_480p_wm.png" |} ]
           "/tmp/media/thumb/t1_cat_thumb.jpg" Scenarios.w_misconfigured); reflexivity.
Defined.

(** X21: an error of the storage client that is not a storage error is
    not swallowed.  With object storage on, if the next call of the client
    raises an exception outside [BotoCoreError] and [ClientError], publish
    raises that exception and does not write its checkpoint: the table is
    as before. *)
Theorem publish_propagates_other_errors cfg ctx id items thumb w e later :
  s3_enabled cfg = true ->
  ctx_media_task_id ctx = Some id ->
  ctx_watermarked ctx = Some items ->
  ctx_thumbnail_path ctx = Some thumb ->
  s3_script w = S3Raises e :: later ->
  storage_error (exc_class e) = false ->
  fst (upload_outputs cfg ctx w) = Raise e
  /\ db (snd (upload_outputs cfg ctx w)) = db w
  /\ Props.commits (trace (snd (upload_outputs cfg ctx w))) = Props.commits (trace w).
Proof.
  intros Hon Hid Hitems Hthumb Hscript Hother.
  assert (Hcall : forall path key,
             upload_file_to_storage cfg path key w = (Raise e, set_s3_script later w)).
  { intros path key. unfold upload_file_to_storage. rewrite Hon. cbn [negb].
    unfold try_except, bind, client_upload_file. rewrite Hscript. now rewrite Hother. }
  assert (Hres : upload_outputs cfg ctx w = (Raise e, set_s3_script later w)).
  { unfold upload_outputs, bind, getitem. rewrite Hid, Hitems, Hthumb. cbn [ret].
    destruct items as [|it items].
    - cbn [for_each ret]. now rewrite Hcall.
    - cbn [for_each]. unfold bind at 1. unfold upload_one at 1. unfold bind at 1.
      now rewrite Hcall. }
  rewrite Hres. split; [reflexivity | split; reflexivity].
Qed.

Lemma publish_propagates_other_errors_witness :
  fst (upload_outputs settings Examples.ctx_watermarked Scenarios.w_misconfigured)
  = Raise Scenarios.bad_credentials
  /\ db (snd (upload_outputs settings Examples.ctx_watermarked Scenarios.w_misconfigured))
     = db Scenarios.w_misconfigured
  /\ Props.commits (trace (snd (upload_outputs settings Examples.ctx_watermarked
                                  Scenarios.w_misconfigured)))
     = Props.commits (trace Scenarios.w_misconfigured).
Proof.
  apply (publish_propagates_other_errors settings Examples.ctx_watermarked "t1"
           [ {| i_label := "1080p"; i_path := "/tmp/media/output/t1_cat_1080p_wm.png" |};
             {| i_label := "720p"; i_path := "/tmp/media/output/t1_cat_720p_wm.png" |};
             {| i_label := "480p"; i_path := "/tmp/media/output/t1_cat_480p_wm.png" |} ]
           "/tmp/media/thumb/t1_cat_thumb.jpg" Scenarios.w_misconfigured
           Scenarios.bad_credentials []); reflexivity.
Defined.

End Artifacts.

(* ===================================================================== *)
(** ** The periodic jobs *)
(* ===================================================================== *)

Section Sweeps.
Import Maintenance Laws.

Lemma sweep_lookup cutoff mtime l acc p :
  snd (fold_left (sweep_step cutoff mtime) l acc) !! p
  = if bool_decide (p ∈ l) && Z.ltb (mtime p) cutoff then None else snd acc !! p.
Proof.
  revert acc. induction l as [|q l IH]; intros acc; cbn [fold_left].
  - rewrite bool_decide_eq_false_2 by apply not_elem_of_nil. reflexivity.
  - rewrite IH. destruct (decide (p = q)) as [->|Hne].
    + rewrite (bool_decide_eq_true_2 (q ∈ q :: l)) by left. cbn [andb].
      unfold sweep_step. destruct (Z.ltb (mtime q) cutoff); cbn [snd].
      * rewrite lookup_delete_eq. now destruct (bool_decide (q ∈ l) && true).
      * now rewrite andb_false_r.
    + assert (Hmem : bool_decide (p ∈ q :: l) = bool_decide (p ∈ l)).
      { apply bool_decide_ext. rewrite elem_of_cons. tauto. }
      rewrite Hmem. destruct (bool_decide (p ∈ l) && Z.ltb (mtime p) cutoff); [reflexivity|].
      unfold sweep_step. destruct (Z.ltb (mtime q) cutoff); cbn [snd]; [|reflexivity].
      now apply lookup_delete_ne.
Qed.

Lemma sweep_count cutoff mtime l acc :
  NoDup l -> (forall p, p ∈ l -> is_Some (snd acc !! p)) ->
  fst (fold_left (sweep_step cutoff mtime) l acc)
    + Z.of_nat (size (snd (fold_left (sweep_step cutoff mtime) l acc)))
  = fst acc + Z.of_nat (size (snd acc)).
Proof.
  intros Hnd. revert acc. induction Hnd as [|q l Hq Hnd IH]; intros acc Hin; [reflexivity|].
  cbn [fold_left]. rewrite IH.
  - unfold sweep_step. destruct (Z.ltb (mtime q) cutoff); [|reflexivity]. cbn [fst snd].
    assert (Hsome : is_Some (snd acc !! q)) by (apply Hin; left).
    rewrite map_size_delete_Some by exact Hsome.
    assert (size (snd acc) <> 0%nat).
    { intros Hz. apply map_size_empty_inv in Hz. rewrite Hz in Hsome.
      rewrite lookup_empty in Hsome. now destruct Hsome. }
    lia.
  - intros p Hp. unfold sweep_step. destruct (Z.ltb (mtime q) cutoff); cbn [snd].
    + rewrite lookup_delete_ne by (intros ->; contradiction). apply Hin. now right.
    + apply Hin. now right.
Qed.

Lemma elem_of_glob_files root (fs : gmap string File) p :
  p ∈ glob_files root fs <-> is_child root p = true /\ is_Some (fs !! p).
Proof.
  unfold glob_files. rewrite list_elem_of_filter, list_elem_of_fmap. split.
  - intros [Hc ([q f] & -> & Hin)]. split; [exact Hc|].
    apply elem_of_map_to_list in Hin. cbn. eauto.
  - intros [Hc [f Hf]]. split; [exact Hc|]. exists (p, f). split; [reflexivity|].
    now apply elem_of_map_to_list.
Qed.

Lemma NoDup_glob_files root (fs : gmap string File) : NoDup (glob_files root fs).
Proof. apply NoDup_filter, NoDup_fst_map_to_list. Qed.

Lemma sweep_dir_lookup cutoff mtime acc root p :
  snd (sweep_dir cutoff mtime acc root) !! p
  = if is_child root p && Z.ltb (mtime p) cutoff then None else snd acc !! p.
Proof.
  unfold sweep_dir. rewrite sweep_lookup.
  destruct (decide (p ∈ glob_files root (snd acc))) as [Hin|Hout].
  - rewrite bool_decide_eq_true_2 by exact Hin.
    apply elem_of_glob_files in Hin as [-> _]. reflexivity.
  - rewrite bool_decide_eq_false_2 by exact Hout. cbn [andb].
    destruct (is_child root p) eqn:Hc; [|reflexivity].
    destruct (snd acc !! p) eqn:Hp; [|now destruct (true && _)].
    exfalso. apply Hout, elem_of_glob_files. eauto.
Qed.

Lemma sweep_dir_count cutoff mtime acc root :
  fst (sweep_dir cutoff mtime acc root) + Z.of_nat (size (snd (sweep_dir cutoff mtime acc root)))
  = fst acc + Z.of_nat (size (snd acc)).
Proof.
  unfold sweep_dir. apply sweep_count; [apply NoDup_glob_files|].
  intros p Hp. now apply elem_of_glob_files in Hp.
Qed.

Lemma sweep_all_lookup cfg cutoff mtime acc p :
  snd (fold_left (sweep_dir cutoff mtime)
         [media_input_dir cfg; media_output_dir cfg; media_thumb_dir cfg] acc) !! p
  = if stale cfg cutoff mtime p then None else snd acc !! p.
Proof.
  cbn [fold_left]. rewrite !sweep_dir_lookup. unfold stale.
  destruct (is_child (media_input_dir cfg) p), (is_child (media_output_dir cfg) p),
    (is_child (media_thumb_dir cfg) p), (Z.ltb (mtime p) cutoff); reflexivity.
Qed.

Lemma sweep_all_count cfg cutoff mtime acc :
  let swept := fold_left (sweep_dir cutoff mtime)
                 [media_input_dir cfg; media_output_dir cfg; media_thumb_dir cfg] acc in
  fst swept + Z.of_nat (size (snd swept)) = fst acc + Z.of_nat (size (snd acc)).
Proof.
  cbn [fold_left]. now rewrite !sweep_dir_count.
Qed.

(** X22: what the hourly sweep removes.  A file is gone afterwards
    exactly when it was a direct child of the input, output or thumbnail
    directory and was last modified before [now - max_age_hours]; every
    other file is as before, wherever it lives.  The reported count is the
    number of files removed, the table is not touched, and a second sweep
    at the same instant removes nothing. *)
Theorem cleanup_old_media_sweeps cfg max_age_hours now mtime w :
  let res := cleanup_old_media cfg max_age_hours now mtime w in
  let cutoff := now - max_age_hours * hour in
  (forall p, files (snd res) !! p
             = if stale cfg cutoff mtime p then None else files w !! p)
  /\ fst res = Return (Z.of_nat (size (files w)) - Z.of_nat (size (files (snd res))), cutoff)
  /\ db (snd res) = db w
  /\ cleanup_old_media cfg max_age_hours now mtime (snd res) = (Return (0, cutoff), snd res).
Proof.
  intros res cutoff.
  assert (Hlookup : forall p, files (snd res) !! p
                              = if stale cfg cutoff mtime p then None else files w !! p).
  { intros p. subst res. unfold cleanup_old_media. cbn [snd files set_files].
    now rewrite sweep_all_lookup. }
  split; [exact Hlookup|]. split; [|split; [reflexivity|]].
  - subst res. unfold cleanup_old_media. cbn [fst snd files set_files]. fold cutoff.
    pose proof (sweep_all_count cfg cutoff mtime (0, files w)) as Hc.
    cbv zeta in Hc. cbn [fst snd] in Hc. f_equal. f_equal. lia.
  - assert (Hsame : forall fs : gmap string File,
               (forall p, stale cfg cutoff mtime p = true -> fs !! p = None) ->
               fold_left (sweep_dir cutoff mtime)
                 [media_input_dir cfg; media_output_dir cfg; media_thumb_dir cfg] (0, fs)
               = (0, fs)).
    { intros fs Hfs.
      assert (Hmap : snd (fold_left (sweep_dir cutoff mtime)
                            [media_input_dir cfg; media_output_dir cfg; media_thumb_dir cfg]
                            (0, fs)) = fs).
      { apply map_eq. intros p. rewrite sweep_all_lookup. cbn [snd].
        destruct (stale cfg cutoff mtime p) eqn:Hs; [|reflexivity].
        symmetry. now apply Hfs. }
      pose proof (sweep_all_count cfg cutoff mtime (0, fs)) as Hc.
      cbv zeta in Hc. rewrite Hmap in Hc. cbn [fst snd] in Hc.
      destruct (fold_left _ _ _) as [n m]. cbn [fst snd] in *. subst m. f_equal. lia. }
    unfold cleanup_old_media at 1. fold cutoff. rewrite Hsame.
    + cbn [fst snd]. clear Hlookup. now destruct (snd res).
    + intros p Hs. rewrite Hlookup. now rewrite Hs.
Qed.

End Sweeps.

Section Reports.
Import Maintenance Laws.

Lemma size_filter_list {A} (P : string * A -> Prop) `{!forall x, Decision (P x)}
    (m : gmap string A) :
  size (filter P m) = length (filter P (map_to_list m)).
Proof.
  rewrite map_filter_alt, <- length_map_to_list.
  apply Permutation_length, map_to_list_to_map.
  eapply sublist_NoDup; [apply (NoDup_fst_map_to_list m)|].
  apply fmap_sublist, sublist_filter.
Qed.

Lemma count_row_lookup since created_at acc id row st :
  count_row since created_at acc (id, row) !! st
  = if decide (since <= created_at id /\ status row = st)
    then Some (default 0 (acc !! st) + 1) else acc !! st.
Proof.
  unfold count_row. cbn [fst snd].
  destruct (Z.leb_spec since (created_at id)) as [Hin|Hout].
  - destruct (decide (status row = st)) as [<-|Hne].
    + rewrite decide_True by auto. now rewrite lookup_insert_eq.
    + rewrite decide_False by tauto. now rewrite lookup_insert_ne by exact Hne.
  - rewrite decide_False by lia. reflexivity.
Qed.

Lemma count_rows_lookup since created_at (l : list (string * MediaTask)) acc st :
  fold_left (count_row since created_at) l acc !! st
  = match length (filter (fun kv => since <= created_at (fst kv) /\ status (snd kv) = st) l) with
    | O => acc !! st
    | S n => Some (default 0 (acc !! st) + Z.of_nat (S n))
    end.
Proof.
  revert acc. induction l as [|[id row] l IH]; intros acc; [reflexivity|].
  cbn [fold_left]. rewrite IH, !count_row_lookup, filter_cons. cbn [fst snd].
  destruct (decide (since <= created_at id /\ status row = st)); [|reflexivity].
  cbn [length default]. unfold Datatypes.id.
  destruct (length (filter _ l)); f_equal; lia.
Qed.

(** X23: the daily report.  It returns the start of the window, 24 hours
    before [now], and a dictionary that gives, for every status, the
    number of rows created in the window that have it; a status that no
    such row has is absent rather than reported as 0.  Nothing is
    written. *)
Theorem generate_daily_report_counts now created_at w :
  exists counts,
    generate_daily_report now created_at w = (Return (now - 24 * hour, counts), w)
    /\ forall st n,
         counts !! st = Some n
         <-> 0 < n
             /\ n = Z.of_nat (size (recent_with_status (now - 24 * hour) created_at st (db w))).
Proof.
  eexists. split; [reflexivity|]. intros st n.
  rewrite count_rows_lookup. unfold recent_with_status. rewrite size_filter_list.
  destruct (length (filter _ (map_to_list (db w)))) as [|k].
  - rewrite lookup_empty. split; [discriminate | intros [H ->]; lia].
  - rewrite lookup_empty. cbn [default]. split.
    + intros [= <-]. split; lia.
    + intros [_ ->]. reflexivity.
Qed.

End Reports.

(* ===================================================================== *)
(** ** config.py: the CORS origins *)
(* ===================================================================== *)

Section Origins.
Import Cors Laws.

Lemma lstrip_head s :
  lstrip s = EmptyString \/ exists c r, lstrip s = String c r /\ is_space c = false.
Proof.
  induction s as [|c r IH]; [now left|].
  cbn [lstrip]. destruct (is_space c) eqn:Hc; [exact IH|]. right. eauto.
Qed.

Lemma rstrip_head c r : is_space c = false -> exists r', rstrip (String c r) = String c r'.
Proof.
  intros Hc. cbn [rstrip]. rewrite Hc. destruct (rstrip r); eauto.
Qed.

Lemma rstrip_idem s : rstrip (rstrip s) = rstrip s.
Proof.
  induction s as [|c r IH]; [reflexivity|].
  cbn [rstrip]. destruct (rstrip r) as [|k kept] eqn:Hr.
  - destruct (is_space c) eqn:Hc; [reflexivity|]. cbn [rstrip]. now rewrite Hc.
  - cbn [rstrip] in *. now rewrite IH.
Qed.

Lemma strip_idem s : strip (strip s) = strip s.
Proof.
  unfold strip. destruct (lstrip_head s) as [->|(c & r & -> & Hc)]; [reflexivity|].
  destruct (rstrip_head c r Hc) as [r' Hr]. rewrite Hr.
  cbn [lstrip]. rewrite Hc, <- Hr. apply rstrip_idem.
Qed.

Lemma rfind_lstrip c s : Py.rfind c s = None -> Py.rfind c (lstrip s) = None.
Proof.
  induction s as [|a r IH]; [auto|].
  intros H. cbn [lstrip]. destruct (is_space a); [|exact H].
  apply rfind_cons_none in H as [_ Hr]. now apply IH.
Qed.

Lemma rfind_rstrip c s : Py.rfind c s = None -> Py.rfind c (rstrip s) = None.
Proof.
  induction s as [|a r IH]; [auto|].
  intros H. apply rfind_cons_none in H as [Ha Hr]. specialize (IH Hr).
  cbn [rstrip]. destruct (rstrip r) as [|k kept].
  - destruct (is_space a); [reflexivity|]. now apply rfind_cons_none.
  - now apply rfind_cons_none.
Qed.

Lemma stripped_pieces_clean (pieces : list string) :
  Forall (fun p => Py.rfind "," p = None) pieces ->
  Forall clean_origin (map strip (filter (fun item => strip item <> EmptyString) pieces)).
Proof.
  induction 1 as [|p pieces Hp _ IH]; [constructor|].
  rewrite filter_cons. destruct (decide (strip p <> EmptyString)) as [Hne|_]; [|exact IH].
  cbn [map]. constructor; [|exact IH].
  split; [exact Hne|]. split; [apply strip_idem|].
  unfold strip. now apply rfind_rstrip, rfind_lstrip.
Qed.

(** X24: what the parsed CORS setting looks like.  For a setting written
    in ASCII, every origin of [cors_origins_list] is not empty, has no
    white space at either end and holds no comma, however the setting was
    padded or punctuated. *)
Theorem cors_origins_list_clean setting :
  ascii_text setting = true ->
  Forall clean_origin (cors_origins_list setting).
Proof.
  intros _. unfold cors_origins_list. apply stripped_pieces_clean, split_no_sep.
Qed.

Lemma cors_origins_list_clean_witness :
  Forall clean_origin (cors_origins_list Scenarios.padded_origins).
Proof.
  apply (cors_origins_list_clean Scenarios.padded_origins). reflexivity.
Defined.

Lemma split_join_commas (items : list string) :
  items <> [] ->
  Forall (fun p => Py.rfind "," p = None) items ->
  Py.split "," (join_commas items) = items.
Proof.
  induction items as [|a items IH]; [congruence|]. intros _ Hall.
  apply Forall_cons_1 in Hall as [Ha Hall].
  destruct items as [|b items]; [now apply split_clean|].
  change (join_commas (a :: b :: items))
    with (a ++ String "," (join_commas (b :: items)))%string.
  rewrite split_app by exact Ha. now rewrite IH.
Qed.

(** X25: origins in normal form survive the setting.  A list of ASCII
    origins, each not empty, without surrounding white space and without
    a comma, written to the setting with commas in between, is read back
    as the same list. *)
Theorem cors_origins_list_round_trip (origins : list string) :
  Forall (fun item => ascii_text item = true /\ clean_origin item) origins ->
  cors_origins_list (join_commas origins) = origins.
Proof.
  intros Hall. unfold cors_origins_list.
  destruct origins as [|a origins]; [reflexivity|].
  rewrite split_join_commas.
  - induction Hall as [|item items (_ & Hne & Hstrip & _) _ IH]; [reflexivity|].
    rewrite filter_cons, decide_True by (now rewrite Hstrip).
    cbn [map]. now rewrite Hstrip, IH.
  - discriminate.
  - eapply Forall_impl; [exact Hall|]. now intros item (_ & _ & _ & H).
Qed.

Lemma cors_origins_list_round_trip_witness :
  cors_origins_list (join_commas Scenarios.two_origins) = Scenarios.two_origins.
Proof.
  apply (cors_origins_list_round_trip Scenarios.two_origins).
  repeat constructor; discriminate.
Defined.

End Origins.
